(** * pyansys.archive: the archive writer and the midside-node merge

    A shallow embedding of [src/pyansys/archive.py]: [chunks],
    [write_cmblock], [write_nblock], [save_as_archive], [unique_rows] and
    the assembly of the node tables in [raw_to_grid].

    Conventions of the embedding.
    - Integer arrays (numpy [int32]/[int64]) are [list Z].  In
      [write_cmblock], whose arithmetic is on the ids themselves, every
      operation is reduced to the two's-complement range of the array's
      integer type ([wrap]).  In [save_as_archive] a number stored into an
      integer array is reduced to the range of that array's type, and the
      arithmetic on numpy scalars is that of the C long (64 bits; numpy
      before 2.0).  A keyword argument is a Python integer that a C long
      holds.  In [raw_to_grid] the arithmetic is on row positions and
      counts, and is written on [Z].
    - A Python exception is a value of [exn]; a computation that may raise
      returns [result A].
    - numpy primitives ([np.unique], [np.argsort], [np.diff], boolean-mask
      assignment, ...) are modelled from their documented behaviour and keep
      their names with an [np_] prefix.
    - Floating-point coordinates are never computed on by the modelled code,
      only copied, compared bytewise and printed; their type and their
      ['%20.13E'] rendering are section variables.  *)

From stdpp Require Import gmap strings list sorting.
From Stdlib Require Import ZArith Lia DecimalString Ascii.

Open Scope Z_scope.

(** ** Exceptions and the [result] monad *)

(** The four messages [save_as_archive] passes to [Exception]. *)
Inductive message : Type :=
| Missing_node_numbers          (* 'Missing node numbers.  Exiting due ...' *)
| Minus_one_in_elem_num         (* '-1 encountered in ansys_elem_num ...' *)
| Invalid_or_missing_etype      (* 'Invalid or missing data in ...' *)
| Invalid_write_cell_type (celltype : Z). (* 'Invalid write cell type %d' *)

Inductive exn : Type :=
| ValueError
| IndexError
| KeyError
| TypeError
| UnboundLocalError
| Exception (msg : message).

Inductive result (A : Type) : Type :=
| Ok (a : A)
| Raise (e : exn).
Arguments Ok {A} a.
Arguments Raise {A} e.

#[global] Instance result_ret : MRet result := fun A a => Ok a.
#[global] Instance result_bind : MBind result := fun A B f m =>
  match m with
  | Ok a => f a
  | Raise e => Raise e
  end.

Definition raises {A} (r : result A) : Prop := exists e, r = Raise e.

(** [for x in xs: s = f(s, x)] with an exception ending the loop. *)
Fixpoint foldM {A S : Type} (f : S -> A -> result S) (s : S) (xs : list A)
  : result S :=
  match xs with
  | [] => Ok s
  | x :: xs' => s' ← f s x; foldM f s' xs'
  end.

Fixpoint mapM_result {A B : Type} (f : A -> result B) (xs : list A)
  : result (list B) :=
  match xs with
  | [] => Ok []
  | x :: xs' => y ← f x; ys ← mapM_result f xs'; Ok (y :: ys)
  end.

(** ** Python and numpy indexing *)

Definition len {A} (l : list A) : Z := Z.of_nat (length l).

(** [l[i]]: a negative index counts from the end; out of range raises. *)
Definition py_index {A} (l : list A) (i : Z) : result A :=
  let j := if i <? 0 then i + len l else i in
  if (j <? 0) || (len l <=? j) then Raise IndexError
  else match l !! Z.to_nat j with
       | Some x => Ok x
       | None => Raise IndexError
       end.

(** [l[start:stop]]: bounds are wrapped when negative, then clamped. *)
Definition clamp_index {A} (l : list A) (i : Z) : nat :=
  Z.to_nat (if i <? 0 then Z.max (i + len l) 0 else Z.min i (len l)).

Definition py_slice {A} (l : list A) (start stop : Z) : list A :=
  let a := clamp_index l start in
  let b := clamp_index l stop in
  take (b - a)%nat (drop a l).

(** [a[idx]] for an integer index array. *)
Definition np_take {A} (a : list A) (idx : list Z) : result (list A) :=
  mapM_result (py_index a) idx.

(** [np.arange(a, b)] *)
Definition np_arange (a b : Z) : list Z :=
  (fun k => a + Z.of_nat k) <$> seq 0 (Z.to_nat (b - a)).

(** numpy integer arithmetic on a [bits]-bit type: the result is reduced to
    the range [-2^(bits-1) .. 2^(bits-1) - 1]. *)
Definition wrap (bits z : Z) : Z :=
  (z + 2 ^ (bits - 1)) mod 2 ^ bits - 2 ^ (bits - 1).

Definition in_range (bits z : Z) : Prop :=
  - 2 ^ (bits - 1) <= z < 2 ^ (bits - 1).

(** An integer stored in a [float64] array and read back: the integer
    nearest to [z] among those a [float64] holds, the one with the even
    significand on a tie.  Integers below [2^53] in absolute value are
    held exactly; above, the spacing is [2^(e - 52)] for [2^e <= |z|].
    The integers of a type of at most 64 bits are far below the largest
    [float64]. *)
Definition via_float64 (z : Z) : Z :=
  let a := Z.abs z in
  if a <? 2 ^ 53 then z
  else
    let ulp := 2 ^ (Z.log2 a - 52) in
    let q := a / ulp in
    let r := a mod ulp in
    let q' := if 2 * r <? ulp then q
              else if ulp <? 2 * r then q + 1
              else if Z.even q then q else q + 1 in
    Z.sgn z * (q' * ulp).

(** [np.diff(l)] *)
Definition np_diff (bits : Z) (l : list Z) : list Z :=
  zip_with (fun x y => wrap bits (y - x)) l (tail l).

(** [enumerate(l)] *)
Fixpoint enumerate_from {A} (k : Z) (l : list A) : list (Z * A) :=
  match l with
  | [] => []
  | x :: l' => (k, x) :: enumerate_from (k + 1) l'
  end.

Definition enumerate {A} (l : list A) : list (Z * A) := enumerate_from 0 l.

(** [np.unique(l)]: the sorted distinct values. *)
Definition np_unique (l : list Z) : list Z :=
  merge_sort Z.le (remove_dups l).

(** [l.max()] *)
Definition np_max (l : list Z) : result Z :=
  match l with
  | [] => Raise ValueError
  | x :: l' => Ok (foldr Z.max x l')
  end.

(** [l == v], [np.any(mask)], [np.sum(mask)] *)
Definition np_eq (l : list Z) (v : Z) : list bool := (fun x => x =? v) <$> l.
Definition np_lt (l : list Z) (v : Z) : list bool := (fun x => x <? v) <$> l.
Definition np_any (m : list bool) : bool := existsb id m.
Definition np_count (m : list bool) : nat := length (filter (fun b => b = true) m).

(** [a[mask] = v] for a scalar [v]; the mask must be as long as [a]. *)
Definition mask_fill {A} (a : list A) (m : list bool) (v : A) : result (list A) :=
  if decide (length m = length a)
  then Ok (zip_with (fun x (b : bool) => if b then v else x) a m)
  else Raise IndexError.

(** [a[mask] = vals] for an array [vals]: the selected slots take the values
    in order; numpy refuses a value array of another length. *)
Fixpoint mask_scatter {A} (a : list A) (m : list bool) (vals : list A) : list A :=
  match a, m with
  | x :: a', true :: m' =>
      match vals with
      | v :: vals' => v :: mask_scatter a' m' vals'
      | [] => x :: mask_scatter a' m' []
      end
  | x :: a', false :: m' => x :: mask_scatter a' m' vals
  | _, _ => a
  end.

Definition mask_assign {A} (a : list A) (m : list bool) (vals : list A)
  : result (list A) :=
  if decide (length m = length a) then
    if decide (length vals = np_count m) then Ok (mask_scatter a m vals)
    else Raise ValueError
  else Raise IndexError.

(** [a[mask]] *)
Definition mask_select {A} (a : list A) (m : list bool) : result (list A) :=
  if decide (length m = length a)
  then Ok (fst <$> filter (fun p => p.2 = true) (zip a m))
  else Raise IndexError.

(** ** Text formatting *)

Definition str_of_Z (z : Z) : string := NilZero.string_of_int (Z.to_int z).

Fixpoint spaces (n : nat) : string :=
  match n with
  | O => EmptyString
  | S n' => String " " (spaces n')
  end.

(** ['%<w>d' % z]: right-justified in [w] columns; a negative [w] is read by
    Python as the [-] flag, which left-justifies. *)
Definition fmt_d (w : Z) (z : Z) : string :=
  let s := str_of_Z z in
  let pad := spaces (Z.to_nat (Z.abs w) - String.length s) in
  if w <? 0 then s +:+ pad else pad +:+ s.

Fixpoint str_concat (l : list string) : string :=
  match l with
  | [] => EmptyString
  | s :: l' => s +:+ str_concat l'
  end.

(** [sep.join(l)] *)
Fixpoint str_join (sep : string) (l : list string) : string :=
  match l with
  | [] => EmptyString
  | [s] => s
  | s :: l' => s +:+ sep +:+ str_join sep l'
  end.

(** [('%<w>d' * n) % tuple(args)]: the tuple must have exactly [n] items. *)
Definition fmt_ints (w : Z) (n : nat) (args : list Z) : result string :=
  if decide (length args = n) then Ok (str_concat (fmt_d w <$> args))
  else Raise TypeError.

Definition upper_ascii (c : ascii) : ascii :=
  let n := nat_of_ascii c in
  if (97 <=? n)%nat && (n <=? 122)%nat then ascii_of_nat (n - 32) else c.

(** [s.upper()] on ASCII text *)
Fixpoint upper (s : string) : string :=
  match s with
  | EmptyString => EmptyString
  | String c s' => String (upper_ascii c) (upper s')
  end.

Definition nl : string := String (ascii_of_nat 10) EmptyString.

(** ** [chunks] *)

Fixpoint chunks_fuel {A} (fuel : nat) (l : list A) (n : nat) : list (list A) :=
  match fuel, l with
  | S fuel', _ :: _ => take n l :: chunks_fuel fuel' (drop n l) n
  | _, _ => []
  end.

(** [chunks(l, n)]: successive [n]-sized slices of [l] ([n > 0]). *)
Definition chunks {A} (l : list A) (n : nat) : list (list A) :=
  chunks_fuel (length l) l n.

(** ** [write_cmblock] *)

(** [items] becomes a numpy array of some integer type when it goes through
    [np.unique]; [bits] is the width of that type (64 for a list of Python
    integers, 32 for the [int32] arrays of the archive reader). *)

(** The body of the loop over [enumerate(np.diff(items))].  The state is the
    list [toprint] and the current binding of the loop variable [i], which
    the code reads again after the loop. *)
Definition cmblock_step (bits : Z) (items : list Z) (st : list Z * option Z)
    (iv : Z * Z) : result (list Z * option Z) :=
  let '(toprint, _) := st in
  let '(i, value) := iv in
  if value =? 1 then Ok (toprint, Some i)
  else
    prev ← py_index items (i - 1);
    cur ← py_index items i;
    if wrap bits (prev + 1) =? cur then
      next ← py_index items (i + 1);
      Ok (toprint ++ [wrap bits (- cur); next], Some i)
    else
      next ← py_index items (i + 1);
      Ok (toprint ++ [next], Some i).

(** Lines 559-575: the token list [toprint] computed from [items]. *)
Definition cmblock_encode (bits : Z) (items0 : list Z) : result (list Z) :=
  let items := np_unique items0 in
  first ← py_index items 0;
  st ← foldM (cmblock_step bits items) ([first], None)
             (enumerate (np_diff bits items));
  let '(toprint, i) := st in
  tail_tok ← py_index toprint (-1);
  last_item ← py_index items (-1);
  if negb (tail_tok =? wrap bits (Z.abs last_item)) then
    match i with
    | None => Raise UnboundLocalError
    | Some i =>
        x ← py_index items (i + 1);
        Ok (toprint ++ [wrap bits (- x)])
    end
  else Ok toprint.

(** The whole function; the result is the text handed to the file. *)
Definition write_cmblock (bits : Z) (items : list Z)
    (comp_name comp_type : string) (digit_width : Z) : result string :=
  if negb (bool_decide (upper comp_type ∈ ["ELEMENT"; "NODE"]))
  then Raise ValueError
  else
    toprint ← cmblock_encode bits items;
    let nitems := len toprint in
    let head :=
      ["CMBLOCK," +:+ upper comp_name +:+ "," +:+ upper comp_type +:+ ","
         +:+ fmt_d 8 nitems +:+ "  ! from pyansys";
       "(8i" +:+ str_of_Z digit_width +:+ ")"] in
    let body := (fun chunk => str_concat (fmt_d digit_width <$> chunk))
                  <$> chunks toprint 8 in
    Ok (str_join nl (head ++ body ++ [EmptyString])).

(** ** The decoder of the ascending-run notation *)

(** Modelled from the spec: the CMBLOCK reader is compiled code outside the
    sources ([pyansys._reader]); section 4.4 of the specification describes
    the decoder.  Tokens are read left to right.  A positive token is
    emitted and becomes the start of the open run.  A negative token [-b]
    closes the open run started at [a] and expands to [a+1 .. b].  A zero
    token, or a negative token with no open run, is not ascending-run
    notation. *)
Fixpoint cmblock_decode_from (open : option Z) (toks : list Z)
  : option (list Z) :=
  match toks with
  | [] => Some []
  | t :: toks' =>
      if 0 <? t then
        rest ← cmblock_decode_from (Some t) toks'; Some (t :: rest)
      else if t <? 0 then
        match open with
        | Some a =>
            rest ← cmblock_decode_from None toks';
            Some (np_arange (a + 1) (- t + 1) ++ rest)
        | None => None
        end
      else None
  end.

Definition cmblock_decode (toks : list Z) : option (list Z) :=
  cmblock_decode_from None toks.

(** No two neighbouring tokens are both negative. *)
Fixpoint no_adjacent_negatives (toks : list Z) : bool :=
  match toks with
  | a :: (b :: _) as rest =>
      negb ((a <? 0) && (b <? 0)) && no_adjacent_negatives rest
  | _ => true
  end.

Definition strictly_ascending (l : list Z) : Prop := StronglySorted Z.lt l.

(** Positive ids that the [bits]-bit integer type of the array can hold. *)
Definition positive_ids (bits : Z) (l : list Z) : Prop :=
  Forall (fun x => 0 < x < 2 ^ (bits - 1)) l.

(** The loop invariant of [cmblock_encode] once the ids [pre ++ [p]] have
    been scanned: [toprint] is a decodable prefix [tp] followed by the start
    [s] of the run that [p] ends; that run has two or more ids exactly when
    the id before [p] is [p - 1]. *)
Definition cmblock_inv (pre : list Z) (p : Z) (toprint : list Z) : Prop :=
  exists tp s out,
    toprint = tp ++ [s] /\ cmblock_decode tp = Some out /\
    0 < s <= p /\ out ++ np_arange s (p + 1) = pre ++ [p] /\
    (s < p <-> last pre = Some (p - 1)) /\
    no_adjacent_negatives toprint = true.

(** ** Sorting helpers of numpy *)

(** Pairs (value, position) ordered by value, then by position. *)
Definition key_le (a b : Z * nat) : Prop :=
  a.1 < b.1 \/ (a.1 = b.1 /\ (a.2 <= b.2)%nat).

#[global] Instance key_le_dec : RelDecision key_le.
Proof. intros a b. unfold key_le. apply _. Defined.

(** [np.argsort(l)]: the positions of [l] in ascending order of value.
    Equal values keep their input order; numpy's default sort leaves the
    order of ties open. *)
Definition argsort_pairs (l : list Z) : list (Z * nat) :=
  merge_sort key_le (zip l (seq 0 (length l))).

Definition np_argsort (l : list Z) : list Z :=
  (fun kv => Z.of_nat kv.2) <$> argsort_pairs l.

(** The position of the first [x] in [l]. *)
Definition first_index {A} `{EqDecision A} (x : A) (l : list A) : option Z :=
  (fun r => Z.of_nat r.1) <$> list_find (fun y => y = x) l.

(** [np.unique(l, return_index=True)[1]] *)
Definition np_unique_index (l : list Z) : list Z :=
  omap (fun v => first_index v l) (np_unique l).

(** ** VTK cell types

    The constants imported from [vtk], with their values in
    [vtkCellType.h]. *)

Definition VTK_TETRA : Z := 10.
Definition VTK_HEXAHEDRON : Z := 12.
Definition VTK_WEDGE : Z := 13.
Definition VTK_PYRAMID : Z := 14.
Definition VTK_QUADRATIC_TETRA : Z := 24.
Definition VTK_QUADRATIC_HEXAHEDRON : Z := 25.
Definition VTK_QUADRATIC_WEDGE : Z := 26.
Definition VTK_QUADRATIC_PYRAMID : Z := 27.

Definition supported_celltypes : list Z :=
  [VTK_TETRA; VTK_QUADRATIC_TETRA; VTK_PYRAMID; VTK_QUADRATIC_PYRAMID;
   VTK_WEDGE; VTK_QUADRATIC_WEDGE; VTK_HEXAHEDRON; VTK_QUADRATIC_HEXAHEDRON].

(** ** The duplication templates of [save_as_archive]

    Slot [k] of the archive record holds node [template[k]] of the cell. *)

Definition tetra_slots : list Z := [0; 1; 2; 2; 3; 3; 3; 3].
Definition quadratic_tetra_186_slots : list Z :=
  [0; 1; 2; 2; 3; 3; 3; 3; 4; 5; 3; 6; 3; 3; 3; 3; 7; 8; 9; 9].
Definition wedge_slots : list Z := [2; 1; 0; 0; 5; 4; 3; 3].
Definition quadratic_wedge_slots : list Z :=
  [2; 1; 0; 0; 5; 4; 3; 3; 7; 6; 0; 8; 10; 9; 3; 11; 14; 13; 12; 12].
Definition quadratic_pyramid_slots : list Z :=
  [0; 1; 2; 3; 4; 4; 4; 4; 5; 6; 7; 8; 4; 4; 4; 4; 9; 10; 11; 12].
Definition pyramid_slots : list Z := [0; 1; 2; 3; 4; 4; 4; 4].

(** [writenodes = (nodes[t0], nodes[t1], ...)] *)
Definition to_archive_slots (template : list Z) (nodes : list Z)
  : result (list Z) :=
  mapM_result (py_index nodes) template.

(** Modelled from the spec: the element parser is compiled code outside the
    sources ([pyansys._parser]).  Section 4.2 of the specification has
    [fromArchiveSlots] select, per the same fixed template, the slots that
    hold genuine references and discard the duplicate-filled ones: compact
    node [k] is read from the first slot the template fills with node [k]. *)
Definition from_archive_slots (template : list Z) (ncompact : nat)
    (slots : list Z) : option (list Z) :=
  mapM (fun k => j ← first_index (Z.of_nat k) template;
                 slots !! Z.to_nat j)
       (seq 0 ncompact).

(** ** The archive writer *)

Section Archive.

(** A float64 value is identified with its bit pattern: the code copies,
    compares bytewise and prints coordinates, and never computes on them
    outside the compiled helper [reset_midside]. *)
Context {float : Type}.

(** ['%20.13E' % x] *)
Variable fmt_E : float -> string.

(** [np.empty(n, np.int32)]: slot [k] of the [n]-th uninitialised array
    holds the [int32] value of [uninit n k], whatever the allocator left
    there. *)
Variable uninit : nat -> nat -> Z.

Definition point : Type := float * float * float.

Definition coords (p : point) : list float := [p.1.1; p.1.2; p.2].

Definition np_empty (site n : nat) : list Z :=
  (fun k => wrap 32 (uninit site k)) <$> seq 0 n.

(** *** [write_nblock] *)

(** [arr[:, 4:] = angles]: the right-hand side must have as many rows as
    [arr], or a single row that is repeated. *)
Definition broadcast_rows {A} (rows : list A) (n : nat) : result (list A) :=
  if decide (length rows = n) then Ok rows
  else match rows with
       | [r] => Ok (replicate n r)
       | _ => Raise ValueError
       end.

(** The array handed to [np.savetxt]: one row per node, the id followed by
    the three coordinates and, when given, the three angles. *)
Definition nblock_table (node_id : list Z) (pos : list point)
    (angles : option (list point)) : result (list (Z * list float)) :=
  let ind := np_argsort node_id in
  node_id ← np_take node_id ind;
  pos ← np_take pos ind;
  match angles with
  | None => Ok (zip_with (fun id p => (id, coords p)) node_id pos)
  | Some angles =>
      angles ← broadcast_rows angles (length node_id);
      Ok (zip_with (fun idp a => (idp.1, coords idp.2 ++ coords a))
                   (zip node_id pos) angles)
  end.

(** Row [i] of the input: the id and the position given for node [i]. *)
Definition input_row (node_id : list Z) (pos : list point) (i : nat)
  : option (Z * list float) :=
  id ← node_id !! i; p ← pos !! i; Some (id, coords p).

(** One row under the format ['%8d       0       0' + '%20.13E' * k].  The
    array handed to [np.savetxt] is [float64]: the id reaches ['%8d'] as
    the float nearest to it and is printed as the integer that float
    holds. *)
Definition nblock_row (r : Z * list float) : string :=
  fmt_d 8 (via_float64 r.1) +:+ "       0       0"
  +:+ str_concat (fmt_E <$> r.2).

(** The text [write_nblock] writes to its file handle.  The header is built
    first, so an empty [node_id] fails in [np.max] before anything else. *)
Definition write_nblock (node_id : list Z) (pos : list point)
    (angles : option (list point)) : result string :=
  mx ← np_max node_id;
  let h := "/PREP7 " +:+ nl +:+
           "NBLOCK,6,SOLID," +:+ fmt_d 10 mx +:+ "," +:+ fmt_d 10 (len pos)
           +:+ nl +:+ "(3i8,6e20.13)" in
  let f := "N,R5.3,LOC,       -1, " +:+ nl in
  rows ← nblock_table node_id pos angles;
  Ok (h +:+ nl +:+ str_concat ((fun r => nblock_row r +:+ nl) <$> rows)
        +:+ f +:+ nl).

(** *** [save_as_archive] *)

(** [array_bits] gives, for the name of an integer array of the grid, the
    width of its integer type (32 for the arrays of the archive reader). *)
Record Grid : Type := {
  point_arrays : gmap string (list Z);
  cell_arrays : gmap string (list Z);
  array_bits : string -> Z;
  points : list point;
  celltypes : list Z;
  cells : list Z;
  offset : list Z;
}.

Definition number_of_points (g : Grid) : Z := len (points g).
Definition number_of_cells (g : Grid) : Z := len (celltypes g).

(** The keyword arguments.  [filename] and [mode] only name the file that
    receives the text and are left out. *)
Record Options : Type := {
  mtype_start : Z;
  etype_start : Z;
  real_constant_start : Z;
  nblock : bool;
  enum_start : Z;
  nnum_start : Z;
  include_etype_header : bool;
  reset_etype : bool;
  allow_missing : bool;
}.

Definition default_options : Options := {|
  mtype_start := 1; etype_start := 1; real_constant_start := 1;
  nblock := true; enum_start := 1; nnum_start := 1;
  include_etype_header := true; reset_etype := false; allow_missing := true;
|}.

Definition with_nblock (b : bool) (o : Options) : Options := {|
  mtype_start := mtype_start o; etype_start := etype_start o;
  real_constant_start := real_constant_start o;
  nblock := b; enum_start := enum_start o; nnum_start := nnum_start o;
  include_etype_header := include_etype_header o;
  reset_etype := reset_etype o; allow_missing := allow_missing o;
|}.

(** [d[k]] *)
Definition dict_get (d : gmap string (list Z)) (k : string) : result (list Z) :=
  match d !! k with
  | Some v => Ok v
  | None => Raise KeyError
  end.

(** Lines 184-191 and 209-216: the [-1] entries take the numbers
    [start_num, start_num + 1, ...] in order.  [num.max() + 1] and
    [start_num + nadd] are sums of numpy scalars, computed on the C long;
    [np.arange] gives an [int64] array; the assignment stores its values
    into [num], an array of a [bits]-bit integer type, where each is
    reduced to the range of that type. *)
Definition renumber_missing (bits : Z) (num : list Z) (num_start : Z)
  : result (list Z) :=
  mx ← np_max num;
  let start_num := wrap 64 (mx + 1) in
  let start_num := if start_num <? num_start then num_start else start_num in
  let nadd := Z.of_nat (np_count (np_eq num (-1))) in
  let end_num := wrap 64 (start_num + nadd) in
  mask_assign num (np_eq num (-1)) (wrap bits <$> np_arange start_num end_num).

(** Lines 174-191.  The code writes the new numbers into the array it took
    from the grid; no later step of the call reads that array from the grid
    again, so the function returns the renumbered array. *)
Definition node_numbers (g : Grid) (o : Options) : result (list Z) :=
  let nodenum :=
    match point_arrays g !! "ansys_node_num" with
    | Some a => a
    | None => np_arange 1 (number_of_points g + 1)
    end in
  if np_any (np_eq nodenum (-1)) then
    if negb (allow_missing o) then Raise (Exception Missing_node_numbers)
    else renumber_missing (array_bits g "ansys_node_num") nodenum
                          (nnum_start o)
  else Ok nodenum.

(** Lines 194-216 *)
Definition element_numbers (g : Grid) (o : Options) : result (list Z) :=
  let ncells := number_of_cells g in
  enum ← match cell_arrays g !! "ansys_elem_num" with
         | Some a => Ok a
         | None =>
             if negb (allow_missing o) then Raise (Exception Missing_node_numbers)
             else Ok (np_arange 1 (ncells + 1))
         end;
  if np_any (np_eq enum (-1)) then
    if negb (allow_missing o) then Raise (Exception Minus_one_in_elem_num)
    else renumber_missing (array_bits g "ansys_elem_num") enum
                          (enum_start o)
  else Ok enum.

(** Lines 219-240: an attribute array, defaulted to [1..ncells], with its
    [-1] entries set to the start value, stored in the integer type of the
    array. *)
Definition cell_attribute (g : Grid) (key : string) (start : Z) : result (list Z) :=
  let a :=
    match cell_arrays g !! key with
    | Some a => a
    | None => np_arange 1 (number_of_cells g + 1)
    end in
  if np_any (np_eq a (-1))
  then mask_fill a (np_eq a (-1)) (wrap (array_bits g key) start)
  else Ok a.

(** Lines 253-255: one [ET] line per distinct element type. *)
Definition et_line (e t : Z) : string :=
  "ET, " +:+ str_of_Z e +:+ ", " +:+ str_of_Z t +:+ nl.

Definition et_header (etype typenum : list Z) (header : string) : result string :=
  foldM (fun h idx => e ← py_index etype idx;
                      t ← py_index typenum idx;
                      Ok (h +:+ et_line e t))
        header (np_unique_index etype).

(** Lines 274-296: element types chosen from the cell shapes.  Cells of
    another shape keep whatever [np.empty] returned.  [etype] is an [int32]
    array: the type numbers are stored reduced to [int32], and lines
    290-292 compare the stored values with the Python integers
    themselves. *)
Definition default_etypes (g : Grid) (o : Options) (header : string)
  : result (list Z * list Z * string) :=
  let ct := celltypes g in
  let etype := np_empty 0 (length ct) in
  let etype_185 := etype_start o + 2 in
  etype ← mask_fill etype (np_eq ct VTK_TETRA) (wrap 32 etype_185);
  etype ← mask_fill etype (np_eq ct VTK_HEXAHEDRON) (wrap 32 etype_185);
  etype ← mask_fill etype (np_eq ct VTK_WEDGE) (wrap 32 etype_185);
  etype ← mask_fill etype (np_eq ct VTK_PYRAMID) (wrap 32 etype_185);
  let etype_186 := etype_start o in
  etype ← mask_fill etype (np_eq ct VTK_QUADRATIC_HEXAHEDRON) (wrap 32 etype_186);
  etype ← mask_fill etype (np_eq ct VTK_QUADRATIC_WEDGE) (wrap 32 etype_186);
  etype ← mask_fill etype (np_eq ct VTK_QUADRATIC_PYRAMID) (wrap 32 etype_186);
  let etype_187 := etype_start o + 1 in
  etype ← mask_fill etype (np_eq ct VTK_QUADRATIC_TETRA) (wrap 32 etype_187);
  let typenum := np_empty 1 (length etype) in
  typenum ← mask_fill typenum (np_eq etype etype_185) 185;
  typenum ← mask_fill typenum (np_eq etype etype_186) 186;
  typenum ← mask_fill typenum (np_eq etype etype_187) 187;
  let header := header +:+ et_line etype_185 185 in
  let header := header +:+ et_line etype_186 186 in
  let header := header +:+ et_line etype_187 187 in
  Ok (etype, typenum, header).

(** Lines 245-264, taken when the grid has an ["ansys_etype"] array and
    [reset_etype] is off: [(etype, typenum, invalid, header)]. *)
Definition given_etypes (g : Grid) (o : Options) (header : string)
  : result (list Z * list Z * bool * string) :=
  typenum ← dict_get (cell_arrays g) "ansys_elem_type_num";
  etype ← dict_get (cell_arrays g) "ansys_etype";
  let invalid := np_any (np_eq etype (-1)) in
  header ← (if include_etype_header o && negb invalid
            then et_header etype typenum header
            else Ok header);
  (* check if valid *)
  let mask := np_lt (celltypes g) 20 in
  tn ← dict_get (cell_arrays g) "ansys_elem_type_num";
  sel ← mask_select tn mask;
  let invalid := invalid || np_any (np_eq sel 186) in
  Ok (etype, typenum, invalid, header).

(** Lines 243-296: [(etype, typenum, header)]. *)
Definition element_types (g : Grid) (o : Options) (header : string)
  : result (list Z * list Z * string) :=
  let missing :=
    negb (bool_decide (is_Some (cell_arrays g !! "ansys_etype"))
          && negb (reset_etype o)) in
  if missing then
    if negb (allow_missing o) then Raise (Exception Invalid_or_missing_etype)
    else default_etypes g o header
  else
    '(etype, typenum, invalid, header) ← given_etypes g o header;
    if (invalid : bool) then
      if negb (allow_missing o) then Raise (Exception Invalid_or_missing_etype)
      else default_etypes g o header
    else Ok (etype, typenum, header).

(** Lines 299-302 *)
Definition nodes_per_element (etype typenum : list Z) : result (list Z) :=
  let elem_nnodes := np_empty 2 (length etype) in
  elem_nnodes ← mask_fill elem_nnodes (np_eq typenum 185) 8;
  elem_nnodes ← mask_fill elem_nnodes (np_eq typenum 186) 20;
  mask_fill elem_nnodes (np_eq typenum 187) 10.

(** Everything computed before the file is opened. *)
Record Prepared : Type := {
  header : string;
  nodenum : list Z;
  enum : list Z;
  mtype : list Z;
  rcon : list Z;
  etype : list Z;
  typenum : list Z;
  elem_nnodes : list Z;
}.

Definition prepare (g : Grid) (o : Options) : result Prepared :=
  let header := "/PREP7" +:+ nl in
  nodenum ← node_numbers g o;
  enum ← element_numbers g o;
  mtype ← cell_attribute g "ansys_material_type" (mtype_start o);
  rcon ← cell_attribute g "ansys_real_constant" (real_constant_start o);
  '(etype, typenum, header) ← element_types g o header;
  elem_nnodes ← nodes_per_element etype typenum;
  Ok {| header := header; nodenum := nodenum; enum := enum; mtype := mtype;
        rcon := rcon; etype := etype; typenum := typenum;
        elem_nnodes := elem_nnodes |}.

(** Eight node numbers on one physical line. *)
Definition line8 (slots : list Z) : result string :=
  s ← fmt_ints 8 8 slots; Ok (s +:+ nl).

(** Eight node numbers, then twelve, on two physical lines. *)
Definition line8_12 (slots : list Z) : result string :=
  a ← fmt_ints 8 8 (py_slice slots 0 8);
  b ← fmt_ints 8 12 (drop 8 slots);
  Ok (a +:+ nl +:+ b +:+ nl).

(** Lines 342-461: the node fields of one element record. *)
Definition node_fields (celltype : Z) (typenum_i : result Z) (nodes : list Z)
  : result string :=
  if celltype =? VTK_QUADRATIC_TETRA then
    tn ← typenum_i;
    if tn =? 187 then
      if decide (length nodes = 10%nat) then
        Ok (str_concat (fmt_d 8 <$> take 8 nodes) +:+ nl
            +:+ str_concat (fmt_d 8 <$> drop 8 nodes) +:+ nl)
      else Raise TypeError
    else
      w ← to_archive_slots quadratic_tetra_186_slots nodes; line8_12 w
  else if celltype =? VTK_TETRA then
    w ← to_archive_slots tetra_slots nodes; line8 w
  else if celltype =? VTK_WEDGE then
    w ← to_archive_slots wedge_slots nodes; line8 w
  else if celltype =? VTK_QUADRATIC_WEDGE then
    w ← to_archive_slots quadratic_wedge_slots nodes; line8_12 w
  else if celltype =? VTK_QUADRATIC_PYRAMID then
    w ← to_archive_slots quadratic_pyramid_slots nodes; line8_12 w
  else if celltype =? VTK_PYRAMID then
    w ← to_archive_slots pyramid_slots nodes; line8 (py_slice w 0 8)
  else if celltype =? VTK_HEXAHEDRON then
    line8 (py_slice nodes 0 8)
  else if celltype =? VTK_QUADRATIC_HEXAHEDRON then
    line8_12 nodes
  else Raise (Exception (Invalid_write_cell_type celltype)).

(** Lines 322-461: the text of element record [i]. *)
Definition eblock_line (g : Grid) (p : Prepared) (i : Z) : result string :=
  c ← py_index (offset g) i;
  nnode ← py_index (cells g) c;
  let c := c + 1 in
  nodes ← np_take (nodenum p) (py_slice (cells g) c (c + nnode));
  m ← py_index (mtype p) i;
  e ← py_index (etype p) i;
  r ← py_index (rcon p) i;
  nn ← py_index (elem_nnodes p) i;
  en ← py_index (enum p) i;
  line ← fmt_ints 8 11 [m; e; r; 1; 0; 0; 0; 0; nn; 0; en];
  celltype ← py_index (celltypes g) i;
  fields ← node_fields celltype (py_index (typenum p) i) nodes;
  Ok (line +:+ fields).

(** The loop over the cells: the text written so far and, when a record
    raised, the exception that ended the loop. *)
Fixpoint eblock_loop (g : Grid) (p : Prepared) (todo : list Z) (written : string)
  : string * option exn :=
  match todo with
  | [] => (written, None)
  | i :: todo' =>
      match eblock_line g p i with
      | Ok line => eblock_loop g p todo' (written +:+ line)
      | Raise e => (written, Some e)
      end
  end.

(** What a call leaves behind. *)
Inductive run : Type :=
| NotOpened (e : exn)                  (* raised before [open] *)
| Aborted (written : string) (e : exn) (* raised inside the [with] block *)
| Completed (written : string).

(** [if write_nblock:] tests the function [write_nblock], and a function is
    true; the argument [nblock] is not read. *)
Definition function_is_true : bool := true.

Definition eblock_header (last_enum ncells : Z) : string :=
  "EBLOCK,19,SOLID," +:+ fmt_d 10 last_enum +:+ "," +:+ fmt_d 10 ncells +:+ nl
  +:+ "(19i8)" +:+ nl.

Definition save_as_archive (g : Grid) (o : Options) : run :=
  match prepare g o with
  | Raise e => NotOpened e
  | Ok p =>
      let f := header p in
      match (if function_is_true then write_nblock (nodenum p) (points g) None
             else Ok EmptyString) with
      | Raise e => Aborted f e
      | Ok text =>
          let f := f +:+ text in
          match py_index (enum p) (-1) with
          | Raise e => Aborted f e
          | Ok last_enum =>
              let ncells := number_of_cells g in
              let f := f +:+ eblock_header last_enum ncells in
              match eblock_loop g p (np_arange 0 ncells) f with
              | (f, Some e) => Aborted f e
              | (f, None) => Completed (f +:+ "      -1" +:+ nl)
              end
          end
      end
  end.

End Archive.

(** ** [unique_rows] and the midside branch of [raw_to_grid] *)

Section Midside.

Context {float : Type} `{EqDecision float}.

(** The order of [np.unique] on the rows viewed as [np.void] items: the
    bytewise order of their 24 bytes. *)
Variable void_le : relation (@point float).
Context `{!RelDecision void_le}.

(** [0.0] *)
Variable zero : float.

(** [_relaxmidside.reset_midside(cells, cell_type, offset, temp_nodes)], a
    compiled helper outside the sources.  It overwrites rows of
    [temp_nodes] in place; the function gives the rows after the call. *)
Variable reset_midside :
  list Z -> list Z -> list Z -> list (@point float) -> list (@point float).

(** [np.unique(b, True, True)]: the sorted distinct rows, for each of them
    the position of its first occurrence in [b], and for each row of [b]
    its position among the distinct rows. *)
Definition np_unique_rows (b : list (@point float))
  : list (@point float) * list Z * list Z :=
  let u := merge_sort void_le (remove_dups b) in
  (u, omap (fun r => first_index r b) u, omap (fun r => first_index r u) b).

(** Lines 745-753 *)
Definition unique_rows (a : list (@point float))
  : result (list (@point float) * list Z * list Z) :=
  let '(_, idx, idx2) := np_unique_rows a in
  rows ← np_take a idx;
  Ok (rows, idx, idx2).

(** [raw['nodes']] has six columns, the position and the angles of a node;
    [raw['nnum']] has the node numbers. *)
Record Raw : Type := {
  raw_nodes : list (@point float * @point float);
  raw_nnum : list Z;
}.

(** The arrays of [_parser.parse(...)] that the branch reads. *)
Record Parsed : Type := {
  parsed_cells : list Z;
  parsed_offset : list Z;
  parsed_cell_type : list Z;
  parsed_numref : list Z;
}.

(** The arrays the grid is built from. *)
Record Mesh : Type := {
  mesh_cells : list Z;
  mesh_nodes : list (@point float);
  mesh_angles : list (@point float);
  mesh_nnum : list Z;
}.

Definition zero_row : @point float := (zero, zero, zero).

(** [dst[:n] = vals] and [dst[n:] = vals]: the slice and the values must
    have the same number of rows. *)
Definition set_head {A} (n : nat) (dst vals : list A) : result (list A) :=
  if decide (length (take n dst) = length vals) then Ok (vals ++ drop n dst)
  else Raise ValueError.

Definition set_tail {A} (n : nat) (dst vals : list A) : result (list A) :=
  if decide (length (drop n dst) = length vals) then Ok (take n dst ++ vals)
  else Raise ValueError.

(** [dst[n:] = v] for a scalar [v] *)
Definition fill_tail {A} (n : nat) (dst : list A) (v : A) : list A :=
  take n dst ++ replicate (length (drop n dst)) v.

(** Lines 665-681 of [raw_to_grid]: every unresolved reference gets a
    provisional number of its own, counted up from [numref.max() + 1], and
    [reset_midside] computes a position for each.  The result is the mask of
    the unresolved slots, [maxnum], the provisionally numbered cells and the
    candidate rows [new_nodes].  The rows of an [np.empty] array are all
    assigned before they are read; they start here as zero rows. *)
Definition midside_candidates (raw : Raw) (parsed : Parsed)
  : result (list bool * Z * list Z * list (@point float)) :=
  let cells := parsed_cells parsed in
  let mask := np_eq cells (-1) in
  let nextra := np_count mask in
  mx ← np_max (parsed_numref parsed);
  let maxnum := mx + 1 in
  cells ← mask_assign cells mask (np_arange maxnum (maxnum + Z.of_nat nextra));
  let nnodes := length (raw_nodes raw) in
  let nodes := replicate (nnodes + nextra) zero_row in
  nodes ← set_head nnodes nodes (fst <$> raw_nodes raw);
  (* Set new midside nodes directly between their edge nodes *)
  let temp_nodes :=
    reset_midside cells (parsed_cell_type parsed) (parsed_offset parsed) nodes in
  nodes ← set_tail nnodes nodes (drop nnodes temp_nodes);
  let new_nodes := drop nnodes temp_nodes in
  Ok (mask, maxnum, cells, new_nodes).

(** Lines 659-696 of [raw_to_grid]; [parsed] is what [_parser.parse]
    returned for [raw]. *)
Definition raw_to_grid (raw : Raw) (parsed : Parsed) (force_linear : bool)
  : result Mesh :=
  let cells := parsed_cells parsed in
  if force_linear || forallb (fun c => negb (c =? -1)) cells then
    Ok {| mesh_cells := cells;
          mesh_nodes := fst <$> raw_nodes raw;
          mesh_angles := snd <$> raw_nodes raw;
          mesh_nnum := raw_nnum raw |}
  else
    '(mask, maxnum, cells, new_nodes) ← midside_candidates raw parsed;
    let nnodes := length (raw_nodes raw) in
    (* merge nodes *)
    '(unique_nodes, idxA, idxB) ← unique_rows new_nodes;
    (* rewrite node numbers *)
    cells ← mask_assign cells mask ((fun j => j + maxnum) <$> idxB);
    let nextra := length idxA in
    let nodes := replicate (nnodes + nextra) zero_row in
    nodes ← set_head nnodes nodes (fst <$> raw_nodes raw);
    nodes ← set_tail nnodes nodes unique_nodes;
    let angles := replicate (nnodes + nextra) zero_row in
    angles ← set_head nnodes angles (snd <$> raw_nodes raw);
    let angles := fill_tail nnodes angles zero_row in
    (* Add extra node numbers *)
    let nnum := raw_nnum raw ++ replicate nextra (-1) in
    Ok {| mesh_cells := cells; mesh_nodes := nodes; mesh_angles := angles;
          mesh_nnum := nnum |}.


End Midside.

(** ** Example inputs

    In the examples a coordinate is given by its ['%20.13E'] rendering, and
    uninitialised memory holds 7777. *)

Definition f0 : string := " 0.0000000000000E+00".
Definition f1 : string := " 1.0000000000000E+00".

Definition stale_memory : nat -> nat -> Z := fun _ _ => 7777.

Definition corner_points : list (@point string) :=
  [(f0, f0, f0); (f1, f0, f0); (f0, f1, f0); (f0, f0, f1); (f1, f1, f1)].

(** Two tetrahedra whose element ids are not in ascending order. *)
Definition two_tets : @Grid string := {|
  point_arrays := {[ "ansys_node_num" := [1; 2; 3; 4; 5] ]};
  cell_arrays := {[ "ansys_elem_num" := [2; 1] ]};
  array_bits := fun _ => 32;
  points := corner_points;
  celltypes := [VTK_TETRA; VTK_TETRA];
  cells := [4; 0; 1; 2; 3; 4; 1; 2; 3; 4];
  offset := [0; 5];
|}.

(** One tetrahedron with element data and no ["ansys_node_num"] array. *)
Definition unnumbered_tet : @Grid string := {|
  point_arrays := ∅;
  cell_arrays := {[ "ansys_elem_num" := [1] ]} ∪ {[ "ansys_etype" := [1] ]}
                 ∪ {[ "ansys_elem_type_num" := [185] ]};
  array_bits := fun _ => 32;
  points := take 4 corner_points;
  celltypes := [VTK_TETRA];
  cells := [4; 0; 1; 2; 3];
  offset := [0];
|}.

Definition strict_options : Options := {|
  mtype_start := 1; etype_start := 1; real_constant_start := 1;
  nblock := true; enum_start := 1; nnum_start := 1;
  include_etype_header := true; reset_etype := false; allow_missing := false;
|}.

(** The arrays [save_as_archive] prepares for one tetrahedron on the nodes
    numbered 11, 12, 13, 14. *)
Definition prepared_tet : Prepared := {|
  header := "/PREP7" +:+ nl;
  nodenum := [11; 12; 13; 14];
  enum := [5]; mtype := [1]; rcon := [1]; etype := [3]; typenum := [185];
  elem_nnodes := [8];
|}.

Definition one_tet : @Grid string := {|
  point_arrays := {[ "ansys_node_num" := [11; 12; 13; 14] ]};
  cell_arrays := {[ "ansys_elem_num" := [5] ]};
  array_bits := fun _ => 32;
  points := take 4 corner_points;
  celltypes := [VTK_TETRA];
  cells := [4; 0; 1; 2; 3];
  offset := [0];
|}.

(** Two elements that share the edge between nodes 0 and 1, at [(0,0,0)]
    and [(2,0,0)], and both lack its midside node.  Coordinates are
    integers here, and every synthesized row is the midpoint [(1,0,0)]. *)
Definition triple_le (a b : Z * Z * Z) : Prop :=
  a.1.1 < b.1.1 \/
  (a.1.1 = b.1.1 /\ (a.1.2 < b.1.2 \/ (a.1.2 = b.1.2 /\ a.2 <= b.2))).

#[global] Instance triple_le_dec : RelDecision triple_le.
Proof. intros a b. unfold triple_le. apply _. Defined.

Definition shared_edge_reset (cells cell_type offset : list Z)
    (nodes : list (@point Z)) : list (@point Z) :=
  take 2 nodes ++ ((fun _ => (1, 0, 0)) <$> drop 2 nodes).

Definition shared_edge_raw : @Raw Z := {|
  raw_nodes := [((0, 0, 0), (0, 0, 0)); ((2, 0, 0), (0, 0, 0))];
  raw_nnum := [10; 20];
|}.

Definition shared_edge_parsed : Parsed := {|
  parsed_cells := [3; 0; 1; -1; 3; 1; 0; -1];
  parsed_offset := [0; 4];
  parsed_cell_type := [21; 21];
  parsed_numref := [0; 1];
|}.

(** A tetrahedron followed by a cell of type 99, which is none of the eight
    supported shapes; node and element numbers are partly unassigned. *)
Definition tet_and_unknown : @Grid string := {|
  point_arrays := {[ "ansys_node_num" := [4; -1; 2; -1] ]};
  cell_arrays := {[ "ansys_elem_num" := [-1; 7] ]};
  array_bits := fun _ => 32;
  points := take 4 corner_points;
  celltypes := [VTK_TETRA; 99];
  cells := [4; 0; 1; 2; 3; 4; 0; 1; 2; 3];
  offset := [0; 5];
|}.

(** ** Predicates used to state the properties *)

(** What the loop of [cmblock_encode] keeps about the size of [toprint]
    once the ids [pre ++ [p]] have been scanned: there are no more tokens
    than ids, one fewer while [p] extends a run; every token is an id or
    the negation of one; the first token is the first id; and the last
    token is [p] unless [p] extends a run. *)
Definition cmblock_compact (pre : list Z) (p : Z) (toprint : list Z) : Prop :=
  (length toprint + (if decide (last pre = Some (p - 1)%Z) then 1 else 0)
   <= length pre + 1)%nat /\
  Forall (fun t => Z.abs t ∈ pre ++ [p]) toprint /\
  head toprint = head (pre ++ [p]) /\
  (last pre <> Some (p - 1) -> last toprint = Some p).

(** The renumbering of an id array [num] of a [bits]-bit integer type
    stays within that type: the ids given are of the type, and there is
    room above the largest of them, and above the start value, for one new
    id per [-1] entry. *)
Definition renumber_fits (bits : Z) (num : list Z) (num_start : Z) : Prop :=
  let k := Z.of_nat (np_count (np_eq num (-1))) in
  0 < bits <= 64 /\
  Forall (fun x => - 2 ^ (bits - 1) <= x /\ x + 1 + k < 2 ^ (bits - 1)) num /\
  num_start + k < 2 ^ (bits - 1).

(** The element-type data of a grid cannot be used as given: there is no
    ["ansys_etype"] array, or [reset_etype] asks to ignore it, or it holds a
    [-1], or a linear cell (VTK type below 20) has the element type number
    186. *)
Definition etype_data_unusable {float : Type} (g : @Grid float) (o : Options)
  : Prop :=
  cell_arrays g !! "ansys_etype" = None \/
  reset_etype o = true \/
  (exists a, cell_arrays g !! "ansys_etype" = Some a /\ -1 ∈ a) \/
  (exists tn i c, cell_arrays g !! "ansys_elem_type_num" = Some tn /\
                  celltypes g !! i = Some c /\ c < 20 /\ tn !! i = Some 186).

(** The node counts for which lines 342-458 write the node fields of a
    cell: [n] is the number of nodes of the cell and [tn] its element type
    number.  The shapes are tested in the order of the code. *)
Definition enough_nodes (celltype tn : Z) (n : nat) : Prop :=
  if celltype =? VTK_QUADRATIC_TETRA then
    if tn =? 187 then n = 10%nat else (10 <= n)%nat
  else if celltype =? VTK_TETRA then (4 <= n)%nat
  else if celltype =? VTK_WEDGE then (6 <= n)%nat
  else if celltype =? VTK_QUADRATIC_WEDGE then (15 <= n)%nat
  else if celltype =? VTK_QUADRATIC_PYRAMID then (13 <= n)%nat
  else if celltype =? VTK_PYRAMID then (5 <= n)%nat
  else if celltype =? VTK_HEXAHEDRON then (8 <= n)%nat
  else if celltype =? VTK_QUADRATIC_HEXAHEDRON then n = 20%nat
  else False.

(** The six duplication templates, each with the number of nodes of the
    cell shape it is applied to. *)
Definition degenerate_templates : list (list Z * nat) :=
  [(tetra_slots, 4%nat); (pyramid_slots, 5%nat); (wedge_slots, 6%nat);
   (quadratic_tetra_186_slots, 10%nat); (quadratic_pyramid_slots, 13%nat);
   (quadratic_wedge_slots, 15%nat)].

(** Cell [i] of a grid can be written: its offset points at a node count;
    the connectivity that follows refers to points of the grid; and the
    cell has a supported shape with enough nodes for it ([enough_nodes],
    with the type number 187 that a quadratic tetrahedron gets by
    default). *)
Definition writable_cell {float : Type} (g : @Grid float) (i : nat) : Prop :=
  exists c nnode ct,
    offset g !! i = Some c /\ 0 <= c /\
    cells g !! Z.to_nat c = Some nnode /\
    celltypes g !! i = Some ct /\
    Forall (fun k => 0 <= k < number_of_points g)
           (py_slice (cells g) (c + 1) (c + 1 + nnode)) /\
    enough_nodes ct 187 (length (py_slice (cells g) (c + 1) (c + 1 + nnode))).

(** One tetrahedron that carries none of the ANSYS arrays. *)
Definition plain_tet : @Grid string := {|
  point_arrays := ∅;
  cell_arrays := ∅;
  array_bits := fun _ => 32;
  points := take 4 corner_points;
  celltypes := [VTK_TETRA];
  cells := [4; 0; 1; 2; 3];
  offset := [0];
|}.


(** * Properties *)

Ltac elem_solve :=
  rewrite ?elem_of_app, ?elem_of_cons; intuition auto.

Ltac zbool :=
  repeat match goal with
  | |- context [?a <? ?b] => destruct (Z.ltb_spec a b)
  | |- context [?a <=? ?b] => destruct (Z.leb_spec a b)
  | |- context [?a =? ?b] => destruct (Z.eqb_spec a b)
  end.

Lemma remove_dups_NoDup_id {A} `{EqDecision A} (l : list A) :
  NoDup l -> remove_dups l = l.
Proof.
  induction 1 as [|x l Hx Hl IH]; simpl; [done|].
  destruct (decide_rel elem_of x l); [done|]. by rewrite IH.
Qed.

Lemma strictly_ascending_NoDup l : strictly_ascending l -> NoDup l.
Proof.
  induction 1 as [|x l Hl IH Hx]; constructor; auto.
  intros Hin. rewrite Forall_forall in Hx. apply Hx in Hin. lia.
Qed.

Lemma np_unique_ascending l : strictly_ascending l -> np_unique l = l.
Proof.
  intros H. unfold np_unique.
  rewrite remove_dups_NoDup_id by (by apply strictly_ascending_NoDup).
  apply (Sorted_unique Z.le).
  - apply Sorted_merge_sort, _.
  - apply StronglySorted_Sorted.
    induction H as [|x l Hl IH Hx]; constructor; auto.
    eapply Forall_impl; [exact Hx|]. intros; simpl in *; lia.
  - apply merge_sort_Permutation.
Qed.

Lemma len_app {A} (l1 l2 : list A) : len (l1 ++ l2) = len l1 + len l2.
Proof. unfold len. rewrite length_app. lia. Qed.

Lemma len_cons {A} (x : A) l : len (x :: l) = len l + 1.
Proof. unfold len. simpl. lia. Qed.

Lemma len_nonneg {A} (l : list A) : 0 <= len l.
Proof. unfold len. lia. Qed.

Lemma py_index_lookup {A} (l : list A) (n : nat) x :
  l !! n = Some x -> py_index l (Z.of_nat n) = Ok x.
Proof.
  intros H. pose proof (lookup_lt_Some _ _ _ H) as Hlt.
  unfold py_index, len. zbool; simpl; try lia.
  by rewrite Nat2Z.id, H.
Qed.

Lemma py_index_mid {A} (l1 l2 : list A) x :
  py_index (l1 ++ x :: l2) (len l1) = Ok x.
Proof. apply py_index_lookup. by rewrite list_lookup_middle. Qed.

Lemma py_index_neg {A} (l : list A) i x :
  i < 0 -> 0 <= i + len l -> l !! Z.to_nat (i + len l) = Some x ->
  py_index l i = Ok x.
Proof.
  intros Hi Hj H. unfold py_index.
  destruct (Z.ltb_spec i 0); [|lia].
  destruct (Z.ltb_spec (i + len l) 0); [lia|].
  destruct (Z.leb_spec (len l) (i + len l)); [lia|].
  simpl. by rewrite H.
Qed.

Lemma py_index_last {A} (l : list A) x : py_index (l ++ [x]) (-1) = Ok x.
Proof.
  pose proof (len_nonneg l).
  apply py_index_neg; rewrite ?len_app, ?len_cons; try (unfold len in *; simpl; lia).
  replace (Z.to_nat (-1 + (len l + (len [] + 1)))) with (length l)
    by (unfold len; simpl; lia).
  by rewrite list_lookup_middle.
Qed.

Lemma np_arange_nil a b : b <= a -> np_arange a b = [].
Proof. intros. unfold np_arange. replace (Z.to_nat (b - a)) with 0%nat by lia. done. Qed.

Lemma np_arange_cons a b : a < b -> np_arange a b = a :: np_arange (a + 1) b.
Proof.
  intros. unfold np_arange.
  replace (Z.to_nat (b - a)) with (S (Z.to_nat (b - (a + 1)))) by lia.
  simpl. f_equal; [lia|]. rewrite <- fmap_S_seq, <- list_fmap_compose.
  apply list_fmap_ext. intros; simpl; lia.
Qed.

Lemma np_arange_snoc a b : a <= b -> np_arange a (b + 1) = np_arange a b ++ [b].
Proof.
  intros. unfold np_arange.
  replace (Z.to_nat (b + 1 - a)) with (Z.to_nat (b - a) + 1)%nat by lia.
  rewrite seq_app, fmap_app. simpl. do 2 f_equal. lia.
Qed.

Lemma np_arange_one a : np_arange a (a + 1) = [a].
Proof. rewrite np_arange_cons by lia. by rewrite np_arange_nil by lia. Qed.

Lemma decode_from_app o tp out s ts :
  cmblock_decode_from o tp = Some out -> 0 < s ->
  cmblock_decode_from o (tp ++ s :: ts)
  = (fun r => out ++ r) <$> cmblock_decode_from None (s :: ts).
Proof.
  intros Hd Hs. revert o out Hd.
  induction tp as [|t tp IH]; intros o out Hd; simpl in Hd |- *.
  - injection Hd as <-. destruct (Z.ltb_spec 0 s); [|lia].
    destruct (cmblock_decode_from (Some s) ts); done.
  - destruct (Z.ltb_spec 0 t).
    + destruct (cmblock_decode_from (Some t) tp) as [r|] eqn:E; [|done].
      simpl in Hd. injection Hd as <-.
      rewrite (IH _ _ E). simpl.
      destruct (Z.ltb_spec 0 s); [|lia].
      destruct (cmblock_decode_from (Some s) ts); done.
    + destruct (Z.ltb_spec t 0); [|done].
      destruct o as [a|]; [|done].
      destruct (cmblock_decode_from None tp) as [r|] eqn:E; [|done].
      simpl in Hd. injection Hd as <-.
      rewrite (IH _ _ E). simpl.
      destruct (Z.ltb_spec 0 s); [|lia].
      destruct (cmblock_decode_from (Some s) ts); simpl; [|done].
      by rewrite <- app_assoc.
Qed.

Lemma no_adjacent_negatives_app l1 a l2 :
  no_adjacent_negatives (l1 ++ a :: l2)
  = no_adjacent_negatives (l1 ++ [a]) && no_adjacent_negatives (a :: l2).
Proof.
  induction l1 as [|x l1 IH].
  - simpl. destruct l2; done.
  - destruct l1 as [|y l1].
    + simpl. destruct l2; simpl; rewrite ?andb_true_r; done.
    + change (no_adjacent_negatives ((x :: y :: l1) ++ a :: l2))
        with (negb ((x <? 0) && (y <? 0)) && no_adjacent_negatives ((y :: l1) ++ a :: l2)).
      change (no_adjacent_negatives ((x :: y :: l1) ++ [a]))
        with (negb ((x <? 0) && (y <? 0)) && no_adjacent_negatives ((y :: l1) ++ [a])).
      rewrite IH. by rewrite andb_assoc.
Qed.

Lemma no_adjacent_negatives_snoc l s x :
  no_adjacent_negatives (l ++ [s]) = true -> 0 < s ->
  no_adjacent_negatives (l ++ [s; x]) = true.
Proof.
  intros H Hs. rewrite no_adjacent_negatives_app, H. simpl.
  destruct (Z.ltb_spec s 0); [lia|done].
Qed.

Lemma no_adjacent_negatives_snoc2 l s x y :
  no_adjacent_negatives (l ++ [s]) = true -> 0 < s -> 0 < y ->
  no_adjacent_negatives (l ++ [s; x; y]) = true.
Proof.
  intros H Hs Hy. rewrite no_adjacent_negatives_app, H. simpl.
  destruct (Z.ltb_spec s 0); [lia|]. destruct (Z.ltb_spec y 0); [lia|].
  by rewrite andb_false_r.
Qed.

Lemma cmblock_inv_init p : 0 < p -> cmblock_inv [] p [p].
Proof.
  intros Hp. exists [], p, []. rewrite np_arange_one.
  repeat split; try done; try lia.
Qed.

(** One more consecutive id: nothing is printed. *)
Lemma cmblock_inv_extend pre p x toprint :
  cmblock_inv pre p toprint -> x = p + 1 ->
  cmblock_inv (pre ++ [p]) x toprint.
Proof.
  intros (tp & s & out & -> & Hd & Hs & Hout & Hrun & Hneg) ->.
  exists tp, s, out. repeat split; try done; try lia.
  - rewrite np_arange_snoc by lia. by rewrite app_assoc, Hout.
  - intros _. rewrite last_snoc. f_equal. lia.
Qed.

(** A gap after a single id: the next id is printed. *)
Lemma cmblock_inv_single pre p x toprint :
  cmblock_inv pre p toprint -> last pre <> Some (p - 1) -> p < x -> x <> p + 1 ->
  cmblock_inv (pre ++ [p]) x (toprint ++ [x]).
Proof.
  intros (tp & s & out & -> & Hd & Hs & Hout & Hrun & Hneg) Hlast Hpx Hgap.
  assert (s = p) as -> by (destruct (decide (s < p)) as [H|H]; [by apply Hrun in H|lia]).
  exists (tp ++ [p]), x, (out ++ [p]). repeat split; try lia.
  - unfold cmblock_decode in *. rewrite (decode_from_app _ _ _ _ _ Hd) by lia.
    simpl. destruct (Z.ltb_spec 0 p); [done|lia].
  - rewrite np_arange_one. rewrite np_arange_one in Hout. by rewrite Hout.
  - rewrite last_snoc. intros [=]. lia.
  - rewrite <- app_assoc. simpl. apply no_adjacent_negatives_snoc; [done|lia].
Qed.

(** A gap after a run: the run is closed and the next id is printed. *)
Lemma cmblock_inv_close pre p x toprint :
  cmblock_inv pre p toprint -> last pre = Some (p - 1) -> p < x -> x <> p + 1 ->
  cmblock_inv (pre ++ [p]) x (toprint ++ [- p; x]).
Proof.
  intros (tp & s & out & -> & Hd & Hs & Hout & Hrun & Hneg) Hlast Hpx Hgap.
  apply Hrun in Hlast.
  exists (tp ++ [s; - p]), x, (out ++ np_arange s (p + 1)). repeat split; try lia.
  - by rewrite <- !app_assoc.
  - unfold cmblock_decode in *. rewrite (decode_from_app _ _ _ _ _ Hd) by lia.
    simpl. destruct (Z.ltb_spec 0 s); [|lia].
    destruct (Z.ltb_spec 0 (- p)); [lia|]. destruct (Z.ltb_spec (- p) 0); [|lia].
    simpl. rewrite app_nil_r, Z.opp_involutive.
    by rewrite (np_arange_cons s (p + 1)) by lia.
  - by rewrite np_arange_one, Hout.
  - rewrite last_snoc. intros [=]. lia.
  - rewrite <- app_assoc. simpl. apply no_adjacent_negatives_snoc2; [done|lia..].
Qed.

Lemma py_index_before {A} (pre : list A) p rest q :
  last pre = Some q -> py_index (pre ++ p :: rest) (len pre - 1) = Ok q.
Proof.
  intros [pre' ->]%last_Some. rewrite <- app_assoc. simpl.
  replace (len (pre' ++ [q]) - 1) with (len pre')
    by (rewrite len_app, len_cons; unfold len; simpl; lia).
  apply py_index_mid.
Qed.

Lemma py_index_after {A} (pre : list A) p x rest :
  py_index (pre ++ p :: x :: rest) (len pre + 1) = Ok x.
Proof.
  replace (pre ++ p :: x :: rest) with ((pre ++ [p]) ++ x :: rest)
    by (by rewrite <- app_assoc).
  replace (len pre + 1) with (len (pre ++ [p]))
    by (rewrite len_app, len_cons; unfold len; simpl; lia).
  apply py_index_mid.
Qed.

(** With nothing before [p], the code reads [items[-1]], the last item. *)
Lemma py_index_wrap (p x : Z) rest :
  strictly_ascending (p :: x :: rest) ->
  exists z, py_index (p :: x :: rest) (-1) = Ok z /\ p < z /\ z ∈ x :: rest.
Proof.
  intros Hs. destruct (last (x :: rest)) as [z|] eqn:Hl.
  - apply last_Some in Hl as [l' Hl]. exists z.
    assert (z ∈ x :: rest) as Hz by (rewrite Hl; elem_solve).
    split; [|split; [|done]].
    + change (p :: x :: rest) with ([p] ++ (x :: rest)). rewrite Hl.
      rewrite app_assoc. apply py_index_last.
    + inversion Hs as [|? ? _ Hall]; subst. rewrite Forall_forall in Hall.
      by apply Hall.
  - by apply last_None in Hl.
Qed.

(** ** Fixed-width arithmetic *)

Lemma pow2_double bits : 0 < bits -> 2 ^ bits = 2 * 2 ^ (bits - 1).
Proof.
  intros Hb. replace bits with (Z.succ (bits - 1)) at 1 by lia.
  rewrite Z.pow_succ_r by lia. done.
Qed.

Lemma pow2_half_pos bits : 0 < bits -> 0 < 2 ^ (bits - 1).
Proof. intros Hb. apply Z.pow_pos_nonneg; lia. Qed.

(** A value of the type is not changed. *)
Lemma wrap_id bits z : 0 < bits -> in_range bits z -> wrap bits z = z.
Proof.
  intros Hb [Hl Hu]. unfold wrap. rewrite (pow2_double bits Hb).
  rewrite Z.mod_small by lia. lia.
Qed.

(** One past the largest value is the smallest value. *)
Lemma wrap_half bits : 0 < bits -> wrap bits (2 ^ (bits - 1)) = - 2 ^ (bits - 1).
Proof.
  intros Hb. unfold wrap. rewrite (pow2_double bits Hb).
  replace (2 ^ (bits - 1) + 2 ^ (bits - 1)) with (2 * 2 ^ (bits - 1)) by lia.
  rewrite Z_mod_same_full. lia.
Qed.

(** The successor of a positive id never wraps onto a positive id below it. *)
Lemma wrap_succ_above bits p z :
  0 < bits -> 0 < p <= z -> z < 2 ^ (bits - 1) -> wrap bits (z + 1) <> p.
Proof.
  intros Hb Hp Hz. destruct (decide (z + 1 < 2 ^ (bits - 1))) as [Hlt|Hge].
  - rewrite wrap_id; [lia|done|unfold in_range; lia].
  - replace (z + 1) with (2 ^ (bits - 1)) by lia. rewrite wrap_half by done. lia.
Qed.

Lemma cmblock_step_run bits items toprint i0 i :
  cmblock_step bits items (toprint, i0) (i, 1) = Ok (toprint, Some i).
Proof. reflexivity. Qed.

Lemma cmblock_step_gap bits items toprint i0 i value prev cur next :
  value <> 1 ->
  py_index items (i - 1) = Ok prev -> py_index items i = Ok cur ->
  py_index items (i + 1) = Ok next ->
  cmblock_step bits items (toprint, i0) (i, value)
  = Ok (if wrap bits (prev + 1) =? cur
        then toprint ++ [wrap bits (- cur); next]
        else toprint ++ [next],
        Some i).
Proof.
  intros Hv Hp Hc Hn. unfold cmblock_step.
  destruct (Z.eqb_spec value 1); [done|].
  rewrite Hp, Hc. cbn [mbind result_bind].
  destruct (wrap bits (prev + 1) =? cur); rewrite Hn; reflexivity.
Qed.

Lemma cmblock_loop_inv bits rest : forall pre p toprint i0,
  0 < bits ->
  strictly_ascending (pre ++ p :: rest) ->
  positive_ids bits (pre ++ p :: rest) ->
  cmblock_inv pre p toprint ->
  exists toprint' pre' p',
    foldM (cmblock_step bits (pre ++ p :: rest)) (toprint, i0)
          (enumerate_from (len pre) (np_diff bits (p :: rest)))
    = Ok (toprint', match rest with
                    | [] => i0
                    | _ => Some (len (pre ++ p :: rest) - 2)
                    end) /\
    pre ++ p :: rest = pre' ++ [p'] /\ cmblock_inv pre' p' toprint'.
Proof.
  induction rest as [|x rest IH]; intros pre p toprint i0 Hb Hasc Hids Hinv.
  - exists toprint, pre, p. by simpl.
  - assert (p < x) as Hpx.
    { apply StronglySorted_app_1_r in Hasc. inversion Hasc as [|? ? _ Hall]; subst.
      by inversion Hall. }
    unfold positive_ids in Hids. rewrite Forall_forall in Hids.
    assert (0 < p < 2 ^ (bits - 1)) as Hp by (apply Hids; elem_solve).
    assert (0 < x < 2 ^ (bits - 1)) as Hx by (apply Hids; elem_solve).
    assert (forall tp1, cmblock_inv (pre ++ [p]) x tp1 ->
      exists toprint' pre' p',
        foldM (cmblock_step bits (pre ++ p :: x :: rest)) (tp1, Some (len pre))
              (enumerate_from (len pre + 1) (np_diff bits (x :: rest)))
        = Ok (toprint', Some (len (pre ++ p :: x :: rest) - 2)) /\
        pre ++ p :: x :: rest = pre' ++ [p'] /\ cmblock_inv pre' p' toprint')
      as Hnext.
    { intros tp1 Hinv1.
      destruct (IH (pre ++ [p]) x tp1 (Some (len pre)))
        as (t' & pre' & p' & Hf & Heq & Hi).
      - done.
      - by rewrite <- app_assoc.
      - unfold positive_ids. rewrite Forall_forall, <- app_assoc. exact Hids.
      - done.
      - exists t', pre', p'. rewrite <- app_assoc in Hf, Heq. simpl in Hf, Heq.
        replace (len (pre ++ [p])) with (len pre + 1) in Hf
          by (rewrite len_app, len_cons; unfold len; simpl; lia).
        split; [|done]. rewrite Hf. do 2 f_equal.
        destruct rest; [|done].
        f_equal. rewrite len_app, !len_cons. unfold len; simpl; lia. }
    change (np_diff bits (p :: x :: rest))
      with (wrap bits (x - p) :: np_diff bits (x :: rest)).
    rewrite (wrap_id bits (x - p)) by (done || unfold in_range; lia).
    cbn [enumerate_from foldM].
    destruct (decide (x - p = 1)) as [Hone|Hgap].
    + rewrite Hone, cmblock_step_run. cbn [mbind result_bind]. apply Hnext.
      apply cmblock_inv_extend; [done|lia].
    + destruct (last pre) as [q|] eqn:Hlast.
      * assert (0 < q < p) as Hq.
        { pose proof Hlast as [pre0 Hpre]%last_Some. split.
          - apply Hids. subst pre. elem_solve.
          - apply (StronglySorted_app_1_elem_of _ _ _ _ _ Hasc); subst pre;
              elem_solve. }
        rewrite (cmblock_step_gap _ _ _ _ _ _ q p x Hgap);
          [|by apply py_index_before|apply py_index_mid|apply py_index_after].
        cbn [mbind result_bind]. apply Hnext.
        rewrite (wrap_id bits (q + 1)) by (done || unfold in_range; lia).
        rewrite (wrap_id bits (- p)) by (done || unfold in_range; lia).
        destruct (Z.eqb_spec (q + 1) p) as [Hrun|Hnorun].
        -- apply cmblock_inv_close; [done| |lia..]. rewrite Hlast. f_equal. lia.
        -- apply cmblock_inv_single; [done| |lia..]. rewrite Hlast. intros [=]. lia.
      * apply last_None in Hlast. subst pre. simpl app in *.
        destruct (py_index_wrap p x rest Hasc) as (z & Hz & Hpz & Hzin).
        assert (0 < z < 2 ^ (bits - 1)) as Hzr by (apply Hids; right; exact Hzin).
        rewrite (cmblock_step_gap _ _ _ _ _ _ z p x Hgap);
          [|exact Hz|reflexivity|apply (py_index_after [])].
        cbn [mbind result_bind]. apply (Hnext _).
        destruct (Z.eqb_spec (wrap bits (z + 1)) p) as [Hrun|Hnorun].
        { exfalso. revert Hrun. apply wrap_succ_above; lia. }
        apply (cmblock_inv_single [] p x); [done|done|lia..].
Qed.

(** C1 (as amended).  For every non-empty, strictly ascending sequence [S]
    of positive integers of the array's integer type, the encoding step of
    [write_cmblock] returns a token list; decoding that list gives [S]
    back; and no two neighbouring tokens are negative. *)
Theorem cmblock_roundtrip (bits : Z) (S : list Z) :
  0 < bits ->
  S <> [] -> strictly_ascending S -> positive_ids bits S ->
  exists toks,
    cmblock_encode bits S = Ok toks /\
    cmblock_decode toks = Some S /\
    no_adjacent_negatives toks = true.
Proof.
  intros Hb Hne Hasc Hpos. destruct S as [|p rest]; [done|].
  unfold positive_ids in Hpos.
  assert (0 < p) as Hp by (inversion Hpos; lia).
  unfold cmblock_encode. rewrite (np_unique_ascending _ Hasc).
  change (py_index (p :: rest) 0) with (Ok p). cbn [mbind result_bind].
  destruct (cmblock_loop_inv bits rest [] p [p] None Hb Hasc Hpos
              (cmblock_inv_init p Hp))
    as (toprint & pre' & p' & Hf & Heq & Hinv).
  simpl app in *. change (len []) with 0 in Hf. unfold enumerate. rewrite Hf.
  cbn [mbind result_bind].
  destruct Hinv as (tp & s & out & -> & Hd & Hs & Hout & Hrun & Hneg).
  rewrite py_index_last. cbn [mbind result_bind].
  assert (0 < p' < 2 ^ (bits - 1)) as Hp'.
  { rewrite Forall_forall in Hpos. apply Hpos. rewrite Heq. elem_solve. }
  rewrite Heq, py_index_last. cbn [mbind result_bind].
  rewrite Z.abs_eq by lia.
  rewrite (wrap_id bits p') by (done || unfold in_range; lia).
  destruct (Z.eqb_spec s p') as [->|Hsp]; cbn [negb].
  - exists (tp ++ [p']). split; [done|]. split; [|done].
    unfold cmblock_decode in *. rewrite (decode_from_app _ _ _ _ _ Hd) by lia.
    simpl. destruct (Z.ltb_spec 0 p'); [|lia]. simpl.
    rewrite np_arange_one in Hout. congruence.
  - destruct rest as [|x rest].
    + destruct pre'; [|by destruct pre'].
      simpl in Heq. injection Heq as <-. simpl in Hrun.
      destruct (decide (s < p)) as [H|H]; [by apply Hrun in H|lia].
    + rewrite <- Heq.
      replace (len (p :: x :: rest) - 2 + 1) with (-1 + len (pre' ++ [p']) )
        by (rewrite Heq; lia).
      rewrite Heq.
      assert (py_index (pre' ++ [p']) (-1 + len (pre' ++ [p'])) = Ok p') as ->.
      { replace (-1 + len (pre' ++ [p'])) with (len pre')
          by (rewrite len_app, len_cons; unfold len; simpl; lia).
        apply py_index_mid. }
      cbn [mbind result_bind].
      rewrite (wrap_id bits (- p')) by (done || unfold in_range; lia).
      exists ((tp ++ [s]) ++ [- p']). split; [done|]. split.
      * rewrite <- app_assoc. simpl.
        unfold cmblock_decode in *. rewrite (decode_from_app _ _ _ _ _ Hd) by lia.
        simpl. destruct (Z.ltb_spec 0 s); [|lia].
        destruct (Z.ltb_spec 0 (- p')); [lia|]. destruct (Z.ltb_spec (- p') 0); [|lia].
        simpl. rewrite app_nil_r, Z.opp_involutive.
        rewrite (np_arange_cons s (p' + 1)) in Hout by lia. by rewrite Hout.
      * rewrite <- app_assoc. simpl. apply no_adjacent_negatives_snoc; [done|lia].
Qed.

(** The round trip at the ids 1, 2, 3, 5, 7, 8, 9 in an [int64] array. *)
Lemma cmblock_roundtrip_witness :
  exists toks,
    cmblock_encode 64 [1; 2; 3; 5; 7; 8; 9] = Ok toks /\
    cmblock_decode toks = Some [1; 2; 3; 5; 7; 8; 9] /\
    no_adjacent_negatives toks = true.
Proof.
  apply (cmblock_roundtrip 64 [1; 2; 3; 5; 7; 8; 9]).
  - lia.
  - discriminate.
  - unfold strictly_ascending. repeat (constructor; try lia).
  - repeat constructor; lia.
Defined.

(** C1 as stated fails at the empty sequence, which is strictly ascending
    and has only positive members: [items[0]] raises [IndexError]. *)
Lemma cmblock_encode_empty :
  strictly_ascending [] /\ positive_ids 64 [] /\
  cmblock_encode 64 [] = Raise IndexError.
Proof. repeat split; constructor. Qed.

(** C9.  The ids 1, 2, 3, 5, 7, 8, 9 are encoded as 1, -3, 5, 7, -9, and
    the single id 4 as the single token 4, which is not negative. *)
Theorem cmblock_encode_examples :
  cmblock_encode 64 [1; 2; 3; 5; 7; 8; 9] = Ok [1; -3; 5; 7; -9] /\
  cmblock_encode 64 [4] = Ok [4] /\
  Forall (fun t => 0 <= t) [4].
Proof. repeat split; try (vm_compute; reflexivity). repeat constructor. lia. Qed.

Lemma py_index_minus1 {A} (l : list A) :
  l <> [] -> exists z, py_index l (-1) = Ok z.
Proof.
  intros Hl. destruct (last l) as [z|] eqn:E.
  - apply last_Some in E as [l' ->]. exists z. apply py_index_last.
  - by apply last_None in E.
Qed.

(** Every index the loop reads is in range: the loop never raises, whatever
    the sign of the ids. *)
Lemma cmblock_loop_total bits rest : forall pre p toprint i0,
  toprint <> [] ->
  exists toprint',
    foldM (cmblock_step bits (pre ++ p :: rest)) (toprint, i0)
          (enumerate_from (len pre) (np_diff bits (p :: rest)))
    = Ok (toprint', match rest with
                    | [] => i0
                    | _ => Some (len (pre ++ p :: rest) - 2)
                    end) /\
    toprint' <> [].
Proof.
  induction rest as [|x rest IH]; intros pre p toprint i0 Hne.
  - exists toprint. by simpl.
  - assert (forall tp1, tp1 <> [] ->
      exists toprint',
        foldM (cmblock_step bits (pre ++ p :: x :: rest)) (tp1, Some (len pre))
              (enumerate_from (len pre + 1) (np_diff bits (x :: rest)))
        = Ok (toprint', Some (len (pre ++ p :: x :: rest) - 2)) /\ toprint' <> [])
      as Hnext.
    { intros tp1 Htp1.
      destruct (IH (pre ++ [p]) x tp1 (Some (len pre)) Htp1) as (t' & Hf & Hi).
      exists t'. rewrite <- app_assoc in Hf. simpl in Hf.
      replace (len (pre ++ [p])) with (len pre + 1) in Hf
        by (rewrite len_app, len_cons; unfold len; simpl; lia).
      split; [|done]. rewrite Hf. do 2 f_equal.
      destruct rest; [|done].
      f_equal. rewrite len_app, !len_cons. unfold len; simpl; lia. }
    change (np_diff bits (p :: x :: rest))
      with (wrap bits (x - p) :: np_diff bits (x :: rest)).
    cbn [enumerate_from foldM].
    destruct (decide (wrap bits (x - p) = 1)) as [Hone|Hgap].
    + rewrite Hone, cmblock_step_run. cbn [mbind result_bind]. by apply Hnext.
    + assert (exists q, py_index (pre ++ p :: x :: rest) (len pre - 1) = Ok q)
        as [q Hq].
      { destruct (last pre) as [q|] eqn:Hlast.
        - exists q. by apply py_index_before.
        - apply last_None in Hlast. subst pre.
          apply py_index_minus1. done. }
      rewrite (cmblock_step_gap _ _ _ _ _ _ q p x Hgap);
        [|exact Hq|apply py_index_mid|apply py_index_after].
      cbn [mbind result_bind]. apply Hnext.
      destruct (wrap bits (q + 1) =? p); by destruct toprint.
Qed.

Lemma cmblock_encode_unique_nil bits items :
  np_unique items = [] -> cmblock_encode bits items = Raise IndexError.
Proof. intros E. unfold cmblock_encode. by rewrite E. Qed.

(** A single id: the loop does not run, and [i] is read unbound when the id
    differs from its absolute value.  The smallest value of the type is its
    own absolute value. *)
Lemma cmblock_encode_unique_single bits items x :
  0 < bits -> in_range bits x ->
  np_unique items = [x] ->
  cmblock_encode bits items
  = if (x <? 0) && negb (x =? - 2 ^ (bits - 1))
    then Raise UnboundLocalError else Ok [x].
Proof.
  intros Hb Hx E. unfold cmblock_encode. rewrite E.
  change (py_index [x] 0) with (Ok x).
  cbn [mbind result_bind np_diff tail zip_with enumerate enumerate_from foldM].
  change (py_index [x] (-1)) with (Ok x). cbn [mbind result_bind].
  pose proof (pow2_half_pos bits Hb) as Hh. destruct Hx as [Hl Hu].
  destruct (Z.ltb_spec x 0) as [Hneg|Hpos]; cbn [andb].
  - destruct (Z.eqb_spec x (- 2 ^ (bits - 1))) as [->|Hmin]; cbn [negb].
    + rewrite Z.abs_opp, Z.abs_eq, wrap_half, Z.eqb_refl by lia. done.
    + rewrite (wrap_id bits (Z.abs x)) by (done || unfold in_range; lia).
      destruct (Z.eqb_spec x (Z.abs x)); [lia|done].
  - rewrite Z.abs_eq by lia.
    rewrite (wrap_id bits x) by (done || unfold in_range; lia).
    by rewrite Z.eqb_refl.
Qed.

Lemma cmblock_encode_unique_more bits items p x rest :
  np_unique items = p :: x :: rest ->
  exists toks, cmblock_encode bits items = Ok toks.
Proof.
  intros E. unfold cmblock_encode. rewrite E.
  change (py_index (p :: x :: rest) 0) with (Ok p). cbn [mbind result_bind].
  destruct (cmblock_loop_total bits (x :: rest) [] p [p] None)
    as (toprint & Hf & Hne); [done|].
  simpl app in Hf. change (len []) with 0 in Hf. unfold enumerate. rewrite Hf.
  cbn [mbind result_bind].
  destruct (py_index_minus1 toprint Hne) as [t ->]. cbn [mbind result_bind].
  destruct (py_index_minus1 (p :: x :: rest)) as [z Hz]; [done|].
  rewrite Hz. cbn [mbind result_bind].
  destruct (negb (t =? wrap bits (Z.abs z))); [|by eexists].
  replace (len (p :: x :: rest) - 2 + 1) with (len ([p] ++ x :: rest ) - 1)
    by (unfold len; simpl; lia).
  destruct (last (x :: rest)) as [y|] eqn:Hl; [|by apply last_None in Hl].
  apply last_Some in Hl as [l' Hl]. simpl app. rewrite Hl.
  replace (len (p :: l' ++ [y]) - 1) with (len (p :: l'))
    by (rewrite !len_cons, len_app, len_cons; unfold len; simpl; lia).
  change (p :: l' ++ [y]) with ((p :: l') ++ [y]).
  rewrite (py_index_mid (p :: l') [] y). cbn [mbind result_bind]. by eexists.
Qed.

Lemma elem_of_np_unique x items : x ∈ np_unique items <-> x ∈ items.
Proof.
  unfold np_unique. rewrite merge_sort_Permutation. apply elem_of_remove_dups.
Qed.

(** When [write_cmblock] raises, on ids of the array's integer type: when
    [comp_type] is neither ELEMENT nor NODE, when there is no id at all,
    or when the distinct ids are one negative id other than the smallest
    value of the type. *)
Lemma write_cmblock_raises_iff bits items comp_name comp_type digit_width :
  0 < bits -> Forall (in_range bits) items ->
  raises (write_cmblock bits items comp_name comp_type digit_width) <->
  (upper comp_type ∉ ["ELEMENT"; "NODE"] \/
   np_unique items = [] \/
   exists x, np_unique items = [x] /\ x < 0 /\ x <> - 2 ^ (bits - 1)).
Proof.
  intros Hb Hrange. unfold write_cmblock, raises.
  destruct (bool_decide_reflect (upper comp_type ∈ ["ELEMENT"; "NODE"])) as [Hin|Hout];
    cbn [negb].
  2:{ split; [by left|by eexists]. }
  destruct (np_unique items) as [|p [|x rest]] eqn:E.
  - rewrite (cmblock_encode_unique_nil _ _ E). cbn [mbind result_bind].
    split; [by right; left|by eexists].
  - assert (in_range bits p) as Hp.
    { rewrite Forall_forall in Hrange. apply Hrange, elem_of_np_unique.
      rewrite E. elem_solve. }
    rewrite (cmblock_encode_unique_single _ _ _ Hb Hp E).
    destruct (Z.ltb_spec p 0), (Z.eqb_spec p (- 2 ^ (bits - 1)));
      cbn [andb negb mbind result_bind].
    + split; [intros [? ?]; done|].
      intros [H1|[H1|(y & [= <-] & Hy & Hmin)]]; done.
    + split; [right; right; by exists p|by eexists].
    + split; [intros [? ?]; done|].
      intros [H1|[H1|(y & [= <-] & Hy & Hmin)]]; [done|done|lia].
    + split; [intros [? ?]; done|].
      intros [H1|[H1|(y & [= <-] & Hy & Hmin)]]; [done|done|lia].
  - destruct (cmblock_encode_unique_more bits _ _ _ _ E) as [toks ->].
    cbn [mbind result_bind]. split.
    + intros [e He]. done.
    + intros [H1|[H1|(y & H1 & _)]]; done.
Qed.




(** The smallest [int64] value is negative and is written without an
    error: its absolute value wraps onto itself. *)
Example cmblock_encode_int64_min :
  cmblock_encode 64 [- 2 ^ 63] = Ok [- 2 ^ 63] /\
  cmblock_encode 64 [- 2 ^ 63 + 1] = Raise UnboundLocalError.
Proof. split; vm_compute; reflexivity. Qed.

(** ** Boolean-mask assignment *)

Arguments np_count : simpl never.

Lemma np_count_cons b m :
  np_count (b :: m) = ((if b then 1 else 0) + np_count m)%nat.
Proof. unfold np_count. by destruct b. Qed.

Lemma length_mask_scatter {A} (a : list A) m vals :
  length (mask_scatter a m vals) = length a.
Proof.
  revert m vals. induction a as [|x a IH]; intros [|[] m] vals; simpl; try done.
  - destruct vals; simpl; by rewrite IH.
  - by rewrite IH.
Qed.

(** Slot [p] takes value number [np_count (take p m)] when selected, and
    keeps its content otherwise. *)
Lemma mask_scatter_lookup {A} (a : list A) m vals p :
  length m = length a -> length vals = np_count m ->
  mask_scatter a m vals !! p
  = match m !! p with
    | Some true => vals !! np_count (take p m)
    | _ => a !! p
    end.
Proof.
  revert m vals p. induction a as [|x a IH]; intros [|b m] vals p Hm Hv;
    simpl in Hm; try done.
  rewrite np_count_cons in Hv. destruct b; simpl.
  - destruct vals as [|v vals]; [done|]. simpl in Hv.
    destruct p as [|p]; simpl; [done|].
    apply IH; lia.
  - destruct p as [|p]; simpl; [done|].
    apply IH; lia.
Qed.

Lemma np_count_take_lt m p :
  m !! p = Some true -> (np_count (take p m) < np_count m)%nat.
Proof.
  revert p. induction m as [|b m IH]; intros [|p] H; simpl in *; try done.
  - injection H as ->. rewrite np_count_cons. unfold np_count at 1. simpl. lia.
  - rewrite !np_count_cons. apply IH in H. lia.
Qed.

Lemma np_eq_lookup l v p : np_eq l v !! p = (fun x => x =? v) <$> l !! p.
Proof. unfold np_eq. by rewrite list_lookup_fmap. Qed.

Lemma length_np_eq l v : length (np_eq l v) = length l.
Proof. unfold np_eq. by rewrite length_fmap. Qed.

Lemma length_np_arange a b : length (np_arange a b) = Z.to_nat (b - a).
Proof. unfold np_arange. by rewrite length_fmap, length_seq. Qed.

Lemma np_arange_lookup a b k :
  (k < Z.to_nat (b - a))%nat -> np_arange a b !! k = Some (a + Z.of_nat k).
Proof.
  intros Hk. unfold np_arange. rewrite list_lookup_fmap, lookup_seq_lt by done.
  done.
Qed.

(** ** [np.unique] with indices *)

Section Unique.
Context {A : Type} `{EqDecision A}.

Lemma first_index_elem_of (x : A) l :
  x ∈ l -> exists j, first_index x l = Some (Z.of_nat j) /\ l !! j = Some x.
Proof.
  intros Hx. unfold first_index.
  destruct (list_find_elem_of (fun y => y = x) l x Hx eq_refl) as [[j y] Hfind].
  rewrite Hfind. apply list_find_Some in Hfind as (Hj & -> & _).
  by exists j.
Qed.

Lemma omap_first_index (xs l : list A) :
  (forall x, x ∈ xs -> x ∈ l) ->
  Forall2 (fun x j => exists k, j = Z.of_nat k /\ l !! k = Some x)
          xs (omap (fun x => first_index x l) xs).
Proof.
  induction xs as [|x xs IH]; intros Hsub; simpl; [constructor|].
  destruct (first_index_elem_of x l) as (j & -> & Hj); [apply Hsub; left|].
  constructor; [by exists j|]. apply IH. intros y Hy. apply Hsub. by right.
Qed.

Lemma np_take_Forall2 (a : list A) (xs : list A) (idx : list Z) :
  Forall2 (fun x j => exists k, j = Z.of_nat k /\ a !! k = Some x) xs idx ->
  np_take a idx = Ok xs.
Proof.
  unfold np_take. induction 1 as [|x j xs idx (k & -> & Hk) _ IH]; simpl; [done|].
  rewrite (py_index_lookup _ _ _ Hk). cbn [mbind result_bind].
  rewrite IH. done.
Qed.

End Unique.

Section ArchiveFacts.
Context {float : Type} (fmt_E : float -> string) (uninit : nat -> nat -> Z).

Lemma fmt_ints_ok w n args :
  length args = n -> fmt_ints w n args = Ok (str_concat (fmt_d w <$> args)).
Proof. intros H. unfold fmt_ints. by rewrite decide_True. Qed.

(** C3.  For a cell of type [VTK_TETRA] whose node list is [I, J, K, M],
    the record written by the loop body of [save_as_archive] is the eleven
    header fields followed by the eight node fields I, J, K, K, M, M, M, M;
    reading that pattern back through the template gives [I, J, K, M]. *)
Theorem tetra_record (g : @Grid float) (p : Prepared) (i c nnode I J K M m e r nn en : Z) :
  py_index (offset g) i = Ok c ->
  py_index (cells g) c = Ok nnode ->
  np_take (nodenum p) (py_slice (cells g) (c + 1) (c + 1 + nnode)) = Ok [I; J; K; M] ->
  py_index (mtype p) i = Ok m ->
  py_index (etype p) i = Ok e ->
  py_index (rcon p) i = Ok r ->
  py_index (elem_nnodes p) i = Ok nn ->
  py_index (enum p) i = Ok en ->
  py_index (celltypes g) i = Ok VTK_TETRA ->
  to_archive_slots tetra_slots [I; J; K; M] = Ok [I; J; K; K; M; M; M; M] /\
  eblock_line g p i
  = Ok (str_concat (fmt_d 8 <$> [m; e; r; 1; 0; 0; 0; 0; nn; 0; en])
        +:+ str_concat (fmt_d 8 <$> [I; J; K; K; M; M; M; M]) +:+ nl) /\
  from_archive_slots tetra_slots 4 [I; J; K; K; M; M; M; M] = Some [I; J; K; M].
Proof.
  intros Hc Hn Hnodes Hm He Hr Hnn Hen Hct.
  split; [reflexivity|]. split; [|reflexivity].
  unfold eblock_line.
  rewrite Hc. cbn [mbind result_bind]. rewrite Hn. cbn [mbind result_bind].
  rewrite Hnodes. cbn [mbind result_bind].
  rewrite Hm, He, Hr, Hnn, Hen. cbn [mbind result_bind].
  rewrite Hct. reflexivity.
Qed.


Lemma node_fields_unsupported ct tn nodes :
  ct ∉ supported_celltypes ->
  node_fields ct tn nodes = Raise (Exception (Invalid_write_cell_type ct)).
Proof.
  intros Hct. unfold node_fields.
  repeat match goal with
  | |- context [ct =? ?v] =>
      destruct (Z.eqb_spec ct v) as [->|_];
        [exfalso; apply Hct; unfold supported_celltypes; set_solver|]
  end.
  reflexivity.
Qed.

Lemma np_take_cases {A} (a : list A) idx :
  (exists r, np_take a idx = Ok r) \/ np_take a idx = Raise IndexError.
Proof.
  unfold np_take. induction idx as [|j idx IH]; simpl; [by left; eexists|].
  assert (forall j, (exists x, py_index a j = Ok x) \/ py_index a j = Raise IndexError)
    as Hpy.
  { intros k. unfold py_index.
    destruct ((_ <? 0) || _); [by right|].
    destruct (a !! _); [left; by eexists|by right]. }
  destruct (Hpy j) as [[x ->]| ->]; cbn [mbind result_bind]; [|by right].
  destruct IH as [[r ->]| ->]; cbn [mbind result_bind]; [left; by eexists|by right].
Qed.

Lemma py_index_cases {A} (a : list A) j :
  (exists x, py_index a j = Ok x) \/ py_index a j = Raise IndexError.
Proof.
  unfold py_index.
  destruct ((_ <? 0) || _); [by right|].
  destruct (a !! _); [left; by eexists|by right].
Qed.

(** At a cell of an unsupported shape the loop body raises: the record is
    never written. *)
Lemma eblock_line_unsupported (g : @Grid float) (p : Prepared) (i : Z) ct :
  py_index (celltypes g) i = Ok ct -> ct ∉ supported_celltypes ->
  eblock_line g p i = Raise (Exception (Invalid_write_cell_type ct)) \/
  eblock_line g p i = Raise IndexError.
Proof.
  intros Hct Hun. unfold eblock_line.
  destruct (py_index_cases (offset g) i) as [[c ->]| ->];
    cbn [mbind result_bind]; [|by right].
  destruct (py_index_cases (cells g) c) as [[n ->]| ->];
    cbn [mbind result_bind]; [|by right].
  destruct (np_take_cases (nodenum p) (py_slice (cells g) (c + 1) (c + 1 + n)))
    as [[nodes ->]| ->]; cbn [mbind result_bind]; [|by right].
  destruct (py_index_cases (mtype p) i) as [[? ->]| ->];
    cbn [mbind result_bind]; [|by right].
  destruct (py_index_cases (etype p) i) as [[? ->]| ->];
    cbn [mbind result_bind]; [|by right].
  destruct (py_index_cases (rcon p) i) as [[? ->]| ->];
    cbn [mbind result_bind]; [|by right].
  destruct (py_index_cases (elem_nnodes p) i) as [[? ->]| ->];
    cbn [mbind result_bind]; [|by right].
  destruct (py_index_cases (enum p) i) as [[? ->]| ->];
    cbn [mbind result_bind]; [|by right].
  rewrite fmt_ints_ok by done. cbn [mbind result_bind].
  rewrite Hct. cbn [mbind result_bind].
  rewrite node_fields_unsupported by done. by left.
Qed.

Lemma eblock_loop_raises (g : @Grid float) (p : Prepared) todo i e :
  i ∈ todo -> eblock_line g p i = Raise e ->
  forall written, exists w e', eblock_loop g p todo written = (w, Some e').
Proof.
  intros Hin Hraise. induction todo as [|j todo IH]; intros written.
  - by apply elem_of_nil in Hin.
  - simpl. destruct (eblock_line g p j) as [line|e'] eqn:Hj; [|by eexists _, _].
    apply elem_of_cons in Hin as [->|Hin]; [congruence|].
    by apply IH.
Qed.

Lemma elem_of_np_arange a b x : x ∈ np_arange a b <-> a <= x < b.
Proof.
  unfold np_arange. rewrite list_elem_of_fmap. split.
  - intros (k & -> & Hk). apply elem_of_seq in Hk. lia.
  - intros Hx. exists (Z.to_nat (x - a)). split; [lia|]. apply elem_of_seq. lia.
Qed.

(** C8.  When cell [i] has a type outside the eight supported shapes, the
    loop body raises at that cell, with [Invalid write cell type] unless a
    field of the record is out of range, and [save_as_archive] never
    completes: the cell is not skipped. *)
Theorem unsupported_cell_is_terminal (g : @Grid float) (o : Options) (i : nat) ct :
  celltypes g !! i = Some ct -> ct ∉ supported_celltypes ->
  (forall p, eblock_line g p (Z.of_nat i) = Raise (Exception (Invalid_write_cell_type ct))
             \/ eblock_line g p (Z.of_nat i) = Raise IndexError) /\
  (forall written, save_as_archive fmt_E uninit g o <> Completed written).
Proof.
  intros Hi Hct.
  pose proof (py_index_lookup _ _ _ Hi) as Hpy.
  split; [intros p; by apply eblock_line_unsupported|].
  intros written. unfold save_as_archive.
  destruct (prepare uninit g o) as [p|e]; [|done].
  destruct (if function_is_true then _ else _) as [text|e]; [|done].
  destruct (py_index (enum p) (-1)) as [last_enum|e]; [|done].
  destruct (eblock_line_unsupported g p _ ct Hpy Hct) as [Hr|Hr].
  all: edestruct (eblock_loop_raises g p (np_arange 0 (number_of_cells g)))
    as (w & e' & ->); [| exact Hr | done].
  all: apply elem_of_np_arange; apply lookup_lt_Some in Hi;
    unfold number_of_cells, len; lia.
Qed.

Lemma str_app_assoc (a b c : string) : (a +:+ b) +:+ c = a +:+ (b +:+ c).
Proof.
  induction a as [|x a IH]; [done|].
  change (String x ((a +:+ b) +:+ c) = String x (a +:+ (b +:+ c))). by f_equal.
Qed.

Lemma str_app_nil_r (a : string) : a +:+ EmptyString = a.
Proof.
  induction a as [|x a IH]; [done|].
  change (String x (a +:+ EmptyString) = String x a). by f_equal.
Qed.

(** The loop only appends to the file. *)
Lemma eblock_loop_extends (g : @Grid float) (p : Prepared) todo written :
  exists s, (eblock_loop g p todo written).1 = written +:+ s.
Proof.
  revert written. induction todo as [|i todo IH]; intros written; simpl.
  - exists EmptyString. by rewrite str_app_nil_r.
  - destruct (eblock_line g p i) as [line|e]; simpl.
    + destruct (IH (written +:+ line)) as [s ->].
      exists (line +:+ s). apply str_app_assoc.
    + exists EmptyString. by rewrite str_app_nil_r.
Qed.

(** The shape of a completed archive: the header, the node block, the
    element block header with the last element id, the records, the end
    marker. *)
Lemma save_as_archive_completed (g : @Grid float) (o : Options) written :
  save_as_archive fmt_E uninit g o = Completed written ->
  exists p text last_enum records,
    prepare uninit g o = Ok p /\
    write_nblock fmt_E (nodenum p) (points g) None = Ok text /\
    py_index (enum p) (-1) = Ok last_enum /\
    written = header p +:+ text
              +:+ eblock_header last_enum (number_of_cells g)
              +:+ records +:+ "      -1" +:+ nl.
Proof.
  unfold save_as_archive. intros Hrun.
  destruct (prepare uninit g o) as [p|e] eqn:Hp; [|done].
  unfold function_is_true in Hrun.
  destruct (write_nblock fmt_E (nodenum p) (points g) None) as [text|e] eqn:Ht;
    [|done].
  destruct (py_index (enum p) (-1)) as [last_enum|e] eqn:Hl; [|done].
  destruct (eblock_loop_extends g p (np_arange 0 (number_of_cells g))
              ((header p +:+ text) +:+ eblock_header last_enum (number_of_cells g)))
    as [records Hrec].
  destruct (eblock_loop g p _ _) as [f [e|]]; [done|].
  simpl in Hrec. subst f. injection Hrun as <-.
  exists p, text, last_enum, records. repeat split; try done.
  by rewrite !str_app_assoc.
Qed.

(** C10.  [save_as_archive] gives the same result for [nblock=True] and
    [nblock=False], and every completed archive holds the node block right
    after the header. *)
Theorem nblock_flag_is_ignored (g : @Grid float) (o : Options) :
  save_as_archive fmt_E uninit g (with_nblock true o)
  = save_as_archive fmt_E uninit g (with_nblock false o) /\
  forall b written,
    save_as_archive fmt_E uninit g (with_nblock b o) = Completed written ->
    exists p text rest,
      prepare uninit g (with_nblock b o) = Ok p /\
      write_nblock fmt_E (nodenum p) (points g) None = Ok text /\
      written = header p +:+ text +:+ rest.
Proof.
  split; [reflexivity|]. intros b written Hrun.
  destruct (save_as_archive_completed _ _ _ Hrun)
    as (p & text & last_enum & records & Hp & Htext & _ & ->).
  by eexists p, text, _.
Qed.

(** *** Missing identifiers *)

Lemma np_any_eq_elem_of l v : np_any (np_eq l v) = true <-> v ∈ l.
Proof.
  unfold np_any, np_eq. rewrite existsb_exists. split.
  - intros (b & Hb & Hid). apply list_elem_of_In, list_elem_of_fmap in Hb as (x & -> & Hx).
    unfold id in Hid. by apply Z.eqb_eq in Hid as ->.
  - intros Hv. exists true. split; [|done].
    apply list_elem_of_In, list_elem_of_fmap. exists v. by rewrite Z.eqb_refl.
Qed.

Lemma node_numbers_strict (g : @Grid float) (o : Options) a :
  allow_missing o = false ->
  point_arrays g !! "ansys_node_num" = Some a -> -1 ∈ a ->
  node_numbers g o = Raise (Exception Missing_node_numbers).
Proof.
  intros Hs Ha Hin. unfold node_numbers. rewrite Ha.
  apply np_any_eq_elem_of in Hin. by rewrite Hin, Hs.
Qed.

Lemma element_numbers_strict_absent (g : @Grid float) (o : Options) :
  allow_missing o = false -> cell_arrays g !! "ansys_elem_num" = None ->
  element_numbers g o = Raise (Exception Missing_node_numbers).
Proof. intros Hs Ha. unfold element_numbers. by rewrite Ha, Hs. Qed.

Lemma element_numbers_strict (g : @Grid float) (o : Options) a :
  allow_missing o = false ->
  cell_arrays g !! "ansys_elem_num" = Some a -> -1 ∈ a ->
  element_numbers g o = Raise (Exception Minus_one_in_elem_num).
Proof.
  intros Hs Ha Hin. unfold element_numbers. rewrite Ha.
  cbn [mbind result_bind].
  apply np_any_eq_elem_of in Hin. by rewrite Hin, Hs.
Qed.

(** With [allow_missing] off, a [-1] among the node numbers, an absent
    element-number array and a [-1] among the element numbers each end the
    call before the file is opened. *)
Lemma unassigned_ids_are_rejected (g : @Grid float) (o : Options) :
  allow_missing o = false ->
  (exists a, point_arrays g !! "ansys_node_num" = Some a /\ -1 ∈ a) \/
  cell_arrays g !! "ansys_elem_num" = None \/
  (exists a, cell_arrays g !! "ansys_elem_num" = Some a /\ -1 ∈ a) ->
  exists e, save_as_archive fmt_E uninit g o = NotOpened e.
Proof.
  intros Hs Hcases. unfold save_as_archive, prepare.
  destruct Hcases as [(a & Ha & Hin)|Hcases].
  { rewrite (node_numbers_strict g o a Hs Ha Hin). by eexists. }
  destruct (node_numbers g o) as [nodenum|e]; cbn [mbind result_bind];
    [|by eexists].
  destruct Hcases as [Ha|(a & Ha & Hin)].
  - rewrite (element_numbers_strict_absent g o Hs Ha). by eexists.
  - rewrite (element_numbers_strict g o a Hs Ha Hin). by eexists.
Qed.

Lemma foldr_max_ge (l : list Z) y :
  y <= foldr Z.max y l /\ forall x, x ∈ l -> x <= foldr Z.max y l.
Proof.
  induction l as [|z l [IHy IHl]]; simpl.
  - split; [lia|]. intros x Hx. by apply elem_of_nil in Hx.
  - split; [lia|]. intros x [->|Hx]%elem_of_cons; [lia|].
    specialize (IHl x Hx). lia.
Qed.

Lemma np_max_ge l mx : np_max l = Ok mx -> forall x, x ∈ l -> x <= mx.
Proof.
  destruct l as [|y l]; [done|]. simpl. intros [= <-] x Hx.
  destruct (foldr_max_ge l y) as [Hy Hl].
  apply elem_of_cons in Hx as [->|Hx]; [done|by apply Hl].
Qed.

Lemma np_max_elem_of l mx : np_max l = Ok mx -> mx ∈ l.
Proof.
  destruct l as [|y l]; [done|]. simpl. intros [= <-].
  induction l as [|z l IH]; simpl; [by left|].
  destruct (Z.max_spec z (foldr Z.max y l)) as [[_ ->]|[_ ->]].
  - apply elem_of_cons in IH as [->|IH]; [by left|]. right. by right.
  - right. by left.
Qed.

Lemma fmap_wrap_id bits (l : list Z) :
  0 < bits -> Forall (in_range bits) l -> wrap bits <$> l = l.
Proof.
  intros Hb Hl. induction Hl as [|x l Hx _ IH]; [done|].
  rewrite fmap_cons, IH. by rewrite wrap_id.
Qed.

Lemma pow2_le_63 bits : 0 < bits <= 64 -> 0 < 2 ^ (bits - 1) <= 2 ^ 63.
Proof.
  intros Hb. split; [apply pow2_half_pos; lia|].
  apply Z.pow_le_mono_r; lia.
Qed.

(** With [allow_missing] on, the [-1] entries of an id array take the
    numbers [first], [first + 1], ... in order, where [first] is one above
    the largest given id, or the configured start value when that is
    larger; the other entries keep their ids, all below [first].  This
    holds as long as the new numbers fit the integer type of the array. *)
Lemma renumber_missing_spec (bits : Z) (num : list Z) (num_start : Z) :
  num <> [] -> renumber_fits bits num num_start ->
  exists mx num',
    np_max num = Ok mx /\
    renumber_missing bits num num_start = Ok num' /\
    length num' = length num /\
    let first := Z.max (mx + 1) num_start in
    forall p x, num !! p = Some x ->
      (x <= mx) /\
      num' !! p = Some (if x =? -1
                        then first + Z.of_nat (np_count (take p (np_eq num (-1))))
                        else x).
Proof.
  intros Hne (Hb & Hnum & Hstart). destruct (np_max num) as [mx|] eqn:Hmx;
    [|by destruct num].
  exists mx. eexists. split; [done|].
  pose proof (pow2_le_63 bits Hb) as Hpow.
  set (k := Z.of_nat (np_count (np_eq num (-1)))) in *.
  assert (- 2 ^ (bits - 1) <= mx /\ mx + 1 + k < 2 ^ (bits - 1)) as Hmxr.
  { rewrite Forall_forall in Hnum. by apply Hnum, np_max_elem_of. }
  unfold renumber_missing. rewrite Hmx. cbn [mbind result_bind].
  rewrite (wrap_id 64 (mx + 1)) by (unfold in_range; simpl; lia).
  replace (if mx + 1 <? num_start then num_start else mx + 1)
    with (Z.max (mx + 1) num_start)
    by (destruct (Z.ltb_spec (mx + 1) num_start); lia).
  set (first := Z.max (mx + 1) num_start). fold k.
  rewrite (wrap_id 64 (first + k)) by (unfold in_range; simpl; lia).
  rewrite fmap_wrap_id; [|lia|].
  2:{ apply Forall_forall. intros v Hv%elem_of_np_arange. unfold in_range. lia. }
  unfold mask_assign.
  rewrite decide_True by apply length_np_eq.
  rewrite decide_True by (rewrite length_np_arange; lia).
  split; [done|]. split; [apply length_mask_scatter|].
  intros p x Hp. split; [eapply np_max_ge; [done|by eapply list_elem_of_lookup_2]|].
  rewrite mask_scatter_lookup;
    [|apply length_np_eq|rewrite length_np_arange; lia].
  unfold np_eq at 1. rewrite list_lookup_fmap, Hp. simpl.
  destruct (Z.eqb_spec x (-1)) as [->|Hx]; [|done].
  rewrite np_arange_lookup; [done|].
  assert (np_eq num (-1) !! p = Some true) as Hm
    by (unfold np_eq; rewrite list_lookup_fmap, Hp; done).
  pose proof (np_count_take_lt _ _ Hm). lia.
Qed.

(** Past the largest value of the type the stored number wraps: in an
    [int32] array holding the largest [int32], the [-1] becomes the
    smallest [int32]. *)
Example renumber_missing_wraps :
  renumber_missing 32 [2147483647; -1] 1 = Ok [2147483647; -2147483648].
Proof. vm_compute. reflexivity. Qed.

End ArchiveFacts.

(** ** The node block *)

Lemma key_le_total : Total key_le.
Proof. intros [a i] [b j]. unfold key_le. simpl. lia. Qed.

Lemma key_le_fst a b : key_le a b -> a.1 <= b.1.
Proof. unfold key_le. lia. Qed.

Lemma argsort_pairs_lookup l v k :
  (v, k) ∈ argsort_pairs l -> l !! k = Some v.
Proof.
  unfold argsort_pairs. rewrite merge_sort_Permutation.
  intros [i Hi]%list_elem_of_lookup_1.
  apply lookup_zip_Some in Hi as [Hv Hk].
  apply lookup_seq in Hk as [-> _]. done.
Qed.

Lemma argsort_indices_Permutation l :
  (argsort_pairs l).*2 ≡ₚ seq 0 (length l).
Proof.
  unfold argsort_pairs. rewrite merge_sort_Permutation.
  rewrite snd_zip; [done|]. by rewrite length_seq.
Qed.

Lemma np_argsort_pairs l :
  np_argsort l = Z.of_nat <$> (argsort_pairs l).*2.
Proof. unfold np_argsort. by rewrite <- list_fmap_compose. Qed.

Lemma np_take_indices {A} (a : list A) (idx : list nat) :
  (forall i, i ∈ idx -> (i < length a)%nat) ->
  np_take a (Z.of_nat <$> idx) = Ok (omap (fun i => a !! i) idx) /\
  length (omap (fun i => a !! i) idx) = length idx.
Proof.
  unfold np_take. induction idx as [|i idx IH]; intros Hin; [done|].
  destruct (lookup_lt_is_Some_2 a i) as [x Hx]; [apply Hin; left|].
  destruct IH as [IH1 IH2]; [intros j Hj; apply Hin; by right|].
  rewrite fmap_cons. cbn [mapM_result].
  rewrite (py_index_lookup _ _ _ Hx). cbn [mbind result_bind].
  rewrite IH1. cbn [mbind result_bind].
  change (omap (fun i => a !! i) (i :: idx))
    with (match a !! i with
          | Some y => y :: omap (fun i => a !! i) idx
          | None => omap (fun i => a !! i) idx
          end).
  rewrite Hx. split; [done|]. simpl. by rewrite IH2.
Qed.

Lemma argsort_pairs_sorted l : Sorted Z.le (argsort_pairs l).*1.
Proof.
  apply (Sorted_fmap _ key_le); [intros x y; apply key_le_fst|].
  apply (Sorted_merge_sort key_le (Total0 := key_le_total)).
Qed.

Lemma omap_lookup_fst l :
  omap (fun i => l !! i) (argsort_pairs l).*2 = (argsort_pairs l).*1.
Proof.
  pose proof (argsort_pairs_lookup l) as Hl.
  induction (argsort_pairs l) as [|[v k] s IH]; [done|].
  rewrite !fmap_cons. cbn [fst snd].
  change (omap (fun i => l !! i) (k :: s.*2))
    with (match l !! k with
          | Some y => y :: omap (fun i => l !! i) s.*2
          | None => omap (fun i => l !! i) s.*2
          end).
  rewrite (Hl v k) by left. simpl. f_equal. apply IH.
  intros v' k' H. apply Hl. by right.
Qed.

Section NodeBlock.
Context {float : Type}.

Lemma zip_with_omap_rows (node_id : list Z) (pos : list (@point float)) idx :
  (forall i, i ∈ idx -> (i < length node_id)%nat /\ (i < length pos)%nat) ->
  zip_with (fun id p => (id, coords p))
           (omap (fun i => node_id !! i) idx) (omap (fun i => pos !! i) idx)
  = omap (input_row node_id pos) idx.
Proof.
  induction idx as [|i idx IH]; intros Hin; [done|].
  destruct (Hin i) as [H1 H2]; [left|].
  destruct (lookup_lt_is_Some_2 node_id i H1) as [x Hx].
  destruct (lookup_lt_is_Some_2 pos i H2) as [p Hp].
  change (omap (fun i => node_id !! i) (i :: idx))
    with (match node_id !! i with
          | Some y => y :: omap (fun i => node_id !! i) idx
          | None => omap (fun i => node_id !! i) idx
          end).
  change (omap (fun i => pos !! i) (i :: idx))
    with (match pos !! i with
          | Some y => y :: omap (fun i => pos !! i) idx
          | None => omap (fun i => pos !! i) idx
          end).
  change (omap (input_row node_id pos) (i :: idx))
    with (match input_row node_id pos i with
          | Some y => y :: omap (input_row node_id pos) idx
          | None => omap (input_row node_id pos) idx
          end).
  unfold input_row at 1. rewrite Hx, Hp. simpl. f_equal.
  apply IH. intros j Hj. apply Hin. by right.
Qed.

Lemma input_rows_seq (node_id : list Z) (pos : list (@point float)) :
  length pos = length node_id ->
  omap (input_row node_id pos) (seq 0 (length node_id))
  = zip_with (fun id p => (id, coords p)) node_id pos.
Proof.
  revert pos. induction node_id as [|x l IH]; intros [|p ps] Hlen;
    simpl in Hlen; try done.
  cbn [length seq zip_with].
  change (omap (input_row (x :: l) (p :: ps)) (0%nat :: seq 1 (length l)))
    with ((x, coords p) :: omap (input_row (x :: l) (p :: ps)) (seq 1 (length l))).
  f_equal. rewrite <- IH by lia. rewrite <- fmap_S_seq.
  generalize (seq 0 (length l)). intros s.
  induction s as [|i s IHs]; [done|].
  rewrite fmap_cons.
  change (omap (input_row (x :: l) (p :: ps)) (S i :: (S <$> s)))
    with (match input_row l ps i with
          | Some y => y :: omap (input_row (x :: l) (p :: ps)) (S <$> s)
          | None => omap (input_row (x :: l) (p :: ps)) (S <$> s)
          end).
  change (omap (input_row l ps) (i :: s))
    with (match input_row l ps i with
          | Some y => y :: omap (input_row l ps) s
          | None => omap (input_row l ps) s
          end).
  by rewrite IHs.
Qed.

(** Without angles, [write_nblock] writes the input rows in ascending order
    of node id: the table handed to [np.savetxt] is a permutation of the
    rows (id, position) of the input, sorted by id. *)
Lemma nblock_table_sorted (node_id : list Z) (pos : list (@point float)) :
  length pos = length node_id ->
  exists rows,
    nblock_table node_id pos None = Ok rows /\
    Sorted Z.le rows.*1 /\
    rows ≡ₚ zip_with (fun id p => (id, coords p)) node_id pos.
Proof.
  intros Hlen. unfold nblock_table. rewrite np_argsort_pairs.
  assert (forall i, i ∈ (argsort_pairs node_id).*2 ->
                    (i < length node_id)%nat) as Hrange.
  { intros i Hi. rewrite argsort_indices_Permutation in Hi.
    apply elem_of_seq in Hi. lia. }
  destruct (np_take_indices node_id _ Hrange) as [-> Hl1].
  cbn [mbind result_bind].
  destruct (np_take_indices pos (argsort_pairs node_id).*2) as [-> Hl2];
    [intros i Hi; rewrite Hlen; by apply Hrange|].
  cbn [mbind result_bind]. eexists. split; [done|]. split.
  - rewrite fmap_zip_with_l; [|done|lia].
    rewrite omap_lookup_fst. apply argsort_pairs_sorted.
  - rewrite zip_with_omap_rows.
    + rewrite <- input_rows_seq by done.
      apply omap_Permutation, argsort_indices_Permutation.
    + intros i Hi. specialize (Hrange i Hi). lia.
Qed.

End NodeBlock.

(** ** The merge of the synthesized midside nodes *)

Section MidsideFacts.
Context {float : Type} `{EqDecision float}.
Context (void_le : relation (@point float)) `{!RelDecision void_le}.
Context (zero : float).
Context (reset_midside :
  list Z -> list Z -> list Z -> list (@point float) -> list (@point float)).

Lemma unique_rows_spec (a : list (@point float)) :
  exists u idxA idxB,
    unique_rows void_le a = Ok (u, idxA, idxB) /\
    NoDup u /\ (forall r, r ∈ u <-> r ∈ a) /\
    length idxA = length u /\ length idxB = length a /\
    (forall k r, a !! k = Some r ->
       exists j, idxB !! k = Some (Z.of_nat j) /\ u !! j = Some r).
Proof.
  set (u := merge_sort void_le (remove_dups a)).
  assert (forall r, r ∈ u <-> r ∈ a) as Hmem.
  { intros r. unfold u. rewrite merge_sort_Permutation. apply elem_of_remove_dups. }
  assert (NoDup u) as Hnd.
  { unfold u. rewrite merge_sort_Permutation. apply NoDup_remove_dups. }
  pose proof (omap_first_index u a (fun x Hx => proj1 (Hmem x) Hx)) as HA.
  pose proof (omap_first_index a u (fun x Hx => proj2 (Hmem x) Hx)) as HB.
  exists u, (omap (fun r => first_index r a) u), (omap (fun r => first_index r u) a).
  split; [|split; [done|split; [done|split; [|split]]]].
  - unfold unique_rows, np_unique_rows. fold u.
    rewrite (np_take_Forall2 _ _ _ HA). done.
  - symmetry. by eapply Forall2_length.
  - symmetry. by eapply Forall2_length.
  - intros k r Hk.
    destruct (Forall2_lookup_l _ _ _ _ _ HB Hk) as (j & Hj & (i & -> & Hi)).
    by exists i.
Qed.

Hypothesis reset_midside_shape :
  forall cells cell_type offset nodes,
    length (reset_midside cells cell_type offset nodes) = length nodes.

Lemma set_head_ok {A} n (dst vals : list A) :
  length vals = n -> (n <= length dst)%nat ->
  set_head n dst vals = Ok (vals ++ drop n dst).
Proof.
  intros Hv Hn. unfold set_head. rewrite decide_True; [done|].
  rewrite length_take. lia.
Qed.

Lemma set_tail_ok {A} n (dst vals : list A) :
  (length vals + n = length dst)%nat ->
  set_tail n dst vals = Ok (take n dst ++ vals).
Proof.
  intros Hv. unfold set_tail. rewrite decide_True; [done|].
  rewrite length_drop. lia.
Qed.

Lemma mask_assign_ok {A} (a : list A) m vals :
  length m = length a -> length vals = np_count m ->
  mask_assign a m vals = Ok (mask_scatter a m vals).
Proof. intros Hm Hv. unfold mask_assign. by rewrite !decide_True. Qed.

Lemma midside_candidates_spec (raw : Raw) (parsed : Parsed) :
  parsed_numref parsed <> [] ->
  exists maxnum cells1 cand,
    midside_candidates zero reset_midside raw parsed
    = Ok (np_eq (parsed_cells parsed) (-1), maxnum, cells1, cand) /\
    np_max (parsed_numref parsed) = Ok (maxnum - 1) /\
    cells1 = mask_scatter (parsed_cells parsed) (np_eq (parsed_cells parsed) (-1))
               (np_arange maxnum
                  (maxnum + Z.of_nat (np_count (np_eq (parsed_cells parsed) (-1))))) /\
    length cand = np_count (np_eq (parsed_cells parsed) (-1)).
Proof.
  intros Hnum. unfold midside_candidates.
  destruct (parsed_numref parsed) as [|x l] eqn:E; [done|].
  set (mask := np_eq (parsed_cells parsed) (-1)).
  set (mx := foldr Z.max x l).
  cbn [np_max mbind result_bind]. fold mx.
  set (maxnum := mx + 1).
  rewrite mask_assign_ok;
    [|apply length_np_eq|rewrite length_np_arange; lia].
  cbn [mbind result_bind].
  set (cells1 := mask_scatter _ _ _).
  set (nnodes := length (raw_nodes raw)).
  rewrite set_head_ok;
    [|by rewrite length_fmap|rewrite length_replicate; lia].
  cbn [mbind result_bind].
  set (nodes := (raw_nodes raw).*1 ++ _).
  assert (length nodes = (nnodes + np_count mask)%nat) as Hnodes.
  { unfold nodes. rewrite length_app, length_fmap, length_drop, length_replicate.
    fold nnodes. lia. }
  set (temp := reset_midside _ _ _ nodes).
  assert (length temp = length nodes) as Htemp by apply reset_midside_shape.
  rewrite set_tail_ok; [|rewrite length_drop; lia].
  cbn [mbind result_bind].
  exists maxnum, cells1, (drop nnodes temp).
  split; [done|]. split; [f_equal; unfold maxnum; lia|]. split; [done|].
  rewrite length_drop. lia.
Qed.

Lemma forallb_unresolved (cells : list Z) :
  -1 ∈ cells -> forallb (fun c => negb (c =? -1)) cells = false.
Proof.
  intros Hin. apply not_true_is_false. intros Hall.
  rewrite forallb_forall in Hall. apply list_elem_of_In, Hall in Hin. done.
Qed.



End MidsideFacts.

(** The tetrahedron of [one_tet], on the nodes 11, 12, 13, 14. *)
Lemma tetra_record_witness :
  to_archive_slots tetra_slots [11; 12; 13; 14]
  = Ok [11; 12; 13; 13; 14; 14; 14; 14] /\
  eblock_line one_tet prepared_tet 0
  = Ok (str_concat (fmt_d 8 <$> [1; 3; 1; 1; 0; 0; 0; 0; 8; 0; 5])
        +:+ str_concat (fmt_d 8 <$> [11; 12; 13; 13; 14; 14; 14; 14]) +:+ nl) /\
  from_archive_slots tetra_slots 4 [11; 12; 13; 13; 14; 14; 14; 14]
  = Some [11; 12; 13; 14].
Proof.
  apply (tetra_record one_tet prepared_tet 0 0 4 11 12 13 14 1 3 1 8 5);
    reflexivity.
Defined.

Example save_one_tet :
  save_as_archive id stale_memory one_tet default_options
  = Completed (str_join nl [
      "/PREP7";
      "ET, 3, 185";
      "ET, 1, 186";
      "ET, 2, 187";
      "/PREP7 ";
      "NBLOCK,6,SOLID,        14,         4";
      "(3i8,6e20.13)";
      "      11       0       0 0.0000000000000E+00 0.0000000000000E+00 0.0000000000000E+00";
      "      12       0       0 1.0000000000000E+00 0.0000000000000E+00 0.0000000000000E+00";
      "      13       0       0 0.0000000000000E+00 1.0000000000000E+00 0.0000000000000E+00";
      "      14       0       0 0.0000000000000E+00 0.0000000000000E+00 1.0000000000000E+00";
      "N,R5.3,LOC,       -1, ";
      "";
      "EBLOCK,19,SOLID,         5,         1";
      "(19i8)";
      "       1       3       1       1       0       0       0       0       8       0       5      11      12      13      13      14      14      14      14";
      "      -1";
      ""]).
Proof. vm_compute. reflexivity. Qed.

(** C4.  The element ids of [two_tets] are 2 and 1: the fourth field of the
    EBLOCK header is the last id, 1, and not the largest, 2; the line
    [(19i8)] follows the header. *)
Theorem eblock_header_carries_last_id :
  np_max [2; 1] = Ok 2 /\
  save_as_archive id stale_memory two_tets default_options
  = Completed (str_join nl [
      "/PREP7";
      "ET, 3, 185";
      "ET, 1, 186";
      "ET, 2, 187";
      "/PREP7 ";
      "NBLOCK,6,SOLID,         5,         5";
      "(3i8,6e20.13)";
      "       1       0       0 0.0000000000000E+00 0.0000000000000E+00 0.0000000000000E+00";
      "       2       0       0 1.0000000000000E+00 0.0000000000000E+00 0.0000000000000E+00";
      "       3       0       0 0.0000000000000E+00 1.0000000000000E+00 0.0000000000000E+00";
      "       4       0       0 0.0000000000000E+00 0.0000000000000E+00 1.0000000000000E+00";
      "       5       0       0 1.0000000000000E+00 1.0000000000000E+00 1.0000000000000E+00";
      "N,R5.3,LOC,       -1, ";
      "";
      "EBLOCK,19,SOLID,         1,         2";
      "(19i8)";
      "       1       3       1       1       0       0       0       0       8       0       2       1       2       3       3       4       4       4       4";
      "       2       3       2       1       0       0       0       0       8       0       1       2       3       4       4       5       5       5       5";
      "      -1";
      ""]).
Proof. split; vm_compute; reflexivity. Qed.

(** C7.  [unnumbered_tet] has no node-number array and [allow_missing] is
    off: the call does not fail, it completes with the default node
    numbers 1..4. *)
Theorem absent_node_numbers_are_accepted :
  point_arrays unnumbered_tet !! "ansys_node_num" = None /\
  allow_missing strict_options = false /\
  save_as_archive id stale_memory unnumbered_tet strict_options
  = Completed (str_join nl [
      "/PREP7";
      "ET, 1, 185";
      "/PREP7 ";
      "NBLOCK,6,SOLID,         4,         4";
      "(3i8,6e20.13)";
      "       1       0       0 0.0000000000000E+00 0.0000000000000E+00 0.0000000000000E+00";
      "       2       0       0 1.0000000000000E+00 0.0000000000000E+00 0.0000000000000E+00";
      "       3       0       0 0.0000000000000E+00 1.0000000000000E+00 0.0000000000000E+00";
      "       4       0       0 0.0000000000000E+00 0.0000000000000E+00 1.0000000000000E+00";
      "N,R5.3,LOC,       -1, ";
      "";
      "EBLOCK,19,SOLID,         1,         1";
      "(19i8)";
      "       1       1       1       1       0       0       0       0       8       0       1       1       2       3       3       4       4       4       4";
      "      -1";
      ""]).
Proof. repeat split; vm_compute; reflexivity. Qed.

(** C5.  Node 2 is given first, with position [("x2","y2","z2")] and angles
    [("a2","b2","c2")].  The rows come out in id order with the positions
    moved along, and the angles left in input order. *)
Theorem nblock_angles_stay_in_input_order :
  nblock_table [2; 1]
    [("x2", "y2", "z2"); ("x1", "y1", "z1")]
    (Some [("a2", "b2", "c2"); ("a1", "b1", "c1")])
  = Ok [(1, ["x1"; "y1"; "z1"; "a2"; "b2"; "c2"]);
        (2, ["x2"; "y2"; "z2"; "a1"; "b1"; "c1"])].
Proof. vm_compute. reflexivity. Qed.

Lemma shared_edge_reset_shape cells cell_type offset nodes :
  length (shared_edge_reset cells cell_type offset nodes) = length nodes.
Proof.
  unfold shared_edge_reset.
  rewrite length_app, length_take, length_fmap, length_drop. lia.
Qed.



Example shared_edge_mesh :
  raw_to_grid triple_le 0 shared_edge_reset shared_edge_raw
    shared_edge_parsed false
  = Ok {| mesh_cells := [3; 0; 1; 2; 3; 1; 0; 2];
          mesh_nodes := [(0, 0, 0); (2, 0, 0); (1, 0, 0)];
          mesh_angles := [(0, 0, 0); (0, 0, 0); (0, 0, 0)];
          mesh_nnum := [10; 20; -1] |}.
Proof. vm_compute. reflexivity. Qed.

(** The second cell of [tet_and_unknown] has type 99. *)
Lemma unsupported_cell_is_terminal_witness :
  (forall p,
     eblock_line tet_and_unknown p (Z.of_nat 1)
     = Raise (Exception (Invalid_write_cell_type 99)) \/
     eblock_line tet_and_unknown p (Z.of_nat 1) = Raise IndexError) /\
  (forall written,
     save_as_archive id stale_memory tet_and_unknown default_options
     <> Completed written).
Proof.
  apply (unsupported_cell_is_terminal id stale_memory tet_and_unknown
           default_options 1 99).
  - reflexivity.
  - apply (bool_decide_unpack (99 ∉ supported_celltypes)). vm_compute. exact I.
Defined.

(** The records before the unsupported cell stay in the file. *)
Example save_tet_and_unknown :
  save_as_archive id stale_memory tet_and_unknown default_options
  = Aborted (str_join nl [
      "/PREP7";
      "ET, 3, 185";
      "ET, 1, 186";
      "ET, 2, 187";
      "/PREP7 ";
      "NBLOCK,6,SOLID,         6,         4";
      "(3i8,6e20.13)";
      "       2       0       0 0.0000000000000E+00 1.0000000000000E+00 0.0000000000000E+00";
      "       4       0       0 0.0000000000000E+00 0.0000000000000E+00 0.0000000000000E+00";
      "       5       0       0 1.0000000000000E+00 0.0000000000000E+00 0.0000000000000E+00";
      "       6       0       0 0.0000000000000E+00 0.0000000000000E+00 1.0000000000000E+00";
      "N,R5.3,LOC,       -1, ";
      "";
      "EBLOCK,19,SOLID,         7,         2";
      "(19i8)";
      "       1       3       1       1       0       0       0       0       8       0       8       4       5       2       2       6       6       6       6";
      ""])
      (Exception (Invalid_write_cell_type 99)).
Proof. vm_compute. reflexivity. Qed.

Example write_cmblock_text :
  write_cmblock 64 [1; 2; 3; 5; 7; 8; 9] "comp" "node" 10
  = Ok (str_join nl [
      "CMBLOCK,COMP,NODE,       5  ! from pyansys";
      "(8i10)";
      "         1        -3         5         7        -9";
      ""]).
Proof. vm_compute. reflexivity. Qed.

Example cmblock_decode_examples :
  cmblock_decode [1; -3; 5; 7; -9] = Some [1; 2; 3; 5; 7; 8; 9] /\
  cmblock_decode [4] = Some [4] /\
  cmblock_decode [1; -3; -5] = None.
Proof. repeat split; vm_compute; reflexivity. Qed.

(** ** [chunks] *)

Lemma chunks_fuel_spec {A} (n : nat) :
  (0 < n)%nat ->
  forall fuel (l : list A), (length l <= fuel)%nat ->
    concat (chunks_fuel fuel l n) = l /\
    length (chunks_fuel fuel l n) = ((length l + n - 1) / n)%nat /\
    forall i c, chunks_fuel fuel l n !! i = Some c ->
                c = take n (drop (i * n) l) /\ c <> [].
Proof.
  intros Hn.
  assert (forall fuel, @chunks_fuel A fuel [] n = []) as Hnil by (by intros []).
  assert (((0 + n - 1) / n)%nat = 0%nat) as Hz by (apply Nat.div_small; lia).
  induction fuel as [|fuel IH]; intros l Hl.
  - destruct l; [|simpl in Hl; lia]. rewrite Hnil. simpl length. by rewrite Hz.
  - destruct l as [|x l]; [rewrite Hnil; simpl length; by rewrite Hz|].
    change (chunks_fuel (S fuel) (x :: l) n)
      with (take n (x :: l) :: chunks_fuel fuel (drop n (x :: l)) n).
    destruct (IH (drop n (x :: l))) as (H1 & H2 & H3).
    { rewrite length_drop. simpl in *. lia. }
    split; [|split].
    + simpl concat. rewrite H1. apply take_drop.
    + simpl length at 1. rewrite H2, length_drop.
      set (L := length (x :: l)). assert (1 <= L)%nat by (unfold L; simpl; lia).
      destruct (decide (L <= n)%nat) as [Hle|Hgt].
      * replace (L - n)%nat with 0%nat by lia. rewrite Hz.
        apply (Nat.div_unique _ _ 1 (L - 1)); lia.
      * replace (L + n - 1)%nat with ((L - n + n - 1) + 1 * n)%nat by lia.
        rewrite Nat.div_add by lia. lia.
    + intros [|i] c.
      * simpl. intros [= <-]. split; [done|]. destruct n; [lia|done].
      * intros Hc. change ((?a :: ?b) !! S i) with (b !! i) in Hc.
        apply H3 in Hc as [-> Hne]. split; [|done].
        rewrite drop_drop. do 2 f_equal; lia.
Qed.

(** X1.  For a positive chunk size [n], [chunks l n] cuts [l] into
    consecutive pieces: the pieces put together give [l] back, there are
    [ceil (len l / n)] of them, and piece [i] is the slice
    [l[i * n : i * n + n]], which is never empty. *)
Theorem chunks_partition {A} (l : list A) (n : nat) :
  (0 < n)%nat ->
  concat (chunks l n) = l /\
  length (chunks l n) = ((length l + n - 1) / n)%nat /\
  forall i c, chunks l n !! i = Some c ->
              c = take n (drop (i * n) l) /\ c <> [] /\ (length c <= n)%nat.
Proof.
  intros Hn. destruct (chunks_fuel_spec n Hn (length l) l) as (H1 & H2 & H3); [done|].
  split; [done|]. split; [done|]. intros i c Hc.
  destruct (H3 i c Hc) as [-> Hne]. split; [done|]. split; [done|].
  rewrite length_take. lia.
Qed.

(** ** The size of the CMBLOCK token list *)

Lemma cmblock_compact_init p : 0 < p -> cmblock_compact [] p [p].
Proof.
  intros Hp. unfold cmblock_compact. simpl. split_and!; try done.
  apply Forall_singleton. rewrite Z.abs_eq by lia. by left.
Qed.

Lemma last_snoc_ne {A} (l : list A) x y : x <> y -> last (l ++ [x]) <> Some y.
Proof. rewrite last_snoc. congruence. Qed.

Lemma Forall_abs_weaken pre p x (toprint : list Z) :
  Forall (fun t => Z.abs t ∈ pre ++ [p]) toprint ->
  Forall (fun t => Z.abs t ∈ (pre ++ [p]) ++ [x]) toprint.
Proof.
  intros H. eapply Forall_impl; [exact H|].
  intros t Ht. apply elem_of_app. by left.
Qed.

Lemma head_snoc_ne {A} (l : list A) x : l <> [] -> head (l ++ [x]) = head l.
Proof. by destruct l. Qed.

Lemma head_app_ne {A} (l k : list A) : l <> [] -> head (l ++ k) = head l.
Proof. by destruct l. Qed.

(** One more consecutive id: nothing is printed. *)
Lemma cmblock_compact_extend pre p x toprint :
  cmblock_compact pre p toprint -> x = p + 1 ->
  cmblock_compact (pre ++ [p]) x toprint.
Proof.
  intros (Hlen & Hall & Hhd & Hlast) ->. unfold cmblock_compact.
  rewrite last_snoc, length_app. simpl length.
  rewrite decide_True by (f_equal; lia).
  split; [destruct (decide _); lia|]. split; [by apply Forall_abs_weaken|].
  split; [|intros H; exfalso; apply H; f_equal; lia].
  rewrite Hhd. symmetry. apply head_app_ne. by destruct pre.
Qed.

(** A gap: one token after a single id, two after a run. *)
Lemma cmblock_compact_gap pre p x toprint :
  cmblock_compact pre p toprint -> 0 < p < x -> x <> p + 1 ->
  cmblock_compact (pre ++ [p]) x
    (if decide (last pre = Some (p - 1)) then toprint ++ [- p; x]
     else toprint ++ [x]).
Proof.
  intros (Hlen & Hall & Hhd & Hlast) Hpx Hgap. unfold cmblock_compact.
  assert (toprint <> []) as Hne.
  { intros ->. destruct pre; simpl in Hhd; done. }
  rewrite last_snoc, (length_app pre). simpl length.
  rewrite (decide_False (P := Some p = Some (x - 1))) by (intros [=]; lia).
  assert (Z.abs x ∈ (pre ++ [p]) ++ [x]) as Hx.
  { rewrite Z.abs_eq by lia. apply elem_of_app. right. by left. }
  assert (Z.abs (- p) ∈ (pre ++ [p]) ++ [x]) as Hp.
  { rewrite Z.abs_opp, Z.abs_eq by lia. apply elem_of_app. left.
    apply elem_of_app. right. by left. }
  assert (head ((pre ++ [p]) ++ [x]) = head (pre ++ [p])) as Hh
    by (apply head_app_ne; by destruct pre).
  destruct (decide (last pre = Some (p - 1))) as [Hrun|Hnorun].
  - rewrite length_app. simpl length. split; [lia|].
    split; [apply Forall_app; split; [by apply Forall_abs_weaken|by repeat constructor]|].
    split; [by rewrite head_app_ne, Hh|].
    intros _. replace (toprint ++ [- p; x]) with ((toprint ++ [- p]) ++ [x])
      by (by rewrite <- app_assoc). apply last_snoc.
  - rewrite length_app. simpl length. split; [lia|].
    split; [apply Forall_app; split; [by apply Forall_abs_weaken|by repeat constructor]|].
    split; [by rewrite head_app_ne, Hh|].
    intros _. apply last_snoc.
Qed.

Lemma cmblock_loop_compact bits rest : forall pre p toprint i0,
  0 < bits ->
  strictly_ascending (pre ++ p :: rest) ->
  positive_ids bits (pre ++ p :: rest) ->
  cmblock_compact pre p toprint ->
  exists toprint' pre' p',
    foldM (cmblock_step bits (pre ++ p :: rest)) (toprint, i0)
          (enumerate_from (len pre) (np_diff bits (p :: rest)))
    = Ok (toprint', match rest with
                    | [] => i0
                    | _ => Some (len (pre ++ p :: rest) - 2)
                    end) /\
    pre ++ p :: rest = pre' ++ [p'] /\ cmblock_compact pre' p' toprint'.
Proof.
  induction rest as [|x rest IH]; intros pre p toprint i0 Hb Hasc Hids Hinv.
  - exists toprint, pre, p. by simpl.
  - assert (p < x) as Hpx.
    { apply StronglySorted_app_1_r in Hasc. inversion Hasc as [|? ? _ Hall]; subst.
      by inversion Hall. }
    unfold positive_ids in Hids. rewrite Forall_forall in Hids.
    assert (0 < p < 2 ^ (bits - 1)) as Hp by (apply Hids; elem_solve).
    assert (0 < x < 2 ^ (bits - 1)) as Hx by (apply Hids; elem_solve).
    assert (forall tp1, cmblock_compact (pre ++ [p]) x tp1 ->
      exists toprint' pre' p',
        foldM (cmblock_step bits (pre ++ p :: x :: rest)) (tp1, Some (len pre))
              (enumerate_from (len pre + 1) (np_diff bits (x :: rest)))
        = Ok (toprint', Some (len (pre ++ p :: x :: rest) - 2)) /\
        pre ++ p :: x :: rest = pre' ++ [p'] /\ cmblock_compact pre' p' toprint')
      as Hnext.
    { intros tp1 Hinv1.
      destruct (IH (pre ++ [p]) x tp1 (Some (len pre)))
        as (t' & pre' & p' & Hf & Heq & Hi).
      - done.
      - by rewrite <- app_assoc.
      - unfold positive_ids. rewrite Forall_forall, <- app_assoc. exact Hids.
      - done.
      - exists t', pre', p'. rewrite <- app_assoc in Hf, Heq. simpl in Hf, Heq.
        replace (len (pre ++ [p])) with (len pre + 1) in Hf
          by (rewrite len_app, len_cons; unfold len; simpl; lia).
        split; [|done]. rewrite Hf. do 2 f_equal.
        destruct rest; [|done].
        f_equal. rewrite len_app, !len_cons. unfold len; simpl; lia. }
    change (np_diff bits (p :: x :: rest))
      with (wrap bits (x - p) :: np_diff bits (x :: rest)).
    rewrite (wrap_id bits (x - p)) by (done || unfold in_range; lia).
    cbn [enumerate_from foldM].
    destruct (decide (x - p = 1)) as [Hone|Hgap].
    + rewrite Hone, cmblock_step_run. cbn [mbind result_bind]. apply Hnext.
      apply cmblock_compact_extend; [done|lia].
    + pose proof (cmblock_compact_gap pre p x toprint Hinv) as Hstep.
      destruct (last pre) as [q|] eqn:Hlast.
      * assert (0 < q < p) as Hq.
        { pose proof Hlast as [pre0 Hpre]%last_Some. split.
          - apply Hids. subst pre. elem_solve.
          - apply (StronglySorted_app_1_elem_of _ _ _ _ _ Hasc); subst pre;
              elem_solve. }
        rewrite (cmblock_step_gap _ _ _ _ _ _ q p x Hgap);
          [|by apply py_index_before|apply py_index_mid|apply py_index_after].
        cbn [mbind result_bind]. apply Hnext.
        rewrite (wrap_id bits (q + 1)) by (done || unfold in_range; lia).
        rewrite (wrap_id bits (- p)) by (done || unfold in_range; lia).
        specialize (Hstep ltac:(lia) ltac:(lia)).
        destruct (Z.eqb_spec (q + 1) p) as [Hrun|Hnorun].
        -- rewrite decide_True in Hstep by (f_equal; lia). done.
        -- rewrite decide_False in Hstep by (intros [=]; lia). done.
      * apply last_None in Hlast. subst pre. simpl app in *.
        destruct (py_index_wrap p x rest Hasc) as (z & Hz & Hpz & Hzin).
        assert (0 < z < 2 ^ (bits - 1)) as Hzr by (apply Hids; right; exact Hzin).
        rewrite (cmblock_step_gap _ _ _ _ _ _ z p x Hgap);
          [|exact Hz|reflexivity|apply (py_index_after [])].
        cbn [mbind result_bind]. apply (Hnext _).
        destruct (Z.eqb_spec (wrap bits (z + 1)) p) as [Hrun|Hnorun].
        { exfalso. revert Hrun. apply wrap_succ_above; lia. }
        specialize (Hstep ltac:(lia) ltac:(lia)).
        rewrite decide_False in Hstep by done. done.
Qed.

(** X2.  On a non-empty, strictly ascending list [S] of positive ids the
    encoding step of [write_cmblock] returns a token list that is never
    longer than [S]: a run of consecutive ids costs two tokens and a single
    id one.  The list starts with the first id, and every token is an id of
    [S] or the negation of one. *)
Theorem cmblock_tokens_compact (bits : Z) (S : list Z) :
  0 < bits ->
  S <> [] -> strictly_ascending S -> positive_ids bits S ->
  exists toks,
    cmblock_encode bits S = Ok toks /\
    (0 < length toks <= length S)%nat /\
    head toks = head S /\
    Forall (fun t => Z.abs t ∈ S) toks.
Proof.
  intros Hb Hne Hasc Hpos. destruct S as [|p rest]; [done|].
  unfold cmblock_encode. rewrite (np_unique_ascending _ Hasc).
  change (py_index (p :: rest) 0) with (Ok p). cbn [mbind result_bind].
  assert (0 < p) as Hp by (inversion Hpos; lia).
  destruct (cmblock_loop_compact bits rest [] p [p] None Hb Hasc Hpos
              (cmblock_compact_init p Hp))
    as (toprint & pre' & p' & Hf & Heq & Hinv).
  simpl app in *. change (len []) with 0 in Hf. unfold enumerate. rewrite Hf.
  cbn [mbind result_bind].
  destruct Hinv as (Hlen & Hall & Hhd & Hlast).
  assert (toprint <> []) as Htne.
  { intros ->. destruct pre'; simpl in Hhd; done. }
  destruct (last toprint) as [t|] eqn:Ht; [|by apply last_None in Ht].
  pose proof Ht as [tp ->]%last_Some.
  rewrite py_index_last. cbn [mbind result_bind].
  unfold positive_ids in Hpos.
  assert (0 < p' < 2 ^ (bits - 1)) as Hp'.
  { rewrite Forall_forall in Hpos. apply Hpos. rewrite Heq. elem_solve. }
  rewrite Heq, py_index_last. cbn [mbind result_bind].
  rewrite Z.abs_eq by lia.
  rewrite (wrap_id bits p') by (done || unfold in_range; lia).
  assert (length (p :: rest) = S (length pre')) as Hn
    by (rewrite Heq, length_app; simpl; lia).
  rewrite length_app in Hlen. simpl length in Hlen.
  destruct (Z.eqb_spec t p') as [->|Htp]; cbn [negb].
  - exists (tp ++ [p']). split; [done|]. rewrite length_app, <- Heq, Hn.
    simpl length.
    split; [destruct (decide _); lia|]. split; [by rewrite Hhd, <- Heq|].
    by rewrite Heq.
  - assert (last pre' = Some (p' - 1)) as Hrun.
    { destruct (decide (last pre' = Some (p' - 1))) as [H|H]; [done|].
      apply Hlast in H. congruence. }
    rewrite decide_True in Hlen by done.
    destruct rest as [|x rest].
    { destruct pre'; [done|]. by destruct pre'. }
    rewrite <- Heq.
    replace (len (p :: x :: rest) - 2 + 1) with (-1 + len (pre' ++ [p']))
      by (rewrite Heq; lia).
    rewrite Heq.
    assert (py_index (pre' ++ [p']) (-1 + len (pre' ++ [p'])) = Ok p') as ->.
    { replace (-1 + len (pre' ++ [p'])) with (len pre')
        by (rewrite len_app, len_cons; unfold len; simpl; lia).
      apply py_index_mid. }
    cbn [mbind result_bind].
    rewrite (wrap_id bits (- p')) by (done || unfold in_range; lia).
    exists ((tp ++ [t]) ++ [- p']). split; [done|].
    rewrite <- Heq, !length_app, Hn. simpl length. split; [lia|].
    split; [rewrite head_app_ne by (by destruct tp); by rewrite Hhd, <- Heq|].
    rewrite Heq.
    apply Forall_app. split; [done|]. repeat constructor.
    rewrite Z.abs_opp, Z.abs_eq by lia. elem_solve.
Qed.

(** ** [np.unique] makes [write_cmblock] a function of the set of ids *)

Lemma np_unique_ext (l l' : list Z) :
  (forall x, x ∈ l <-> x ∈ l') -> np_unique l = np_unique l'.
Proof.
  intros H. unfold np_unique. apply (Sorted_unique Z.le).
  - apply Sorted_merge_sort, _.
  - apply Sorted_merge_sort, _.
  - rewrite !merge_sort_Permutation.
    apply NoDup_Permutation; [apply NoDup_remove_dups..|].
    intros x. by rewrite !elem_of_remove_dups.
Qed.

(** X3.  [write_cmblock] reads [items] only through [np.unique]: two id
    lists with the same members, in any order and with any repetitions,
    give the same result, be it the text or the exception. *)
Theorem write_cmblock_depends_on_id_set bits (items items' : list Z)
    comp_name comp_type digit_width :
  (forall x, x ∈ items <-> x ∈ items') ->
  write_cmblock bits items comp_name comp_type digit_width
  = write_cmblock bits items' comp_name comp_type digit_width.
Proof.
  intros H. unfold write_cmblock, cmblock_encode.
  by rewrite (np_unique_ext items items' H).
Qed.

(** ** What [write_nblock] writes, and when it raises *)

Lemma py_index_out {A} (a : list A) (i : nat) :
  (length a <= i)%nat -> py_index a (Z.of_nat i) = Raise IndexError.
Proof.
  intros Hi. unfold py_index, len.
  destruct (Z.ltb_spec (Z.of_nat i) 0); [lia|].
  destruct (Z.ltb_spec (Z.of_nat i) 0); [lia|].
  destruct (Z.leb_spec (Z.of_nat (length a)) (Z.of_nat i)); [done|lia].
Qed.

Lemma np_take_raises {A} (a : list A) (idx : list nat) i :
  i ∈ idx -> (length a <= i)%nat -> raises (np_take a (Z.of_nat <$> idx)).
Proof.
  intros Hin Hi. unfold np_take, raises.
  induction idx as [|j idx IH]; [by apply elem_of_nil in Hin|].
  rewrite fmap_cons. cbn [mapM_result].
  apply elem_of_cons in Hin as [<-|Hin].
  - rewrite py_index_out by done. by eexists.
  - destruct (py_index a (Z.of_nat j)); cbn [mbind result_bind]; [|by eexists].
    destruct (IH Hin) as [e ->]. by eexists.
Qed.

Section NodeBlockText.
Context {float : Type} (fmt_E : float -> string).

Lemma via_float64_exact (z : Z) : Z.abs z < 2 ^ 53 -> via_float64 z = z.
Proof.
  intros Hz. unfold via_float64. by destruct (Z.ltb_spec (Z.abs z) (2 ^ 53)); [|lia].
Qed.

(** Above [2^53] the id that is printed is the nearest integer a [float64]
    holds. *)
Example via_float64_rounds :
  via_float64 (2 ^ 53 + 1) = 2 ^ 53 /\ via_float64 (2 ^ 53 + 3) = 2 ^ 53 + 4 /\
  via_float64 (2 ^ 62 + 1) = 2 ^ 62.
Proof. repeat split; vm_compute; reflexivity. Qed.

(** X4.  Given as many positions as node ids, and at least one,
    [write_nblock] without angles writes the header with the largest node
    id and the number of positions, then one row per node in ascending
    order of id, each id with the position given for it, then the footer.
    In a row the id is printed as the integer of the [float64] nearest to
    it, which is the id itself for every id below [2^53] in absolute
    value. *)
Theorem write_nblock_rows_ascending (node_id : list Z) (pos : list (@point float)) :
  node_id <> [] -> length pos = length node_id ->
  exists mx rows,
    write_nblock fmt_E node_id pos None
    = Ok (("/PREP7 " +:+ nl +:+
           "NBLOCK,6,SOLID," +:+ fmt_d 10 mx +:+ "," +:+ fmt_d 10 (len pos)
           +:+ nl +:+ "(3i8,6e20.13)")
          +:+ nl +:+ str_concat ((fun r => nblock_row fmt_E r +:+ nl) <$> rows)
          +:+ ("N,R5.3,LOC,       -1, " +:+ nl) +:+ nl) /\
    mx ∈ node_id /\ (forall x, x ∈ node_id -> x <= mx) /\
    Sorted Z.le rows.*1 /\
    rows ≡ₚ zip_with (fun id p => (id, coords p)) node_id pos /\
    (forall r, r ∈ rows ->
       nblock_row fmt_E r
       = fmt_d 8 (via_float64 r.1) +:+ "       0       0"
         +:+ str_concat (fmt_E <$> r.2)) /\
    (Forall (fun x => Z.abs x < 2 ^ 53) node_id ->
     forall r, r ∈ rows ->
       nblock_row fmt_E r
       = fmt_d 8 r.1 +:+ "       0       0" +:+ str_concat (fmt_E <$> r.2)).
Proof.
  intros Hne Hlen.
  destruct (np_max node_id) as [mx|] eqn:Hmx; [|by destruct node_id].
  destruct (nblock_table_sorted node_id pos Hlen) as (rows & Ht & Hs & Hp).
  exists mx, rows. split; [|split; [|split; [|split; [|split; [|split]]]]];
    try done.
  - unfold write_nblock. rewrite Hmx. cbn [mbind result_bind].
    rewrite Ht. reflexivity.
  - by apply np_max_elem_of.
  - by apply np_max_ge.
  - intros Hsmall r Hr. unfold nblock_row. rewrite via_float64_exact; [done|].
    rewrite Hp in Hr. apply list_elem_of_lookup_1 in Hr as [i Hi].
    apply lookup_zip_with_Some in Hi as (x & p & -> & Hx & _).
    rewrite Forall_forall in Hsmall. apply Hsmall.
    by eapply list_elem_of_lookup_2.
Qed.

(** X5.  [write_nblock] raises exactly when there is no node id
    ([np.max] of an empty array), when there are fewer positions than node
    ids ([pos[ind]] is out of bounds), or when angles are given whose
    number of rows is neither the number of node ids nor one (the
    assignment [arr[:, 4:] = angles] cannot broadcast). *)
Theorem write_nblock_raises_iff (node_id : list Z) (pos : list (@point float))
    (angles : option (list (@point float))) :
  raises (write_nblock fmt_E node_id pos angles) <->
  (node_id = [] \/
   (length pos < length node_id)%nat \/
   exists a, angles = Some a /\ length a <> length node_id /\ length a <> 1%nat).
Proof.
  unfold write_nblock.
  destruct (np_max node_id) as [mx|] eqn:Hmx.
  2:{ destruct node_id; [|done]. cbn [mbind result_bind].
      split; [by left|by eexists]. }
  assert (node_id <> []) as Hne by (by intros ->).
  cbn [mbind result_bind]. unfold nblock_table. rewrite np_argsort_pairs.
  assert (forall i, i ∈ (argsort_pairs node_id).*2 ->
                    (i < length node_id)%nat) as Hrange.
  { intros i Hi. rewrite argsort_indices_Permutation in Hi.
    apply elem_of_seq in Hi. lia. }
  assert (length (argsort_pairs node_id).*2 = length node_id) as Hlen_idx.
  { rewrite argsort_indices_Permutation. apply length_seq. }
  destruct (np_take_indices node_id _ Hrange) as [-> Hl1].
  cbn [mbind result_bind].
  destruct (decide (length pos < length node_id)%nat) as [Hshort|Hlong].
  { destruct (np_take_raises pos (argsort_pairs node_id).*2 (length pos))
      as [e ->]; [|done|].
    - rewrite argsort_indices_Permutation. apply elem_of_seq. lia.
    - cbn [mbind result_bind]. split; [right; by left|by eexists]. }
  destruct (np_take_indices pos (argsort_pairs node_id).*2) as [-> Hl2];
    [intros i Hi; specialize (Hrange i Hi); lia|].
  cbn [mbind result_bind]. rewrite Hl1, Hlen_idx.
  destruct angles as [a|].
  - unfold broadcast_rows.
    destruct (decide (length a = length node_id)) as [Ha|Ha].
    + cbn [mbind result_bind]. split; [intros [e He]; done|].
      intros [H|[H|(a' & [= <-] & H1 & H2)]]; done.
    + destruct a as [|r [|r' a]]; cbn [mbind result_bind].
      * split; [|by eexists]. intros _. right; right. by exists [].
      * split; [intros [e He]; done|].
        intros [H|[H|(a' & [= <-] & H1 & H2)]]; done.
      * split; [|by eexists]. intros _. right; right.
        exists (r :: r' :: a). split; [done|]. split; [done|]. simpl. lia.
  - split; [intros [e He]; done|].
    intros [H|[H|(a' & [=] & _)]]; done.
Qed.

End NodeBlockText.

(** ** Renumbering of the unassigned ids *)

Lemma np_count_app m1 m2 : np_count (m1 ++ m2) = (np_count m1 + np_count m2)%nat.
Proof. unfold np_count. by rewrite filter_app, length_app. Qed.

(** The rank of a selected slot grows strictly from one selected slot to
    any later slot. *)
Lemma np_count_take_strict m i j :
  m !! i = Some true -> (i < j)%nat ->
  (np_count (take i m) < np_count (take j m))%nat.
Proof.
  revert i j. induction m as [|b m IH]; intros [|i] [|j] Hi Hij;
    simpl in Hi; try done; try lia.
  - injection Hi as ->. cbn [take]. rewrite np_count_cons.
    unfold np_count at 1. simpl. lia.
  - cbn [take]. rewrite !np_count_cons.
    assert (i < j)%nat as Hij' by lia.
    pose proof (IH i j Hi Hij'). lia.
Qed.

Lemma np_count_take_inj m i j :
  m !! i = Some true -> m !! j = Some true ->
  np_count (take i m) = np_count (take j m) -> i = j.
Proof.
  intros Hi Hj Heq. destruct (Nat.lt_trichotomy i j) as [H|[H|H]]; [|done|].
  - pose proof (np_count_take_strict m i j Hi H). lia.
  - pose proof (np_count_take_strict m j i Hj H). lia.
Qed.

Lemma np_max_minus_one l mx : np_max l = Ok mx -> -1 ∈ l -> -1 <= mx.
Proof. intros Hmx Hin. by apply (np_max_ge l mx Hmx). Qed.

(** X6.  When an id array holds a [-1] and the new numbers fit the
    integer type of the array ([renumber_fits]), the renumbering of
    [save_as_archive] succeeds; every given id stays where it is; every
    [-1] is replaced by a number of the type, above all given ids and not
    below the start value; no [-1] is left; and when the given ids are
    pairwise distinct, so are the ids of the result. *)
Theorem renumbering_assigns_fresh_ids (bits : Z) (num : list Z) (num_start : Z) :
  -1 ∈ num -> renumber_fits bits num num_start ->
  exists mx num',
    np_max num = Ok mx /\
    renumber_missing bits num num_start = Ok num' /\
    length num' = length num /\
    (forall p x, num !! p = Some x -> x <> -1 -> num' !! p = Some x) /\
    (forall p, num !! p = Some (-1) ->
       exists y, num' !! p = Some y /\ mx < y /\ num_start <= y /\
                 y < 2 ^ (bits - 1)) /\
    (-1 ∉ num') /\
    ((forall i j x, x <> -1 -> num !! i = Some x -> num !! j = Some x -> i = j) ->
     NoDup num').
Proof.
  intros Hin Hfits.
  destruct (renumber_missing_spec bits num num_start)
    as (mx & num' & Hmx & Hre & Hlen & Hspec); [|done|].
  { intros ->. by apply elem_of_nil in Hin. }
  cbn zeta in Hspec.
  pose proof (np_max_minus_one _ _ Hmx Hin) as Hmx1.
  exists mx, num'. split; [done|]. split; [done|]. split; [done|].
  assert (forall p y, num' !! p = Some y ->
            exists x, num !! p = Some x /\
              y = (if x =? -1
                   then Z.max (mx + 1) num_start
                        + Z.of_nat (np_count (take p (np_eq num (-1))))
                   else x) /\ x <= mx) as Hback.
  { intros p y Hp.
    destruct (lookup_lt_is_Some_2 num p) as [x Hx];
      [rewrite <- Hlen; by eapply lookup_lt_Some|].
    exists x. destruct (Hspec p x Hx) as [Hle Hp']. split; [done|].
    split; [congruence|done]. }
  split; [|split; [|split]].
  - intros p x Hp Hx. destruct (Hspec p x Hp) as [_ ->].
    by destruct (Z.eqb_spec x (-1)).
  - intros p Hp. destruct (Hspec p _ Hp) as [_ Hp']. eexists. split; [exact Hp'|].
    simpl. destruct Hfits as (_ & Hnum & Hstart).
    assert (np_eq num (-1) !! p = Some true) as Hm
      by (by rewrite np_eq_lookup, Hp).
    pose proof (np_count_take_lt _ _ Hm) as Hrank.
    rewrite Forall_forall in Hnum.
    destruct (Hnum mx (np_max_elem_of _ _ Hmx)) as [_ Hroom]. lia.
  - intros [p Hp]%list_elem_of_lookup_1.
    destruct (Hback p _ Hp) as (x & Hx & Hy & _).
    destruct (Z.eqb_spec x (-1)); lia.
  - intros Hdistinct. apply NoDup_alt. intros i j y Hi Hj.
    destruct (Hback i y Hi) as (xi & Hxi & Hyi & Hlei).
    destruct (Hback j y Hj) as (xj & Hxj & Hyj & Hlej).
    destruct (Z.eqb_spec xi (-1)) as [->|Hni], (Z.eqb_spec xj (-1)) as [->|Hnj].
    + apply (np_count_take_inj (np_eq num (-1))).
      * by rewrite np_eq_lookup, Hxi.
      * by rewrite np_eq_lookup, Hxj.
      * lia.
    + lia.
    + lia.
    + subst xi xj. by apply (Hdistinct i j y).
Qed.

Section Preparation.
Context {float : Type} (fmt_E : float -> string) (uninit : nat -> nat -> Z).

Lemma np_any_eq_false l v : np_any (np_eq l v) = false -> v ∉ l.
Proof.
  intros Hf Hin. apply np_any_eq_elem_of in Hin. congruence.
Qed.

Lemma renumber_missing_assigned bits num num_start num' :
  renumber_fits bits num num_start ->
  -1 ∈ num -> renumber_missing bits num num_start = Ok num' -> -1 ∉ num'.
Proof.
  intros Hfits Hin Hre.
  destruct (renumber_missing_spec bits num num_start)
    as (mx & num1 & Hmx & Hre1 & Hlen & Hspec); [|done|].
  { intros ->. by apply elem_of_nil in Hin. }
  cbn zeta in Hspec. rewrite Hre in Hre1. injection Hre1 as <-.
  pose proof (np_max_minus_one _ _ Hmx Hin) as Hmx1.
  intros [p Hp]%list_elem_of_lookup_1.
  destruct (lookup_lt_is_Some_2 num p) as [x Hx];
    [rewrite <- Hlen; by eapply lookup_lt_Some|].
  destruct (Hspec p x Hx) as [Hle Hp']. rewrite Hp in Hp'.
  injection Hp' as Hy. destruct (Z.eqb_spec x (-1)); lia.
Qed.

Lemma np_arange_assigned a b : 0 <= a -> np_any (np_eq (np_arange a b) (-1)) = false.
Proof.
  intros Ha. apply not_true_iff_false.
  intros Hin%np_any_eq_elem_of%elem_of_np_arange. lia.
Qed.

Lemma node_numbers_assigned (g : @Grid float) (o : Options) n :
  (forall a, point_arrays g !! "ansys_node_num" = Some a ->
             renumber_fits (array_bits g "ansys_node_num") a (nnum_start o)) ->
  node_numbers g o = Ok n -> -1 ∉ n.
Proof.
  intros Hfits. unfold node_numbers.
  destruct (point_arrays g !! "ansys_node_num") as [a|] eqn:Ha.
  - destruct (np_any (np_eq a (-1))) eqn:Hany.
    + destruct (allow_missing o); cbn [negb]; [|done].
      apply renumber_missing_assigned; [by apply Hfits|].
      by apply np_any_eq_elem_of.
    + intros [= <-]. by apply np_any_eq_false.
  - rewrite np_arange_assigned by lia. intros [= <-].
    apply np_any_eq_false, np_arange_assigned. lia.
Qed.

Lemma element_numbers_assigned (g : @Grid float) (o : Options) n :
  (forall a, cell_arrays g !! "ansys_elem_num" = Some a ->
             renumber_fits (array_bits g "ansys_elem_num") a (enum_start o)) ->
  element_numbers g o = Ok n -> -1 ∉ n.
Proof.
  intros Hfits. unfold element_numbers.
  destruct (cell_arrays g !! "ansys_elem_num") as [a|] eqn:Ha.
  - cbn [mbind result_bind].
    destruct (np_any (np_eq a (-1))) eqn:Hany.
    + destruct (allow_missing o); cbn [negb]; [|done].
      apply renumber_missing_assigned; [by apply Hfits|].
      by apply np_any_eq_elem_of.
    + intros [= <-]. by apply np_any_eq_false.
  - destruct (allow_missing o); cbn [negb mbind result_bind]; [|done].
    rewrite np_arange_assigned by lia. intros [= <-].
    apply np_any_eq_false, np_arange_assigned. lia.
Qed.

Lemma prepare_inv (g : @Grid float) (o : Options) p :
  prepare uninit g o = Ok p ->
  node_numbers g o = Ok (nodenum p) /\
  element_numbers g o = Ok (enum p) /\
  cell_attribute g "ansys_material_type" (mtype_start o) = Ok (mtype p) /\
  cell_attribute g "ansys_real_constant" (real_constant_start o) = Ok (rcon p) /\
  element_types uninit g o ("/PREP7" +:+ nl) = Ok (etype p, typenum p, header p) /\
  nodes_per_element uninit (etype p) (typenum p) = Ok (elem_nnodes p).
Proof.
  unfold prepare.
  destruct (node_numbers g o) as [nn|] eqn:E1; [|done]. cbn [mbind result_bind].
  destruct (element_numbers g o) as [en|] eqn:E2; [|done]. cbn [mbind result_bind].
  destruct (cell_attribute g "ansys_material_type" _) as [mt|] eqn:E3; [|done].
  cbn [mbind result_bind].
  destruct (cell_attribute g "ansys_real_constant" _) as [rc|] eqn:E4; [|done].
  cbn [mbind result_bind].
  destruct (element_types uninit g o _) as [[[et tn] hd]|] eqn:E5; [|done].
  cbn [mbind result_bind].
  destruct (nodes_per_element uninit et tn) as [npe|] eqn:E6; [|done].
  cbn [mbind result_bind]. intros [= <-]. done.
Qed.

(** X7.  Whenever the preparation of [save_as_archive] succeeds on a grid
    whose id arrays, when present, leave room in their integer type for
    the new numbers ([renumber_fits]), no node number and no element number
    it hands to the writing loop is [-1]: each was given, defaulted, or
    renumbered. *)
Theorem prepared_ids_are_assigned (g : @Grid float) (o : Options) p :
  (forall a, point_arrays g !! "ansys_node_num" = Some a ->
             renumber_fits (array_bits g "ansys_node_num") a (nnum_start o)) ->
  (forall a, cell_arrays g !! "ansys_elem_num" = Some a ->
             renumber_fits (array_bits g "ansys_elem_num") a (enum_start o)) ->
  prepare uninit g o = Ok p -> (-1 ∉ nodenum p) /\ (-1 ∉ enum p).
Proof.
  intros Hnf Hef (Hn & He & _)%prepare_inv.
  split; [by eapply node_numbers_assigned|by eapply element_numbers_assigned].
Qed.

(** Without that room the renumbering can store [-1] again: in an [int32]
    array a start value of [2^32 - 1] is stored as [-1]. *)
Example renumbering_can_store_minus_one :
  renumber_missing 32 [5; -1] (2 ^ 32 - 1) = Ok [5; -1].
Proof. vm_compute. reflexivity. Qed.


(** *** Element types *)

Lemma mask_select_elem_of {A} (a : list A) m sel i v :
  mask_select a m = Ok sel -> m !! i = Some true -> a !! i = Some v -> v ∈ sel.
Proof.
  unfold mask_select. destruct (decide _); [|done]. intros [= <-] Hm Ha.
  apply list_elem_of_fmap. exists (v, true). split; [done|].
  apply list_elem_of_filter. split; [done|].
  apply (list_elem_of_lookup_2 _ i). by apply lookup_zip_Some.
Qed.

(** With unusable element-type data, [element_types] either raises or, when
    [allow_missing] is on, returns what [default_etypes] returns. *)
Lemma element_types_unusable (g : @Grid float) (o : Options) h :
  etype_data_unusable g o ->
  (raises (element_types uninit g o h) /\
   (allow_missing o = false ->
    element_types uninit g o h = Raise (Exception Invalid_or_missing_etype) \/
    element_types uninit g o h = Raise KeyError \/
    element_types uninit g o h = Raise IndexError)) \/
  (allow_missing o = true /\
   exists h', element_types uninit g o h = default_etypes uninit g o h').
Proof.
  intros Hbad. unfold element_types.
  destruct (cell_arrays g !! "ansys_etype") as [et|] eqn:Het.
  2:{ rewrite bool_decide_eq_false_2 by (by intros [? ?]). cbn [andb negb].
      destruct (allow_missing o); cbn [negb];
        [right; split; [done|by eexists]|left; split; [by eexists|by left]]. }
  rewrite bool_decide_eq_true_2 by (by eexists).
  destruct (reset_etype o) eqn:Hreset; cbn [andb negb].
  { destruct (allow_missing o); cbn [negb];
      [right; split; [done|by eexists]|left; split; [by eexists|by left]]. }
  unfold given_etypes, dict_get. rewrite Het.
  destruct (cell_arrays g !! "ansys_elem_type_num") as [tn|] eqn:Htn.
  2:{ cbn [mbind result_bind]. left. split; [by eexists|]. intros _. right. by left. }
  cbn [mbind result_bind].
  set (invalid1 := np_any (np_eq et (-1))).
  assert (forall hh, (exists r, et_header et tn hh = Ok r)
                     \/ et_header et tn hh = Raise IndexError) as Hhdr.
  { intros hh. unfold et_header. generalize (np_unique_index et). intros idxs.
    revert hh. induction idxs as [|j idxs IH]; intros hh; simpl; [left; by eexists|].
    destruct (py_index_cases et j) as [[x ->]| ->]; cbn [mbind result_bind];
      [|by right].
    destruct (py_index_cases tn j) as [[y ->]| ->]; cbn [mbind result_bind];
      [|by right].
    apply IH. }
  destruct (if include_etype_header o && negb invalid1
            then et_header et tn h else Ok h) as [h1|e] eqn:Hh.
  2:{ cbn [mbind result_bind]. left. split; [by eexists|]. intros _.
      destruct (include_etype_header o && negb invalid1); [|done].
      destruct (Hhdr h) as [[r Hr]|Hr]; rewrite Hr in Hh; [done|].
      injection Hh as <-. right. by right. }
  cbn [mbind result_bind].
  destruct (mask_select tn (np_lt (celltypes g) 20)) as [sel|e] eqn:Hsel.
  2:{ cbn [mbind result_bind]. left. split; [by eexists|]. intros _.
      unfold mask_select in Hsel. destruct (decide _); [done|].
      injection Hsel as <-. right. by right. }
  cbn [mbind result_bind].
  assert (invalid1 || np_any (np_eq sel 186) = true) as ->.
  { destruct Hbad as [H|[H|[(a & Ha & Hin)|(tn' & i & c & Htn' & Hc & Hlt & Hi)]]].
    - congruence.
    - congruence.
    - rewrite Het in Ha. injection Ha as <-.
      unfold invalid1. apply np_any_eq_elem_of in Hin. by rewrite Hin.
    - rewrite Htn in Htn'. injection Htn' as <-.
      apply orb_true_iff. right. apply np_any_eq_elem_of.
      apply (mask_select_elem_of tn _ sel i 186 Hsel); [|done].
      unfold np_lt. rewrite list_lookup_fmap, Hc. simpl.
      by destruct (Z.ltb_spec c 20); [|lia]. }
  destruct (allow_missing o); cbn [negb];
    [right; split; [done|by eexists]|left; split; [by eexists|by left]].
Qed.

(** X8.  With [allow_missing] off, [save_as_archive] raises before the
    file is opened, so that nothing is written, whenever the node numbers
    hold a [-1], the element numbers are absent or hold a [-1], or the
    element-type data is unusable (absent, reset, holding a [-1], or giving
    a linear cell the type number 186). *)
Theorem strict_mode_rejects_missing_data (g : @Grid float) (o : Options) :
  allow_missing o = false ->
  (exists a, point_arrays g !! "ansys_node_num" = Some a /\ -1 ∈ a) \/
  cell_arrays g !! "ansys_elem_num" = None \/
  (exists a, cell_arrays g !! "ansys_elem_num" = Some a /\ -1 ∈ a) \/
  etype_data_unusable g o ->
  exists e, save_as_archive fmt_E uninit g o = NotOpened e.
Proof.
  intros Hs [H|[H|[H|Hbad]]].
  1-3: apply unassigned_ids_are_rejected; tauto.
  unfold save_as_archive, prepare.
  destruct (node_numbers g o); cbn [mbind result_bind]; [|by eexists].
  destruct (element_numbers g o); cbn [mbind result_bind]; [|by eexists].
  destruct (cell_attribute g "ansys_material_type" _); cbn [mbind result_bind];
    [|by eexists].
  destruct (cell_attribute g "ansys_real_constant" _); cbn [mbind result_bind];
    [|by eexists].
  destruct (element_types_unusable g o ("/PREP7" +:+ nl) Hbad)
    as [[[e He] _]|[Hallow _]]; [|congruence].
  rewrite He. by eexists.
Qed.

(** *** The default element types *)

Lemma mask_fill_np_eq (a ct : list Z) K v :
  length a = length ct ->
  exists a', mask_fill a (np_eq ct K) v = Ok a' /\ length a' = length ct /\
    forall i c x, ct !! i = Some c -> a !! i = Some x ->
                  a' !! i = Some (if c =? K then v else x).
Proof.
  intros Hlen. unfold mask_fill.
  rewrite decide_True by (by rewrite length_np_eq).
  eexists. split; [done|]. split.
  - rewrite length_zip_with_l_eq; [done|by rewrite length_np_eq].
  - intros i c x Hc Hx. rewrite lookup_zip_with, Hx. cbn [mbind option_bind].
    rewrite np_eq_lookup, Hc. done.
Qed.

Lemma np_empty_lookup site n i :
  (i < n)%nat -> np_empty uninit site n !! i = Some (wrap 32 (uninit site i)).
Proof.
  intros Hi. unfold np_empty. by rewrite list_lookup_fmap, lookup_seq_lt.
Qed.

Lemma length_np_empty site n : length (np_empty uninit site n) = n.
Proof. unfold np_empty. by rewrite length_fmap, length_seq. Qed.

Ltac fill_step H a' Hlen' Hlk :=
  match goal with
  | |- context [mask_fill ?a (np_eq ?ct ?K) ?v] =>
      destruct (mask_fill_np_eq a ct K v H) as (a' & -> & Hlen' & Hlk);
      cbn [mbind result_bind]
  end.

(** [default_etypes] never raises.  The element type stored for a cell is
    the [int32] value of the number chosen for its shape, and the type
    number of a cell is set by comparing that stored value with the
    numbers themselves. *)
Lemma default_etypes_ok (g : @Grid float) (o : Options) h :
  exists et tn,
    default_etypes uninit g o h
    = Ok (et, tn, ((h +:+ et_line (etype_start o + 2) 185)
                   +:+ et_line (etype_start o) 186)
                  +:+ et_line (etype_start o + 1) 187) /\
    length et = length (celltypes g) /\ length tn = length (celltypes g) /\
    forall i c, celltypes g !! i = Some c ->
      (c ∈ [VTK_TETRA; VTK_HEXAHEDRON; VTK_WEDGE; VTK_PYRAMID] ->
       et !! i = Some (wrap 32 (etype_start o + 2))) /\
      (c ∈ [VTK_QUADRATIC_HEXAHEDRON; VTK_QUADRATIC_WEDGE; VTK_QUADRATIC_PYRAMID] ->
       et !! i = Some (wrap 32 (etype_start o))) /\
      (c = VTK_QUADRATIC_TETRA ->
       et !! i = Some (wrap 32 (etype_start o + 1))) /\
      (forall e, et !! i = Some e ->
         tn !! i = Some (if e =? etype_start o + 1 then 187
                         else if e =? etype_start o then 186
                         else if e =? etype_start o + 2 then 185
                         else wrap 32 (uninit 1%nat i))).
Proof.
  unfold default_etypes.
  set (ct := celltypes g). set (s := etype_start o).
  pose proof (length_np_empty 0 (length ct)) as L0.
  fill_step L0 a1 L1 K1. fill_step L1 a2 L2 K2. fill_step L2 a3 L3 K3.
  fill_step L3 a4 L4 K4. fill_step L4 a5 L5 K5. fill_step L5 a6 L6 K6.
  fill_step L6 a7 L7 K7. fill_step L7 a8 L8 K8.
  assert (length (np_empty uninit 1 (length a8)) = length a8) as M0
    by apply length_np_empty.
  fill_step M0 t1 M1 T1. fill_step M1 t2 M2 T2. fill_step M2 t3 M3 T3.
  exists a8, t3. split; [done|]. split; [done|]. split; [congruence|].
  intros i c Hc.
  pose proof (lookup_lt_Some _ _ _ Hc) as Hi.
  pose proof (np_empty_lookup 0 (length ct) i Hi) as E0.
  pose proof (K1 _ _ _ Hc E0) as E1. pose proof (K2 _ _ _ Hc E1) as E2.
  pose proof (K3 _ _ _ Hc E2) as E3. pose proof (K4 _ _ _ Hc E3) as E4.
  pose proof (K5 _ _ _ Hc E4) as E5. pose proof (K6 _ _ _ Hc E5) as E6.
  pose proof (K7 _ _ _ Hc E6) as E7. pose proof (K8 _ _ _ Hc E7) as E8.
  assert (i < length a8)%nat as Hi8 by lia.
  pose proof (np_empty_lookup 1 (length a8) i Hi8) as F0.
  assert (forall e, a8 !! i = Some e ->
            t3 !! i = Some (if e =? s + 1 then 187
                            else if e =? s then 186
                            else if e =? s + 2 then 185
                            else wrap 32 (uninit 1%nat i))) as Htn.
  { intros e He.
    pose proof (T1 _ _ _ He F0) as F1. pose proof (T2 _ _ _ He F1) as F2.
    exact (T3 _ _ _ He F2). }
  cut ((c ∈ [VTK_TETRA; VTK_HEXAHEDRON; VTK_WEDGE; VTK_PYRAMID] ->
        a8 !! i = Some (wrap 32 (s + 2))) /\
       (c ∈ [VTK_QUADRATIC_HEXAHEDRON; VTK_QUADRATIC_WEDGE; VTK_QUADRATIC_PYRAMID] ->
        a8 !! i = Some (wrap 32 s)) /\
       (c = VTK_QUADRATIC_TETRA -> a8 !! i = Some (wrap 32 (s + 1)))).
  { intros (H1 & H2 & H3). by split_and!. }
  rewrite E8. clear.
  generalize (wrap 32 (s + 2)) (wrap 32 s) (wrap 32 (s + 1))
    (wrap 32 (uninit 0%nat i)). intros w2 w0 w1 u.
  unfold VTK_TETRA, VTK_HEXAHEDRON, VTK_WEDGE, VTK_PYRAMID,
    VTK_QUADRATIC_HEXAHEDRON, VTK_QUADRATIC_WEDGE, VTK_QUADRATIC_PYRAMID,
    VTK_QUADRATIC_TETRA.
  rewrite !elem_of_cons, !elem_of_nil.
  split; [|split]; intros Hcase.
  - assert (c = 10 \/ c = 12 \/ c = 13 \/ c = 14) as Hc by tauto. clear Hcase.
    destruct Hc as [-> | [-> | [-> | ->]]]; reflexivity.
  - assert (c = 25 \/ c = 26 \/ c = 27) as Hc by tauto. clear Hcase.
    destruct Hc as [-> | [-> | ->]]; reflexivity.
  - subst c. reflexivity.
Qed.

Lemma default_etypes_spec (g : @Grid float) (o : Options) h :
  in_range 32 (etype_start o) -> in_range 32 (etype_start o + 2) ->
  exists et tn,
    default_etypes uninit g o h
    = Ok (et, tn, ((h +:+ et_line (etype_start o + 2) 185)
                   +:+ et_line (etype_start o) 186)
                  +:+ et_line (etype_start o + 1) 187) /\
    length et = length (celltypes g) /\ length tn = length (celltypes g) /\
    forall i c, celltypes g !! i = Some c ->
      (c ∈ [VTK_TETRA; VTK_HEXAHEDRON; VTK_WEDGE; VTK_PYRAMID] ->
       et !! i = Some (etype_start o + 2) /\ tn !! i = Some 185) /\
      (c ∈ [VTK_QUADRATIC_HEXAHEDRON; VTK_QUADRATIC_WEDGE; VTK_QUADRATIC_PYRAMID] ->
       et !! i = Some (etype_start o) /\ tn !! i = Some 186) /\
      (c = VTK_QUADRATIC_TETRA ->
       et !! i = Some (etype_start o + 1) /\ tn !! i = Some 187).
Proof.
  intros Hlo Hhi.
  destruct (default_etypes_ok g o h) as (et & tn & Hd & Let & Ltn & Htab).
  exists et, tn. split; [done|]. split; [done|]. split; [done|].
  intros i c Hc. destruct (Htab i c Hc) as (H1 & H2 & H3 & Htn).
  assert (in_range 32 (etype_start o + 1)) as Hmid
    by (unfold in_range in *; lia).
  split; [|split]; intros Hcase.
  - specialize (H1 Hcase). rewrite wrap_id in H1 by (done || lia).
    split; [done|]. rewrite (Htn _ H1).
    destruct (Z.eqb_spec (etype_start o + 2) (etype_start o + 1)); [lia|].
    destruct (Z.eqb_spec (etype_start o + 2) (etype_start o)); [lia|].
    by rewrite Z.eqb_refl.
  - specialize (H2 Hcase). rewrite wrap_id in H2 by (done || lia).
    split; [done|]. rewrite (Htn _ H2).
    destruct (Z.eqb_spec (etype_start o) (etype_start o + 1)); [lia|].
    by rewrite Z.eqb_refl.
  - specialize (H3 Hcase). rewrite wrap_id in H3 by (done || lia).
    split; [done|]. rewrite (Htn _ H3). by rewrite Z.eqb_refl.
Qed.

Lemma nodes_per_element_spec (et tn : list Z) :
  length et = length tn ->
  exists nn, nodes_per_element uninit et tn = Ok nn /\
    length nn = length tn /\
    forall i, (tn !! i = Some 185 -> nn !! i = Some 8) /\
              (tn !! i = Some 186 -> nn !! i = Some 20) /\
              (tn !! i = Some 187 -> nn !! i = Some 10).
Proof.
  intros Hlen. unfold nodes_per_element.
  assert (length (np_empty uninit 2 (length et)) = length tn) as L0
    by (rewrite length_np_empty; done).
  fill_step L0 a1 L1 K1. fill_step L1 a2 L2 K2. fill_step L2 a3 L3 K3.
  exists a3. split; [done|]. split; [done|].
  intros i.
  assert (forall t, tn !! i = Some t ->
            a3 !! i = Some (if t =? 187 then 10 else if t =? 186 then 20
                            else if t =? 185 then 8
                            else wrap 32 (uninit 2%nat i))) as Hall.
  { intros t Ht. pose proof (lookup_lt_Some _ _ _ Ht) as Hi.
    assert (i < length et)%nat as Hi' by lia.
    pose proof (np_empty_lookup 2 (length et) i Hi') as E0.
    pose proof (K1 _ _ _ Ht E0) as E1. pose proof (K2 _ _ _ Ht E1) as E2.
    exact (K3 _ _ _ Ht E2). }
  split; [|split]; intros Ht; by rewrite (Hall _ Ht).
Qed.

(** X9.  When the element-type data is unusable, the preparation of
    [save_as_archive] succeeds (so [allow_missing] is on) and the three
    numbers [etype_start], [etype_start + 1], [etype_start + 2] are
    [int32] values, the element type follows the shape of the cell: a linear tetrahedron, hexahedron, wedge
    or pyramid gets the type [etype_start + 2], type number 185 and 8 nodes
    per record; a quadratic hexahedron, wedge or pyramid the type
    [etype_start], 186 and 20 nodes; a quadratic tetrahedron the type
    [etype_start + 1], 187 and 10 nodes.  The header ends with the three
    [ET] lines of these types. *)
Theorem unusable_etypes_are_replaced_by_shape (g : @Grid float) (o : Options) p :
  in_range 32 (etype_start o) -> in_range 32 (etype_start o + 2) ->
  etype_data_unusable g o ->
  prepare uninit g o = Ok p ->
  allow_missing o = true /\
  (exists h, header p = ((h +:+ et_line (etype_start o + 2) 185)
                         +:+ et_line (etype_start o) 186)
                        +:+ et_line (etype_start o + 1) 187) /\
  forall i c, celltypes g !! i = Some c ->
    (c ∈ [VTK_TETRA; VTK_HEXAHEDRON; VTK_WEDGE; VTK_PYRAMID] ->
     etype p !! i = Some (etype_start o + 2) /\ typenum p !! i = Some 185 /\
     elem_nnodes p !! i = Some 8) /\
    (c ∈ [VTK_QUADRATIC_HEXAHEDRON; VTK_QUADRATIC_WEDGE; VTK_QUADRATIC_PYRAMID] ->
     etype p !! i = Some (etype_start o) /\ typenum p !! i = Some 186 /\
     elem_nnodes p !! i = Some 20) /\
    (c = VTK_QUADRATIC_TETRA ->
     etype p !! i = Some (etype_start o + 1) /\ typenum p !! i = Some 187 /\
     elem_nnodes p !! i = Some 10).
Proof.
  intros Hlo Hhi Hbad (_ & _ & _ & _ & Het & Hnn)%prepare_inv.
  destruct (element_types_unusable g o ("/PREP7" +:+ nl) Hbad)
    as [[[e He] _]|[Hallow [h' Hdef]]]; [congruence|].
  split; [done|].
  destruct (default_etypes_spec g o h' Hlo Hhi)
    as (et & tn & Hd & Let & Ltn & Htab).
  rewrite Hdef, Hd in Het. injection Het as Het Htn Hhd.
  split; [by exists h'|].
  destruct (nodes_per_element_spec et tn) as (nn & Hnn' & _ & Hnodes); [congruence|].
  rewrite <- Het, <- Htn in Hnn. rewrite Hnn' in Hnn. injection Hnn as Hnn.
  rewrite <- Het, <- Htn, <- Hnn.
  intros i c Hc. destruct (Htab i c Hc) as (H1 & H2 & H3).
  destruct (Hnodes i) as (N1 & N2 & N3).
  split; [|split]; intros Hcase.
  - destruct (H1 Hcase) as [? ?]. auto.
  - destruct (H2 Hcase) as [? ?]. auto.
  - destruct (H3 Hcase) as [? ?]. auto.
Qed.

End Preparation.

(** Outside [int32] the stored element type wraps and no type number is
    set: with [etype_start = 2^31] a quadratic hexahedron gets the element
    type [-2^31] and keeps the type number [np.empty] left. *)
Example default_etypes_wrap :
  default_etypes stale_memory
    {| point_arrays := ∅; cell_arrays := ∅; array_bits := fun _ => 32;
       points := @nil (@point string);
       celltypes := [VTK_QUADRATIC_HEXAHEDRON]; cells := []; offset := [] |}
    {| mtype_start := 1; etype_start := 2 ^ 31; real_constant_start := 1;
       nblock := true; enum_start := 1; nnum_start := 1;
       include_etype_header := true; reset_etype := false;
       allow_missing := true |}
    EmptyString
  = Ok ([- 2 ^ 31], [7777],
        "ET, 2147483650, 185" +:+ nl +:+ "ET, 2147483648, 186" +:+ nl
        +:+ "ET, 2147483649, 187" +:+ nl).
Proof. vm_compute. reflexivity. Qed.

(** ** The node fields of an element record *)

Lemma py_index_Ok_nonneg {A} (l : list A) j x :
  0 <= j -> py_index l j = Ok x <-> l !! Z.to_nat j = Some x.
Proof.
  intros Hj. unfold py_index, len.
  destruct (Z.ltb_spec j 0); [lia|].
  destruct (Z.ltb_spec j 0); [lia|].
  destruct (Z.leb_spec (Z.of_nat (length l)) j) as [Hout|Hin]; simpl.
  - split; [done|]. intros Hl%lookup_lt_Some. lia.
  - destruct (l !! Z.to_nat j) as [y|] eqn:E.
    + split; congruence.
    + apply lookup_ge_None in E. lia.
Qed.

(** [to_archive_slots] reads node [j] for every template entry [j]. *)
Lemma to_archive_slots_Ok (template nodes w : list Z) :
  Forall (fun j => 0 <= j) template ->
  to_archive_slots template nodes = Ok w <->
  Forall2 (fun j x => nodes !! Z.to_nat j = Some x) template w.
Proof.
  unfold to_archive_slots. intros Hpos. revert w.
  induction Hpos as [|j t Hj Ht IH]; intros w; cbn [mapM_result].
  - split; [by intros [= <-]|by intros ->%Forall2_nil_inv_l].
  - destruct (py_index nodes j) as [x|e] eqn:Ex; cbn [mbind result_bind].
    + apply py_index_Ok_nonneg in Ex; [|done].
      destruct (mapM_result (py_index nodes) t) as [ys|e] eqn:Ey;
        cbn [mbind result_bind].
      * split.
        -- intros [= <-]. constructor; [done|]. by apply IH.
        -- intros (x' & ys' & Hx' & Hys' & ->)%Forall2_cons_inv_l.
           apply IH in Hys'. congruence.
      * split; [done|].
        intros (x' & ys' & Hx' & Hys' & ->)%Forall2_cons_inv_l.
        apply IH in Hys'. done.
    + split; [done|].
      intros (x' & ys' & Hx' & Hys' & ->)%Forall2_cons_inv_l.
      apply py_index_Ok_nonneg in Hx'; [congruence|done].
Qed.

Lemma to_archive_slots_succeeds (template nodes : list Z) :
  Forall (fun j => 0 <= j) template ->
  (exists w, to_archive_slots template nodes = Ok w /\ length w = length template)
  <-> Forall (fun j => j < len nodes) template.
Proof.
  intros Hpos. split.
  - intros (w & Hw & _). apply to_archive_slots_Ok in Hw; [|done].
    clear Hpos. induction Hw as [|j x t w Hj _ IH]; constructor; [|done].
    apply lookup_lt_Some in Hj. unfold len. lia.
  - intros Hlt.
    assert (exists w, Forall2 (fun j x => nodes !! Z.to_nat j = Some x) template w)
      as [w Hw].
    { induction template as [|j t IH]; [by exists []|].
      apply Forall_cons in Hpos as [Hj0 Hpos]. apply Forall_cons in Hlt as [Hj Hlt].
      destruct (IH Hpos Hlt) as [w Hw].
      destruct (lookup_lt_is_Some_2 nodes (Z.to_nat j)) as [x Hx];
        [unfold len in Hj; lia|].
      exists (x :: w). by constructor. }
    exists w. split; [by apply to_archive_slots_Ok|].
    symmetry. by eapply Forall2_length.
Qed.

Lemma length_py_slice_0 {A} (l : list A) (k : Z) :
  0 <= k -> length (py_slice l 0 k) = Nat.min (Z.to_nat k) (length l).
Proof.
  intros Hk. unfold py_slice, clamp_index, len.
  destruct (Z.ltb_spec 0 0); [lia|]. destruct (Z.ltb_spec k 0); [lia|].
  replace (Z.to_nat (Z.min 0 (Z.of_nat (length l)))) with 0%nat by lia.
  rewrite drop_0, length_take. lia.
Qed.

Lemma fmt_ints_succeeds w n args :
  (exists s, fmt_ints w n args = Ok s) <-> length args = n.
Proof.
  unfold fmt_ints. destruct (decide (length args = n)); split; try done.
  - by eexists.
  - by intros [? ?].
Qed.

Lemma line8_succeeds slots : (exists s, line8 slots = Ok s) <-> length slots = 8%nat.
Proof.
  unfold line8. rewrite <- (fmt_ints_succeeds 8 8 slots).
  destruct (fmt_ints 8 8 slots); cbn [mbind result_bind]; split;
    intros [s Hs]; try done; by eexists.
Qed.

Lemma line8_12_succeeds slots :
  (exists s, line8_12 slots = Ok s) <-> length slots = 20%nat.
Proof.
  unfold line8_12.
  pose proof (fmt_ints_succeeds 8 8 (py_slice slots 0 8)) as H8.
  pose proof (fmt_ints_succeeds 8 12 (drop 8 slots)) as H12.
  rewrite length_py_slice_0 in H8 by lia. rewrite length_drop in H12.
  destruct (fmt_ints 8 8 (py_slice slots 0 8)) as [a|] eqn:Ea;
    cbn [mbind result_bind].
  - assert (Nat.min (Z.to_nat 8) (length slots) = 8%nat) as Hmin
      by (apply H8; by eexists).
    destruct (fmt_ints 8 12 (drop 8 slots)) as [b|] eqn:Eb;
      cbn [mbind result_bind].
    + assert (length slots - 8 = 12)%nat by (apply H12; by eexists).
      split; [intros _; lia|by eexists].
    + split; [by intros [? ?]|]. intros Hl.
      destruct H12 as [_ H12]. destruct H12 as [? ?]; [lia|done].
  - split; [by intros [? ?]|]. intros Hl.
    destruct H8 as [_ H8]. destruct H8 as [? ?]; [lia|done].
Qed.

Lemma templated_fields_succeed (template nodes : list Z) (k : string -> result string)
    (write : list Z -> result string) (n : nat) :
  Forall (fun j => 0 <= j) template ->
  (forall w, length w = length template -> exists s, write w = Ok s) ->
  (Forall (fun j => j < len nodes) template <-> (n <= length nodes)%nat) ->
  (exists s, (w ← to_archive_slots template nodes; write w) = Ok s)
  <-> (n <= length nodes)%nat.
Proof.
  intros Hpos Hwrite Hn. rewrite <- Hn.
  rewrite <- (to_archive_slots_succeeds template nodes Hpos).
  destruct (to_archive_slots template nodes) as [w|e] eqn:Ew;
    cbn [mbind result_bind].
  - assert (length w = length template) as Hlen.
    { apply to_archive_slots_Ok in Ew; [|done]. symmetry. by eapply Forall2_length. }
    split; [intros _; by exists w|]. intros _. by apply Hwrite.
  - split; [by intros [? ?]|]. by intros (w & ? & _).
Qed.

Ltac template_bound :=
  unfold len; split;
  [ intros H; repeat (apply Forall_cons in H as [? H]); lia
  | intros H; repeat constructor; lia ].

Lemma node_fields_enough_iff (celltype tn : Z) (nodes : list Z) :
  (exists s, node_fields celltype (Ok tn) nodes = Ok s)
  <-> enough_nodes celltype tn (length nodes).
Proof.
  unfold node_fields, enough_nodes.
  destruct (celltype =? VTK_QUADRATIC_TETRA).
  { cbn [mbind result_bind]. destruct (tn =? 187).
    - destruct (decide (length nodes = 10%nat)); split; try done.
      + by eexists.
      + by intros [? ?].
    - apply (templated_fields_succeed _ _ Ok); [repeat constructor; lia| |template_bound].
      intros w Hw. by apply line8_12_succeeds. }
  destruct (celltype =? VTK_TETRA).
  { apply (templated_fields_succeed _ _ Ok); [repeat constructor; lia| |template_bound].
    intros w Hw. by apply line8_succeeds. }
  destruct (celltype =? VTK_WEDGE).
  { apply (templated_fields_succeed _ _ Ok); [repeat constructor; lia| |template_bound].
    intros w Hw. by apply line8_succeeds. }
  destruct (celltype =? VTK_QUADRATIC_WEDGE).
  { apply (templated_fields_succeed _ _ Ok); [repeat constructor; lia| |template_bound].
    intros w Hw. by apply line8_12_succeeds. }
  destruct (celltype =? VTK_QUADRATIC_PYRAMID).
  { apply (templated_fields_succeed _ _ Ok); [repeat constructor; lia| |template_bound].
    intros w Hw. by apply line8_12_succeeds. }
  destruct (celltype =? VTK_PYRAMID).
  { apply (templated_fields_succeed _ _ Ok
             (fun w => line8 (py_slice w 0 8))); [repeat constructor; lia| |template_bound].
    intros w Hw. apply line8_succeeds. rewrite length_py_slice_0 by lia.
    rewrite Hw. done. }
  destruct (celltype =? VTK_HEXAHEDRON).
  { rewrite line8_succeeds, length_py_slice_0 by lia. lia. }
  destruct (celltype =? VTK_QUADRATIC_HEXAHEDRON).
  { apply line8_12_succeeds. }
  split; [by intros [? ?]|done].
Qed.

Lemma to_archive_slots_cases template nodes :
  (exists w, to_archive_slots template nodes = Ok w)
  \/ to_archive_slots template nodes = Raise IndexError.
Proof. apply np_take_cases. Qed.

Lemma fmt_ints_cases w n args :
  (exists s, fmt_ints w n args = Ok s) \/ fmt_ints w n args = Raise TypeError.
Proof. unfold fmt_ints. destruct (decide _); [left; by eexists|by right]. Qed.

Lemma line8_cases slots :
  (exists s, line8 slots = Ok s) \/ line8 slots = Raise TypeError.
Proof.
  unfold line8. destruct (fmt_ints_cases 8 8 slots) as [[s ->]| ->];
    cbn [mbind result_bind]; [left; by eexists|by right].
Qed.

Lemma line8_12_cases slots :
  (exists s, line8_12 slots = Ok s) \/ line8_12 slots = Raise TypeError.
Proof.
  unfold line8_12.
  destruct (fmt_ints_cases 8 8 (py_slice slots 0 8)) as [[a ->]| ->];
    cbn [mbind result_bind]; [|by right].
  destruct (fmt_ints_cases 8 12 (drop 8 slots)) as [[b ->]| ->];
    cbn [mbind result_bind]; [left; by eexists|by right].
Qed.

Lemma templated_fields_cases template nodes (write : list Z -> result string) :
  (forall w, (exists s, write w = Ok s) \/ write w = Raise TypeError) ->
  (exists s, (w ← to_archive_slots template nodes; write w) = Ok s)
  \/ (w ← to_archive_slots template nodes; write w) = Raise IndexError
  \/ (w ← to_archive_slots template nodes; write w) = Raise TypeError.
Proof.
  intros Hwrite.
  destruct (to_archive_slots_cases template nodes) as [[w ->]| ->];
    cbn [mbind result_bind]; [|right; by left].
  destruct (Hwrite w) as [?| ->]; [by left|right; by right].
Qed.

(** X10.  The node fields of an element record are written exactly when
    the cell has a supported shape and enough nodes for it: at least 4 for
    a tetrahedron, 5 for a pyramid, 6 for a wedge, 8 for a hexahedron, 13
    for a quadratic pyramid, 15 for a quadratic wedge and 10 for a
    quadratic tetrahedron written as type 186 (further nodes are not
    written); exactly 10 for a quadratic tetrahedron of type 187 and
    exactly 20 for a quadratic hexahedron.  A cell of another shape raises
    [Invalid write cell type]; a supported cell with a wrong number of
    nodes raises [IndexError] (a template reads a node that is not there)
    or [TypeError] (the format gets a wrong number of values). *)
Theorem node_fields_succeeds_iff (celltype tn : Z) (nodes : list Z) :
  ((exists s, node_fields celltype (Ok tn) nodes = Ok s)
   <-> enough_nodes celltype tn (length nodes)) /\
  (celltype ∉ supported_celltypes ->
   node_fields celltype (Ok tn) nodes
   = Raise (Exception (Invalid_write_cell_type celltype))) /\
  (celltype ∈ supported_celltypes ->
   (exists s, node_fields celltype (Ok tn) nodes = Ok s)
   \/ node_fields celltype (Ok tn) nodes = Raise IndexError
   \/ node_fields celltype (Ok tn) nodes = Raise TypeError).
Proof.
  split; [apply node_fields_enough_iff|].
  split; [apply node_fields_unsupported|].
  intros Hin. unfold supported_celltypes in Hin.
  repeat (apply elem_of_cons in Hin as [->|Hin]);
    [..|by apply elem_of_nil in Hin];
    unfold node_fields;
    cbv [VTK_TETRA VTK_HEXAHEDRON VTK_WEDGE VTK_PYRAMID VTK_QUADRATIC_TETRA
         VTK_QUADRATIC_HEXAHEDRON VTK_QUADRATIC_WEDGE VTK_QUADRATIC_PYRAMID
         Z.eqb Pos.eqb].
  - apply templated_fields_cases, line8_cases.
  - cbn [mbind result_bind].
    match goal with |- context [if ?b then _ else _ ≫= _] => destruct b end.
    + destruct (decide _); [left; by eexists|right; by right].
    + apply templated_fields_cases, line8_12_cases.
  - apply (templated_fields_cases _ _ (fun w => line8 (py_slice w 0 8))).
    intros w. apply line8_cases.
  - apply templated_fields_cases, line8_12_cases.
  - apply templated_fields_cases, line8_cases.
  - apply templated_fields_cases, line8_12_cases.
  - destruct (line8_cases (py_slice nodes 0 8)) as [?| ->];
      [by left|right; by right].
  - destruct (line8_12_cases nodes) as [?| ->]; [by left|right; by right].
Qed.

(** ** The templates lose no node *)

Lemma template_covers (template : list Z) (n : nat) (a w : list Z) :
  Forall (fun j => 0 <= j) template ->
  Forall (fun k => Z.of_nat k ∈ template) (seq 0 n) ->
  length a = n ->
  to_archive_slots template a = Ok w ->
  forall k x, a !! k = Some x ->
    exists q, template !! q = Some (Z.of_nat k) /\ w !! q = Some x.
Proof.
  intros Hpos Hcov Hlen Hw k x Hk.
  apply to_archive_slots_Ok in Hw; [|done].
  rewrite Forall_forall in Hcov.
  assert (Z.of_nat k ∈ template) as [q Hq]%list_elem_of_lookup_1.
  { apply Hcov, elem_of_seq. apply lookup_lt_Some in Hk. lia. }
  destruct (Forall2_lookup_l _ _ _ _ _ Hw Hq) as (y & Hy & Hay).
  rewrite Nat2Z.id, Hk in Hay. injection Hay as <-. by exists q.
Qed.

(** X11.  Each of the six duplication templates, applied to a cell with
    the number of nodes of its shape, succeeds and writes every node of the
    cell into some slot and nothing but nodes of the cell; two cells that
    get the same slots have the same node list. *)
Theorem degenerate_slots_lose_no_node (template : list Z) (n : nat) (a : list Z) :
  (template, n) ∈ degenerate_templates -> length a = n ->
  exists w,
    to_archive_slots template a = Ok w /\
    length w = length template /\
    (forall x, x ∈ w <-> x ∈ a) /\
    (forall b, length b = n -> to_archive_slots template b = Ok w -> a = b).
Proof.
  intros Hin Hlen.
  assert (Forall (fun j => 0 <= j < Z.of_nat n) template /\
          Forall (fun k => Z.of_nat k ∈ template) (seq 0 n)) as [Hrange Hcov].
  { unfold degenerate_templates in Hin.
    repeat (apply elem_of_cons in Hin as [[= -> ->]|Hin];
            [split; [repeat constructor; lia|];
             apply (bool_decide_unpack _); vm_compute; exact I|]).
    by apply elem_of_nil in Hin. }
  assert (Forall (fun j => 0 <= j) template) as Hpos
    by (eapply Forall_impl; [exact Hrange|]; intros; simpl in *; lia).
  destruct (proj2 (to_archive_slots_succeeds template a Hpos)) as (w & Hw & Hlw).
  { eapply Forall_impl; [exact Hrange|]. intros j Hj. simpl in *.
    unfold len. lia. }
  exists w. split; [done|]. split; [done|]. split.
  - intros x. split.
    + intros [q Hq]%list_elem_of_lookup_1.
      apply to_archive_slots_Ok in Hw; [|done].
      destruct (Forall2_lookup_r _ _ _ _ _ Hw Hq) as (j & Hj & Haj).
      by eapply list_elem_of_lookup_2.
    + intros [k Hk]%list_elem_of_lookup_1.
      destruct (template_covers template n a w Hpos Hcov Hlen Hw k x Hk)
        as (q & _ & Hq).
      by eapply list_elem_of_lookup_2.
  - intros b Hlb Hb. apply list_eq. intros k.
    destruct (a !! k) as [x|] eqn:Hk.
    + destruct (template_covers template n a w Hpos Hcov Hlen Hw k x Hk)
        as (q & Hq & Hwq).
      apply to_archive_slots_Ok in Hb; [|done].
      destruct (Forall2_lookup_l _ _ _ _ _ Hb Hq) as (y & Hy & Hby).
      rewrite Nat2Z.id in Hby. congruence.
    + apply lookup_ge_None in Hk. symmetry. apply lookup_ge_None. lia.
Qed.

(** ** The loop over the cells *)

Section Records.
Context {float : Type} (fmt_E : float -> string) (uninit : nat -> nat -> Z).

Lemma mapM_result_snoc {A B} (f : A -> result B) xs x ys y :
  mapM_result f xs = Ok ys -> f x = Ok y ->
  mapM_result f (xs ++ [x]) = Ok (ys ++ [y]).
Proof.
  revert ys. induction xs as [|z xs IH]; intros ys; simpl.
  - intros [= <-] ->. done.
  - destruct (f z); cbn [mbind result_bind]; [|done].
    destruct (mapM_result f xs) as [ys'|]; cbn [mbind result_bind]; [|done].
    intros [= <-] Hy. rewrite (IH ys' eq_refl Hy). done.
Qed.

Lemma str_concat_app l1 l2 :
  str_concat (l1 ++ l2) = str_concat l1 +:+ str_concat l2.
Proof.
  induction l1 as [|s l1 IH]; simpl; [done|].
  by rewrite IH, str_app_assoc.
Qed.

Lemma eblock_loop_split (g : @Grid float) (p : Prepared) todo : forall written,
  exists done_ rest lines,
    todo = done_ ++ rest /\
    mapM_result (eblock_line g p) done_ = Ok lines /\
    (eblock_loop g p todo written).1 = written +:+ str_concat lines /\
    match (eblock_loop g p todo written).2 with
    | None => rest = []
    | Some e => exists i rest', rest = i :: rest' /\ eblock_line g p i = Raise e
    end.
Proof.
  induction todo as [|i todo IH]; intros written.
  - exists [], [], []. simpl. by rewrite str_app_nil_r.
  - simpl. destruct (eblock_line g p i) as [line|e] eqn:Hi.
    + destruct (IH (written +:+ line)) as (d & r & ls & -> & Hd & Hw & Hr).
      exists (i :: d), r, (line :: ls). split; [done|]. split.
      * simpl. rewrite Hi. cbn [mbind result_bind]. rewrite Hd. done.
      * split; [|done]. rewrite Hw. simpl. by rewrite str_app_assoc.
    + exists [], (i :: todo), []. simpl. rewrite str_app_nil_r.
      split; [done|]. split; [done|]. split; [done|]. by exists i, todo.
Qed.

(** X12.  When [save_as_archive] raises after the file was opened, the
    file holds a prefix of the archive: the header alone when the node
    block raised; the header and the node block when reading the last
    element id raised; and otherwise the header, the node block, the EBLOCK
    header and the records of exactly the cells before the first cell whose
    record raised. *)
Theorem aborted_archive_holds_a_prefix (g : @Grid float) (o : Options)
    (written : string) (e : exn) :
  save_as_archive fmt_E uninit g o = Aborted written e ->
  exists p,
    prepare uninit g o = Ok p /\
    ((write_nblock fmt_E (nodenum p) (points g) None = Raise e /\
      written = header p) \/
     (exists text,
        write_nblock fmt_E (nodenum p) (points g) None = Ok text /\
        py_index (enum p) (-1) = Raise e /\
        written = header p +:+ text) \/
     (exists text last_enum done_ i rest lines,
        write_nblock fmt_E (nodenum p) (points g) None = Ok text /\
        py_index (enum p) (-1) = Ok last_enum /\
        np_arange 0 (number_of_cells g) = done_ ++ i :: rest /\
        mapM_result (eblock_line g p) done_ = Ok lines /\
        eblock_line g p i = Raise e /\
        written = ((header p +:+ text)
                   +:+ eblock_header last_enum (number_of_cells g))
                  +:+ str_concat lines)).
Proof.
  unfold save_as_archive, function_is_true.
  destruct (prepare uninit g o) as [p|e0] eqn:Hp; [|done].
  intros Hrun. exists p. split; [done|].
  destruct (write_nblock fmt_E (nodenum p) (points g) None) as [text|e1] eqn:Ht.
  2:{ injection Hrun as <- <-. by left. }
  destruct (py_index (enum p) (-1)) as [last_enum|e2] eqn:Hl.
  2:{ injection Hrun as <- <-. right. left. by exists text. }
  destruct (eblock_loop_split g p (np_arange 0 (number_of_cells g))
              ((header p +:+ text) +:+ eblock_header last_enum (number_of_cells g)))
    as (d & r & lines & Htodo & Hd & Hw & Hr).
  destruct (eblock_loop g p _ _) as [f [e3|]]; [|done].
  simpl in Hw, Hr. destruct Hr as (i & rest & -> & Hi).
  injection Hrun as <- <-. right. right.
  by exists text, last_enum, d, i, rest, lines.
Qed.

Lemma mapM_result_app_raise {A B} (f : A -> result B) xs x rest ys e :
  mapM_result f xs = Ok ys -> f x = Raise e ->
  mapM_result f (xs ++ x :: rest) = Raise e.
Proof.
  revert ys. induction xs as [|z xs IH]; intros ys; simpl.
  - intros _ ->. done.
  - destruct (f z); cbn [mbind result_bind]; [|done].
    destruct (mapM_result f xs) as [ys'|]; cbn [mbind result_bind]; [|done].
    intros _ Hx. rewrite (IH ys' eq_refl Hx). done.
Qed.

(** X13.  [save_as_archive] completes exactly when the preparation, the
    node block, the read of the last element id and the record of every
    cell succeed; the file then holds, in this order, the header, the node
    block, the EBLOCK header, the records of the cells 0, 1, ... and the
    end marker. *)
Theorem save_as_archive_completed_iff (g : @Grid float) (o : Options)
    (written : string) :
  save_as_archive fmt_E uninit g o = Completed written <->
  exists p text last_enum lines,
    prepare uninit g o = Ok p /\
    write_nblock fmt_E (nodenum p) (points g) None = Ok text /\
    py_index (enum p) (-1) = Ok last_enum /\
    mapM_result (eblock_line g p) (np_arange 0 (number_of_cells g)) = Ok lines /\
    written = (((header p +:+ text)
                +:+ eblock_header last_enum (number_of_cells g))
               +:+ str_concat lines)
              +:+ "      -1" +:+ nl.
Proof.
  unfold save_as_archive, function_is_true. split.
  - destruct (prepare uninit g o) as [p|e] eqn:Hp; [|done].
    destruct (write_nblock fmt_E (nodenum p) (points g) None) as [text|e] eqn:Ht;
      [|done].
    destruct (py_index (enum p) (-1)) as [last_enum|e] eqn:Hl; [|done].
    destruct (eblock_loop_split g p (np_arange 0 (number_of_cells g))
                ((header p +:+ text) +:+ eblock_header last_enum (number_of_cells g)))
      as (d & r & lines & Htodo & Hd & Hw & Hr).
    destruct (eblock_loop g p _ _) as [f [e|]]; [done|].
    simpl in Hw, Hr. subst r f. rewrite app_nil_r in Htodo. subst d.
    intros [= <-]. by exists p, text, last_enum, lines.
  - intros (p & text & last_enum & lines & -> & -> & -> & Hlines & ->).
    destruct (eblock_loop_split g p (np_arange 0 (number_of_cells g))
                ((header p +:+ text) +:+ eblock_header last_enum (number_of_cells g)))
      as (d & r & ls & Htodo & Hd & Hw & Hr).
    destruct (eblock_loop g p _ _) as [f [e|]]; simpl in Hw, Hr.
    + destruct Hr as (i & rest' & -> & Hi).
      rewrite Htodo, (mapM_result_app_raise _ _ _ _ _ _ Hd Hi) in Hlines. done.
    + subst r. rewrite app_nil_r in Htodo. subst d.
      rewrite Hd in Hlines. injection Hlines as ->. by rewrite Hw.
Qed.

Lemma write_nblock_needs_positions (node_id : list Z) (pos : list (@point float))
    angles text :
  write_nblock fmt_E node_id pos angles = Ok text ->
  node_id <> [] /\ (length node_id <= length pos)%nat.
Proof.
  unfold write_nblock. intros H.
  destruct (np_max node_id) as [mx|] eqn:Hmx; [|done].
  split; [by intros ->|].
  cbn [mbind result_bind] in H. unfold nblock_table in H.
  rewrite np_argsort_pairs in H.
  destruct (np_take node_id _) as [ids|]; [|done]. cbn [mbind result_bind] in H.
  destruct (decide (length pos < length node_id)%nat) as [Hshort|]; [|lia].
  destruct (np_take_raises pos (argsort_pairs node_id).*2 (length pos))
    as [e He]; [|done|].
  - rewrite argsort_indices_Permutation. apply elem_of_seq. lia.
  - rewrite He in H. done.
Qed.

(** X14.  A completed archive needs a point and an element id to read:
    [save_as_archive] never completes on a grid without points, nor on a
    grid without cells unless it carries a non-empty ["ansys_elem_num"]
    array. *)
Theorem completed_archive_is_not_empty (g : @Grid float) (o : Options)
    (written : string) :
  save_as_archive fmt_E uninit g o = Completed written ->
  points g <> [] /\
  (celltypes g = [] ->
   exists a, cell_arrays g !! "ansys_elem_num" = Some a /\ a <> []).
Proof.
  unfold save_as_archive, function_is_true.
  destruct (prepare uninit g o) as [p|e] eqn:Hp; [|done].
  destruct (write_nblock fmt_E (nodenum p) (points g) None) as [text|e] eqn:Ht;
    [|done].
  destruct (py_index (enum p) (-1)) as [last_enum|e] eqn:Hl; [|done].
  intros _. split.
  - apply write_nblock_needs_positions in Ht as [Hne Hle].
    intros Hpts. rewrite Hpts in Hle. destruct (nodenum p); simpl in *; [done|lia].
  - intros Hcells.
    assert (enum p <> []) as Hen.
    { intros E. rewrite E in Hl. cbv in Hl. done. }
    apply prepare_inv in Hp as (_ & Hel & _).
    destruct (enum p) as [|en0 ens] eqn:Hen0; [done|].
    unfold element_numbers in Hel.
    destruct (cell_arrays g !! "ansys_elem_num") as [a|] eqn:Ha.
    + exists a. split; [done|]. intros ->. cbn in Hel. done.
    + exfalso. destruct (allow_missing o); cbn in Hel; [|done].
      unfold number_of_cells in Hel. rewrite Hcells in Hel. cbn in Hel.
      done.
Qed.

End Records.

(** ** [unique_rows] and [raw_to_grid] *)

Lemma first_index_Some {A} `{EqDecision A} (x : A) (l : list A) k :
  first_index x l = Some k ->
  exists j, k = Z.of_nat j /\ l !! j = Some x /\
            forall i, (i < j)%nat -> l !! i <> Some x.
Proof.
  unfold first_index.
  destruct (list_find (fun y => y = x) l) as [[j y]|] eqn:Hfind; [|done].
  simpl. intros [= <-]. apply list_find_Some in Hfind as (Hj & -> & Hmin).
  exists j. split; [done|]. split; [done|].
  intros i Hi Hx. by apply (Hmin i x Hx Hi).
Qed.

Lemma omap_first_index_min {A} `{EqDecision A} (xs l : list A) :
  (forall x, x ∈ xs -> x ∈ l) ->
  Forall2 (fun x k => exists j, k = Z.of_nat j /\ l !! j = Some x /\
                                forall i, (i < j)%nat -> l !! i <> Some x)
          xs (omap (fun x => first_index x l) xs).
Proof.
  induction xs as [|x xs IH]; intros Hsub; simpl; [constructor|].
  destruct (first_index_elem_of x l) as (j & Hfi & Hj); [apply Hsub; left|].
  rewrite Hfi. constructor; [by apply first_index_Some|].
  apply IH. intros y Hy. apply Hsub. by right.
Qed.

Section MidsideMore.
Context {float : Type} `{EqDecision float}.
Context (void_le : relation (@point float)) `{!RelDecision void_le}.
Context (zero : float).
Context (reset_midside :
  list Z -> list Z -> list Z -> list (@point float) -> list (@point float)).

(** X15.  [unique_rows a] returns the distinct rows of [a], each once, in
    the order of [np.unique] (sorted when that order is total), with two
    index arrays: [idx] gives for each distinct row the position of its
    first occurrence in [a], so that [a[idx]] is the distinct rows, and
    [idx2] gives for each row of [a] its position among the distinct rows,
    so that indexing the distinct rows by [idx2] gives [a] back. *)
Theorem unique_rows_inverse (a : list (@point float)) :
  exists u idxA idxB,
    unique_rows void_le a = Ok (u, idxA, idxB) /\
    NoDup u /\
    (forall r, r ∈ u <-> r ∈ a) /\
    (Total void_le -> Sorted void_le u) /\
    np_take a idxA = Ok u /\
    np_take u idxB = Ok a /\
    Forall2 (fun r k => exists j, k = Z.of_nat j /\ a !! j = Some r /\
                                  forall i, (i < j)%nat -> a !! i <> Some r)
            u idxA.
Proof.
  set (u := merge_sort void_le (remove_dups a)).
  assert (forall r, r ∈ u <-> r ∈ a) as Hmem.
  { intros r. unfold u. rewrite merge_sort_Permutation. apply elem_of_remove_dups. }
  assert (NoDup u) as Hnd.
  { unfold u. rewrite merge_sort_Permutation. apply NoDup_remove_dups. }
  pose proof (omap_first_index u a (fun x Hx => proj1 (Hmem x) Hx)) as HA.
  pose proof (omap_first_index a u (fun x Hx => proj2 (Hmem x) Hx)) as HB.
  pose proof (omap_first_index_min u a (fun x Hx => proj1 (Hmem x) Hx)) as HAmin.
  exists u, (omap (fun r => first_index r a) u), (omap (fun r => first_index r u) a).
  split; [|split; [done|split; [done|split; [|split; [|split]]]]].
  - unfold unique_rows, np_unique_rows. fold u.
    rewrite (np_take_Forall2 _ _ _ HA). done.
  - intros Htotal. apply (Sorted_merge_sort void_le).
  - by apply np_take_Forall2.
  - by apply np_take_Forall2.
  - done.
Qed.

Lemma mask_assign_Ok_inv {A} (a : list A) m vals r :
  mask_assign a m vals = Ok r ->
  length m = length a /\ length vals = np_count m /\ r = mask_scatter a m vals.
Proof.
  unfold mask_assign. destruct (decide _); [|done]. destruct (decide _); [|done].
  by intros [= <-].
Qed.

Lemma set_head_Ok_inv {A} n (dst vals r : list A) :
  set_head n dst vals = Ok r ->
  length (take n dst) = length vals /\ r = vals ++ drop n dst.
Proof. unfold set_head. destruct (decide _); [|done]. by intros [= <-]. Qed.

Lemma set_tail_Ok_inv {A} n (dst vals r : list A) :
  set_tail n dst vals = Ok r ->
  length (drop n dst) = length vals /\ r = take n dst ++ vals.
Proof. unfold set_tail. destruct (decide _); [|done]. by intros [= <-]. Qed.

Lemma midside_candidates_Ok_inv (raw : Raw) (parsed : Parsed) m maxnum cells1 cand :
  midside_candidates zero reset_midside raw parsed = Ok (m, maxnum, cells1, cand) ->
  m = np_eq (parsed_cells parsed) (-1) /\
  cells1 = mask_scatter (parsed_cells parsed) m
             (np_arange maxnum (maxnum + Z.of_nat (np_count m))).
Proof.
  unfold midside_candidates.
  destruct (np_max (parsed_numref parsed)) as [mx|]; [|done].
  cbn [mbind result_bind].
  destruct (mask_assign _ _ _) as [c1|] eqn:Hc1; [|done].
  cbn [mbind result_bind].
  destruct (set_head _ _ _) as [n1|]; [|done]. cbn [mbind result_bind].
  destruct (set_tail _ _ _) as [n2|]; [|done]. cbn [mbind result_bind].
  intros [= <- <- <- <-]. split; [done|].
  by apply mask_assign_Ok_inv in Hc1 as (_ & _ & ->).
Qed.

(** The slots that are not selected keep their content. *)
Lemma mask_scatter_keeps (cells vals : list Z) p c :
  length vals = np_count (np_eq cells (-1)) ->
  cells !! p = Some c -> c <> -1 ->
  mask_scatter cells (np_eq cells (-1)) vals !! p = Some c.
Proof.
  intros Hv Hp Hc.
  rewrite mask_scatter_lookup; [|apply length_np_eq|done].
  rewrite np_eq_lookup, Hp. simpl. by destruct (Z.eqb_spec c (-1)).
Qed.

(** X16.  Whatever the compiled helpers return and whatever
    [force_linear] is, a mesh that [raw_to_grid] returns keeps the raw
    nodes: the first rows of its point and angle tables are the positions
    and angles of the raw nodes, in order, and its node numbers start with
    the raw node numbers.  The [k] rows that follow are pairwise distinct
    points with zero angles and the node number [-1].  The connectivity
    keeps its length, and every slot that was resolved keeps its value.
    With [force_linear] on, nothing is added and the connectivity is
    returned as it was parsed. *)
Theorem raw_to_grid_keeps_raw_nodes (raw : Raw) (parsed : Parsed)
    (force_linear : bool) (mesh : Mesh) :
  raw_to_grid void_le zero reset_midside raw parsed force_linear = Ok mesh ->
  exists (extra : list (@point float)),
    mesh_nodes mesh = (fst <$> raw_nodes raw) ++ extra /\
    NoDup extra /\
    mesh_angles mesh
    = (snd <$> raw_nodes raw) ++ replicate (length extra) (zero_row zero) /\
    mesh_nnum mesh = raw_nnum raw ++ replicate (length extra) (-1) /\
    length (mesh_cells mesh) = length (parsed_cells parsed) /\
    (forall p c, parsed_cells parsed !! p = Some c -> c <> -1 ->
                 mesh_cells mesh !! p = Some c) /\
    (force_linear = true ->
     extra = [] /\ mesh_cells mesh = parsed_cells parsed).
Proof.
  unfold raw_to_grid.
  destruct (force_linear || forallb (fun c => negb (c =? -1)) (parsed_cells parsed))
    eqn:Hlin.
  { intros [= <-]. exists []. cbn [mesh_nodes mesh_angles mesh_nnum mesh_cells].
    rewrite !app_nil_r. split_and!; try done. constructor. }
  apply orb_false_iff in Hlin as [-> _].
  destruct (midside_candidates zero reset_midside raw parsed)
    as [[[[m maxnum] cells1] cand]|] eqn:Hcand; [|done].
  cbn [mbind result_bind].
  apply midside_candidates_Ok_inv in Hcand as [-> ->].
  set (cells := parsed_cells parsed). set (mask := np_eq cells (-1)).
  destruct (unique_rows_spec void_le cand)
    as (u & idxA & idxB & -> & Hnd & _ & HlenA & _ & _).
  cbn [mbind result_bind].
  destruct (mask_assign _ mask _) as [cells2|] eqn:Hc2; [|done].
  cbn [mbind result_bind].
  apply mask_assign_Ok_inv in Hc2 as (Hlm & Hlv & ->).
  rewrite length_mask_scatter in Hlm.
  set (nnodes := length (raw_nodes raw)).
  destruct (set_head nnodes (replicate (nnodes + length idxA) (zero_row zero))
              (fst <$> raw_nodes raw)) as [n1|] eqn:Hn1; [|done].
  cbn [mbind result_bind].
  apply set_head_Ok_inv in Hn1 as [_ ->].
  destruct (set_tail nnodes _ u) as [n2|] eqn:Hn2; [|done].
  cbn [mbind result_bind].
  apply set_tail_Ok_inv in Hn2 as [_ ->].
  destruct (set_head nnodes (replicate (nnodes + length idxA) (zero_row zero))
              (snd <$> raw_nodes raw)) as [a1|] eqn:Ha1; [|done].
  cbn [mbind result_bind].
  apply set_head_Ok_inv in Ha1 as [_ ->].
  intros [= <-]. cbn [mesh_nodes mesh_angles mesh_nnum mesh_cells].
  assert (forall (l r : list (@point float)), length l = nnodes ->
            take nnodes (l ++ r) = l) as Htake.
  { intros l r Hl. by rewrite take_app_length'. }
  assert (forall (l r : list (@point float)), length l = nnodes ->
            drop nnodes (l ++ r) = r) as Hdrop.
  { intros l r Hl. by rewrite drop_app_length'. }
  exists u. unfold fill_tail.
  rewrite !Htake by (by rewrite length_fmap).
  rewrite !Hdrop by (by rewrite length_fmap).
  rewrite length_drop, length_replicate, HlenA.
  replace (nnodes + length u - nnodes)%nat with (length u) by lia.
  split_and!; try done.
  - by rewrite !length_mask_scatter.
  - intros p c Hp Hc.
    rewrite mask_scatter_lookup; [|by rewrite length_mask_scatter|done].
    unfold mask at 1. rewrite np_eq_lookup, Hp. simpl.
    destruct (Z.eqb_spec c (-1)); [done|].
    apply mask_scatter_keeps; [|done|done].
    rewrite length_np_arange. unfold mask. lia.
Qed.

Hypothesis reset_midside_shape :
  forall cells cell_type offset nodes,
    length (reset_midside cells cell_type offset nodes) = length nodes.

Lemma raw_to_grid_midside_ok (raw : Raw) (parsed : Parsed) :
  parsed_numref parsed <> [] ->
  exists mesh, raw_to_grid void_le zero reset_midside raw parsed false = Ok mesh.
Proof.
  intros Hnum. unfold raw_to_grid. cbn [orb].
  destruct (forallb _ _); [by eexists|].
  destruct (midside_candidates_spec zero reset_midside reset_midside_shape
              raw parsed Hnum)
    as (maxnum & cells1 & cand & -> & Hmax & Hcells1 & Hlen).
  cbn [mbind result_bind].
  destruct (unique_rows_spec void_le cand)
    as (u & idxA & idxB & -> & Hnd & Hmem & HlenA & HlenB & HidxB).
  cbn [mbind result_bind].
  rewrite mask_assign_ok;
    [|rewrite Hcells1, length_mask_scatter; apply length_np_eq
     |rewrite length_fmap; lia].
  cbn [mbind result_bind].
  set (nnodes := length (raw_nodes raw)).
  rewrite (set_head_ok nnodes _ (fst <$> raw_nodes raw));
    [|by rewrite length_fmap|rewrite length_replicate; lia].
  cbn [mbind result_bind].
  rewrite set_tail_ok;
    [|rewrite length_app, length_fmap, length_drop, length_replicate;
      fold nnodes; lia].
  cbn [mbind result_bind].
  rewrite (set_head_ok nnodes _ (snd <$> raw_nodes raw));
    [|by rewrite length_fmap|rewrite length_replicate; lia].
  cbn [mbind result_bind]. by eexists.
Qed.

(** X17.  Provided the compiled [reset_midside] keeps the number of rows
    of the array it overwrites, [raw_to_grid] raises in one case only: the
    connectivity holds a [-1], [force_linear] is off, and the parser
    returned an empty [numref], whose maximum is then undefined
    ([ValueError]). *)
Theorem raw_to_grid_raises_iff (raw : Raw) (parsed : Parsed) (force_linear : bool) :
  raises (raw_to_grid void_le zero reset_midside raw parsed force_linear) <->
  force_linear = false /\ -1 ∈ parsed_cells parsed /\ parsed_numref parsed = [].
Proof.
  split.
  - intros [e He]. destruct force_linear; [done|]. split; [done|].
    destruct (decide (parsed_numref parsed = [])) as [Hnil|Hne].
    + split; [|done]. unfold raw_to_grid in He. cbn [orb] in He.
      destruct (forallb _ _) eqn:Hall; [done|].
      apply not_true_iff_false in Hall. rewrite forallb_forall in Hall.
      destruct (decide (-1 ∈ parsed_cells parsed)) as [|Hno]; [done|].
      exfalso. apply Hall. intros c Hc%list_elem_of_In.
      destruct (Z.eqb_spec c (-1)) as [->|]; done.
    + destruct (raw_to_grid_midside_ok raw parsed Hne) as [mesh Hm]. congruence.
  - intros (-> & Hin & Hnil). unfold raw_to_grid. cbn [orb].
    rewrite (forallb_unresolved _ Hin).
    unfold midside_candidates. rewrite Hnil. by exists ValueError.
Qed.

End MidsideMore.

(** ** Saving a grid that carries no ANSYS arrays *)

Lemma np_any_arange a b : 0 <= a -> np_any (np_eq (np_arange a b) (-1)) = false.
Proof.
  intros Ha. apply not_true_iff_false.
  intros Hin%np_any_eq_elem_of%elem_of_np_arange. lia.
Qed.

Lemma py_index_nat_ok {A} (l : list A) (i : nat) :
  (i < length l)%nat -> exists x, py_index l (Z.of_nat i) = Ok x.
Proof.
  intros Hi. destruct (lookup_lt_is_Some_2 l i Hi) as [x Hx].
  exists x. by apply py_index_lookup.
Qed.

Lemma np_take_in_range {A} (a : list A) (idx : list Z) :
  Forall (fun k => 0 <= k < len a) idx ->
  exists r, np_take a idx = Ok r /\ length r = length idx.
Proof.
  unfold np_take. induction 1 as [|k idx Hk _ (r & IH & Hlen)];
    [by exists []|].
  destruct (py_index_nat_ok a (Z.to_nat k)) as [x Hx]; [unfold len in Hk; lia|].
  rewrite Z2Nat.id in Hx by lia.
  exists (x :: r). cbn [mapM_result]. rewrite Hx. cbn [mbind result_bind].
  rewrite IH. cbn [mbind result_bind]. split; [done|]. simpl. by rewrite Hlen.
Qed.

Section PlainGrid.
Context {float : Type} (fmt_E : float -> string) (uninit : nat -> nat -> Z).

(** A quadratic tetrahedron with exactly ten nodes is written under any
    type number. *)
Lemma enough_nodes_any_tn ct tn n : enough_nodes ct 187 n -> enough_nodes ct tn n.
Proof.
  unfold enough_nodes. destruct (ct =? VTK_QUADRATIC_TETRA); [|done].
  change (187 =? 187) with true. cbv iota. destruct (tn =? 187); lia.
Qed.

Lemma eblock_line_writable (g : @Grid float) (p : Prepared) (k : nat) :
  writable_cell g k ->
  len (nodenum p) = number_of_points g ->
  (k < length (mtype p))%nat -> (k < length (etype p))%nat ->
  (k < length (rcon p))%nat -> (k < length (elem_nnodes p))%nat ->
  (k < length (enum p))%nat ->
  (k < length (typenum p))%nat ->
  exists line, eblock_line g p (Z.of_nat k) = Ok line.
Proof.
  intros (c & nnode & ct & Hoff & Hc0 & Hcell & Hct & Hconn & Hen)
    Hn Hm He Hr Hnn Hen' Htn.
  unfold eblock_line.
  rewrite (py_index_lookup _ _ _ Hoff). cbn [mbind result_bind].
  rewrite (proj2 (py_index_Ok_nonneg _ _ _ Hc0) Hcell). cbn [mbind result_bind].
  destruct (np_take_in_range (nodenum p)
              (py_slice (cells g) (c + 1) (c + 1 + nnode)))
    as (nodes & -> & Hlen); [by rewrite Hn|].
  cbn [mbind result_bind].
  destruct (py_index_nat_ok _ _ Hm) as [? ->]. cbn [mbind result_bind].
  destruct (py_index_nat_ok _ _ He) as [? ->]. cbn [mbind result_bind].
  destruct (py_index_nat_ok _ _ Hr) as [? ->]. cbn [mbind result_bind].
  destruct (py_index_nat_ok _ _ Hnn) as [? ->]. cbn [mbind result_bind].
  destruct (py_index_nat_ok _ _ Hen') as [? ->]. cbn [mbind result_bind].
  rewrite fmt_ints_ok by done. cbn [mbind result_bind].
  rewrite (py_index_lookup _ _ _ Hct). cbn [mbind result_bind].
  destruct (py_index_nat_ok _ _ Htn) as [tnv Htnv]. rewrite Htnv.
  destruct (proj2 (node_fields_enough_iff ct tnv nodes)) as [s ->];
    [|by eexists].
  rewrite Hlen. by apply enough_nodes_any_tn.
Qed.

Lemma eblock_loop_all_ok (g : @Grid float) (p : Prepared) todo written :
  (forall i, i ∈ todo -> exists line, eblock_line g p i = Ok line) ->
  (eblock_loop g p todo written).2 = None.
Proof.
  intros Hall.
  destruct (eblock_loop_split g p todo written)
    as (d & r & lines & -> & _ & _ & Hr).
  destruct ((eblock_loop g p (d ++ r) written).2) as [e|]; [|done].
  destruct Hr as (i & rest & -> & Hi).
  destruct (Hall i) as [line Hline]; [|congruence].
  apply elem_of_app. right. by left.
Qed.

(** X18.  A grid that carries none of the ANSYS arrays is saved
    completely, with [allow_missing] on, as soon as it has a point and a
    cell and every cell is writable: the preparation numbers the nodes
    1, 2, ... and the elements 1, 2, ..., and gives cell number [i] (from
    0) the material number and the real constant number [i + 1], whatever
    [mtype_start] and [real_constant_start] are; the node block, the
    element block header and the record of every cell are written. *)
Theorem plain_grid_is_saved (g : @Grid float) (o : Options) :
  allow_missing o = true ->
  point_arrays g !! "ansys_node_num" = None ->
  cell_arrays g = ∅ ->
  points g <> [] -> celltypes g <> [] ->
  (forall i, (i < length (celltypes g))%nat -> writable_cell g i) ->
  exists p written,
    prepare uninit g o = Ok p /\
    nodenum p = np_arange 1 (number_of_points g + 1) /\
    enum p = np_arange 1 (number_of_cells g + 1) /\
    mtype p = np_arange 1 (number_of_cells g + 1) /\
    rcon p = np_arange 1 (number_of_cells g + 1) /\
    save_as_archive fmt_E uninit g o = Completed written.
Proof.
  intros Hallow Hnn Hca Hpts Hcts Hcells.
  set (n := number_of_points g). set (nc := number_of_cells g).
  assert (1 <= n) as Hn1.
  { unfold n, number_of_points, len. destruct (points g); simpl; [done|lia]. }
  assert (1 <= nc) as Hnc1.
  { unfold nc, number_of_cells, len. destruct (celltypes g); simpl; [done|lia]. }
  assert (node_numbers g o = Ok (np_arange 1 (n + 1))) as Hnode.
  { unfold node_numbers. rewrite Hnn. fold n. by rewrite np_any_arange. }
  assert (element_numbers g o = Ok (np_arange 1 (nc + 1))) as Helem.
  { unfold element_numbers. rewrite Hca, lookup_empty, Hallow.
    cbn [negb mbind result_bind]. fold nc. by rewrite np_any_arange. }
  assert (forall key s, cell_attribute g key s = Ok (np_arange 1 (nc + 1)))
    as Hattr.
  { intros key s. unfold cell_attribute. rewrite Hca, lookup_empty. fold nc.
    by rewrite np_any_arange. }
  assert (forall h, element_types uninit g o h = default_etypes uninit g o h)
    as Het.
  { intros h. unfold element_types. rewrite Hca, lookup_empty.
    rewrite bool_decide_eq_false_2 by (by intros [? ?]).
    cbn [andb negb]. by rewrite Hallow. }
  destruct (default_etypes_ok uninit g o ("/PREP7" +:+ nl))
    as (et & tn & Hd & Let & Ltn & _).
  destruct (nodes_per_element_spec uninit et tn) as (nn & Hnn' & Lnn & _);
    [congruence|].
  set (p := {| header := ((("/PREP7" +:+ nl)
                            +:+ et_line (etype_start o + 2) 185)
                           +:+ et_line (etype_start o) 186)
                          +:+ et_line (etype_start o + 1) 187;
               nodenum := np_arange 1 (n + 1); enum := np_arange 1 (nc + 1);
               mtype := np_arange 1 (nc + 1); rcon := np_arange 1 (nc + 1);
               etype := et; typenum := tn; elem_nnodes := nn |}).
  assert (prepare uninit g o = Ok p) as Hp.
  { unfold prepare. rewrite Hnode. cbn [mbind result_bind].
    rewrite Helem. cbn [mbind result_bind].
    rewrite !Hattr. cbn [mbind result_bind].
    rewrite Het, Hd. cbn [mbind result_bind].
    rewrite Hnn'. cbn [mbind result_bind]. reflexivity. }
  assert (length (np_arange 1 (n + 1)) = length (points g)) as Hlen_n.
  { rewrite length_np_arange. unfold n, number_of_points, len. lia. }
  assert (length (np_arange 1 (nc + 1)) = length (celltypes g)) as Hlen_c.
  { rewrite length_np_arange. unfold nc, number_of_cells, len. lia. }
  assert (exists text, write_nblock fmt_E (nodenum p) (points g) None = Ok text)
    as [text Htext].
  { unfold write_nblock. cbn [p nodenum].
    destruct (np_max (np_arange 1 (n + 1))) as [mx|] eqn:Hmx.
    2:{ rewrite np_arange_cons in Hmx by lia. done. }
    cbn [mbind result_bind].
    destruct (nblock_table_sorted (np_arange 1 (n + 1)) (points g))
      as (rows & -> & _); [done|].
    cbn [mbind result_bind]. by eexists. }
  destruct (py_index_minus1 (enum p)) as [last_enum Hlast].
  { cbn [p enum]. rewrite np_arange_cons by lia. done. }
  exists p.
  assert (exists written, save_as_archive fmt_E uninit g o = Completed written)
    as [written Hsave]; [|by exists written].
  unfold save_as_archive, function_is_true. rewrite Hp, Htext, Hlast.
  pose proof (eblock_loop_all_ok g p (np_arange 0 (number_of_cells g))) as Hloop.
  match goal with
  | |- context [eblock_loop g p _ ?w] => specialize (Hloop w)
  end.
  destruct (eblock_loop g p (np_arange 0 (number_of_cells g)) _) as [f e].
  simpl in Hloop.
  rewrite Hloop; [by eexists|].
  intros i [Hi0 Hi1]%elem_of_np_arange.
  replace i with (Z.of_nat (Z.to_nat i)) by lia.
  assert (Z.to_nat i < length (celltypes g))%nat as Hk
    by (unfold nc, number_of_cells, len in Hi1; lia).
  apply eblock_line_writable;
    cbn [p nodenum enum mtype rcon etype typenum elem_nnodes]; try lia.
  - by apply Hcells.
  - unfold len. rewrite Hlen_n. reflexivity.
Qed.

End PlainGrid.

(** ** Element types that are given *)

Lemma mask_select_elem_of_inv {A} (a : list A) m sel v :
  mask_select a m = Ok sel -> v ∈ sel ->
  exists i, a !! i = Some v /\ m !! i = Some true.
Proof.
  unfold mask_select. destruct (decide _); [|done]. intros [= <-].
  intros ([x b] & -> & [Hb Hin]%list_elem_of_filter)%list_elem_of_fmap.
  simpl in Hb. subst b.
  apply list_elem_of_lookup_1 in Hin as [i Hi].
  apply lookup_zip_Some in Hi as [Ha Hm]. by exists i.
Qed.

(** One [ET] line per distinct element type, in ascending order, with the
    type number found at the first element of that type. *)
Lemma et_header_spec (et tn : list Z) (h : string) :
  (length et <= length tn)%nat ->
  exists lines,
    et_header et tn h = Ok (h +:+ str_concat lines) /\
    Forall2 (fun e line => exists j t,
               et !! j = Some e /\ (forall i, (i < j)%nat -> et !! i <> Some e) /\
               tn !! j = Some t /\ line = et_line e t)
            (np_unique et) lines.
Proof.
  intros Hlen. unfold et_header, np_unique_index.
  pose proof (omap_first_index_min (np_unique et) et
                (fun x Hx => proj1 (elem_of_np_unique x et) Hx)) as Hidx.
  revert h. induction Hidx as [|e k es ks (j & -> & Hj & Hmin) _ IH]; intros h.
  - exists []. simpl. by rewrite str_app_nil_r.
  - cbn [foldM]. rewrite (py_index_lookup _ _ _ Hj). cbn [mbind result_bind].
    destruct (lookup_lt_is_Some_2 tn j) as [t Ht];
      [apply lookup_lt_Some in Hj; lia|].
    rewrite (py_index_lookup _ _ _ Ht). cbn [mbind result_bind].
    destruct (IH (h +:+ et_line e t)) as (lines & -> & Hlines).
    exists (et_line e t :: lines). split.
    + simpl. by rewrite str_app_assoc.
    + constructor; [|done]. by exists j, t.
Qed.

Section GivenTypes.
Context {float : Type} (uninit : nat -> nat -> Z).

(** Usable element-type data: the arrays are returned as given, and the
    header is extended by [et_header] when [include_etype_header] is on. *)
Lemma element_types_usable (g : @Grid float) (o : Options) (h : string)
    (et tn : list Z) :
  cell_arrays g !! "ansys_etype" = Some et ->
  reset_etype o = false ->
  -1 ∉ et ->
  cell_arrays g !! "ansys_elem_type_num" = Some tn ->
  length tn = length (celltypes g) ->
  (forall i c, celltypes g !! i = Some c -> c < 20 -> tn !! i <> Some 186) ->
  element_types uninit g o h
  = (hd ← (if include_etype_header o then et_header et tn h else Ok h);
     Ok (et, tn, hd)).
Proof.
  intros Het Hreset Hvalid Htn Hlen Hlinear.
  unfold element_types. rewrite Het, Hreset.
  rewrite bool_decide_eq_true_2 by (by eexists). cbn [andb negb].
  unfold given_etypes, dict_get. rewrite Het, Htn. cbn [mbind result_bind].
  assert (np_any (np_eq et (-1)) = false) as ->.
  { apply not_true_iff_false. by intros Hin%np_any_eq_elem_of. }
  rewrite andb_true_r.
  destruct (if include_etype_header o then et_header et tn h else Ok h)
    as [hd|e]; cbn [mbind result_bind]; [|done].
  destruct (mask_select tn (np_lt (celltypes g) 20)) as [sel|e] eqn:Hsel.
  2:{ unfold mask_select in Hsel. rewrite decide_True in Hsel; [done|].
      unfold np_lt. by rewrite length_fmap. }
  cbn [mbind result_bind orb].
  assert (np_any (np_eq sel 186) = false) as ->.
  { apply not_true_iff_false. intros Hin%np_any_eq_elem_of.
    destruct (mask_select_elem_of_inv _ _ _ _ Hsel Hin) as (i & Hi & Hm).
    unfold np_lt in Hm. rewrite list_lookup_fmap in Hm.
    destruct (celltypes g !! i) as [c|] eqn:Hc; [|done].
    simpl in Hm. injection Hm as Hm. apply Z.ltb_lt in Hm.
    by apply (Hlinear i c Hc Hm). }
  done.
Qed.

(** X19.  Element-type data that is usable is kept as given, with
    [allow_missing] on or off: when ["ansys_etype"] is present without a
    [-1], [reset_etype] is off, ["ansys_elem_type_num"] has one entry per
    cell and gives no linear cell the type number 186, [save_as_archive]
    uses the two arrays unchanged; and with [include_etype_header] it adds
    to the header one [ET] line per distinct element type, in ascending
    order of type, each with the type number of the first element of that
    type. *)
Theorem usable_etypes_are_kept (g : @Grid float) (o : Options) (h : string)
    (et tn : list Z) :
  cell_arrays g !! "ansys_etype" = Some et ->
  reset_etype o = false ->
  -1 ∉ et ->
  cell_arrays g !! "ansys_elem_type_num" = Some tn ->
  length tn = length (celltypes g) ->
  (length et <= length tn)%nat ->
  (forall i c, celltypes g !! i = Some c -> c < 20 -> tn !! i <> Some 186) ->
  exists lines,
    Forall2 (fun e line => exists j t,
               et !! j = Some e /\ (forall i, (i < j)%nat -> et !! i <> Some e) /\
               tn !! j = Some t /\ line = et_line e t)
            (np_unique et) lines /\
    element_types uninit g o h
    = Ok (et, tn, if include_etype_header o then h +:+ str_concat lines else h).
Proof.
  intros Het Hreset Hvalid Htn Hlen Hlen' Hlinear.
  destruct (et_header_spec et tn h Hlen') as (lines & Hhdr & Hlines).
  exists lines. split; [done|].
  rewrite (element_types_usable g o h et tn) by done.
  destruct (include_etype_header o); [by rewrite Hhdr|done].
Qed.

(** X21.  The start numbers and [allow_missing] are read only to fill in
    what is missing: on a grid whose node numbers, material numbers and
    real constants are absent or free of [-1], whose element numbers are
    present and free of [-1], and whose element-type data is usable, two
    calls of [save_as_archive] that agree on [include_etype_header] (with
    [reset_etype] off) leave the same file and the same outcome, whatever
    [mtype_start], [etype_start], [real_constant_start], [enum_start],
    [nnum_start] and [allow_missing] are. *)
Theorem options_are_read_for_missing_data_only (fmt_E : float -> string)
    (g : @Grid float) (o o' : Options) (en et tn : list Z) :
  (forall a, point_arrays g !! "ansys_node_num" = Some a -> -1 ∉ a) ->
  cell_arrays g !! "ansys_elem_num" = Some en -> -1 ∉ en ->
  (forall a, cell_arrays g !! "ansys_material_type" = Some a -> -1 ∉ a) ->
  (forall a, cell_arrays g !! "ansys_real_constant" = Some a -> -1 ∉ a) ->
  cell_arrays g !! "ansys_etype" = Some et -> -1 ∉ et ->
  cell_arrays g !! "ansys_elem_type_num" = Some tn ->
  length tn = length (celltypes g) ->
  (forall i c, celltypes g !! i = Some c -> c < 20 -> tn !! i <> Some 186) ->
  reset_etype o = false -> reset_etype o' = false ->
  include_etype_header o = include_etype_header o' ->
  save_as_archive fmt_E uninit g o = save_as_archive fmt_E uninit g o'.
Proof.
  intros Hnode Hen Hen1 Hmt Hrc Het Het1 Htn Hlen Hlinear Hr Hr' Hinc.
  assert (forall l : list Z, -1 ∉ l -> np_any (np_eq l (-1)) = false) as Hno.
  { intros l Hl. apply not_true_iff_false. by intros Hin%np_any_eq_elem_of. }
  assert (forall a b, 0 <= a -> np_any (np_eq (np_arange a b) (-1)) = false)
    as Hno_arange.
  { intros a b Ha. apply Hno. intros Hin%elem_of_np_arange. lia. }
  assert (node_numbers g o = node_numbers g o') as Enode.
  { unfold node_numbers.
    destruct (point_arrays g !! "ansys_node_num") as [a|] eqn:Ha.
    - by rewrite (Hno a (Hnode a eq_refl)).
    - by rewrite Hno_arange. }
  assert (element_numbers g o = element_numbers g o') as Eelem.
  { unfold element_numbers. rewrite Hen. cbn [mbind result_bind].
    by rewrite (Hno en Hen1). }
  assert (forall key s s',
            (forall a, cell_arrays g !! key = Some a -> -1 ∉ a) ->
            cell_attribute g key s = cell_attribute g key s') as Eattr.
  { intros key s s' Hkey. unfold cell_attribute.
    destruct (cell_arrays g !! key) as [a|] eqn:Ha.
    - by rewrite (Hno a (Hkey a eq_refl)).
    - by rewrite Hno_arange. }
  assert (prepare uninit g o = prepare uninit g o') as Eprep.
  { unfold prepare. rewrite Enode, Eelem.
    rewrite (Eattr "ansys_material_type" (mtype_start o) (mtype_start o') Hmt).
    rewrite (Eattr "ansys_real_constant" (real_constant_start o)
               (real_constant_start o') Hrc).
    rewrite (element_types_usable g o _ et tn) by done.
    rewrite (element_types_usable g o' _ et tn) by done.
    by rewrite Hinc. }
  unfold save_as_archive. by rewrite Eprep.
Qed.

End GivenTypes.

(** ** Node blocks whose ids are already in ascending order *)

Lemma key_le_trans : Transitive key_le.
Proof. intros [a i] [b j] [c k]. unfold key_le. simpl. lia. Qed.

Lemma key_le_antisymm : AntiSymm (=) key_le.
Proof.
  intros [a i] [b j]. unfold key_le. simpl. intros H1 H2.
  f_equal; lia.
Qed.

Lemma zip_seq_sorted (l : list Z) (s : nat) :
  strictly_ascending l -> Sorted key_le (zip l (seq s (length l))).
Proof.
  intros Hl. revert s. induction Hl as [|x l Hl IH Hx]; intros s; simpl;
    [constructor|].
  constructor; [apply IH|].
  destruct l as [|y l]; simpl; [constructor|].
  constructor. left. simpl. inversion Hx; subst. done.
Qed.

Lemma argsort_pairs_ascending (l : list Z) :
  strictly_ascending l -> argsort_pairs l = zip l (seq 0 (length l)).
Proof.
  intros Hl. unfold argsort_pairs.
  apply (Sorted_unique key_le (Transitive0 := key_le_trans)
           (AntiSymm0 := key_le_antisymm)).
  - apply (Sorted_merge_sort key_le (Total0 := key_le_total)).
  - by apply zip_seq_sorted.
  - apply merge_sort_Permutation.
Qed.

Lemma omap_lookup_seq {A} (k l : list A) :
  omap (fun i => (k ++ l) !! i) (seq (length k) (length l)) = l.
Proof.
  revert k. induction l as [|x l IH]; intros k; [done|].
  cbn [length seq].
  change (omap (fun i => (k ++ x :: l) !! i) (length k :: seq (S (length k)) (length l)))
    with (match (k ++ x :: l) !! length k with
          | Some y => y :: omap (fun i => (k ++ x :: l) !! i) (seq (S (length k)) (length l))
          | None => omap (fun i => (k ++ x :: l) !! i) (seq (S (length k)) (length l))
          end).
  rewrite list_lookup_middle by done. f_equal.
  specialize (IH (k ++ [x])). rewrite <- app_assoc in IH. simpl in IH.
  rewrite length_app in IH. simpl in IH.
  by replace (length k + 1)%nat with (S (length k)) in IH by lia.
Qed.

Lemma np_take_identity {A} (a : list A) (n : nat) :
  n = length a -> np_take a (Z.of_nat <$> seq 0 n) = Ok a.
Proof.
  intros ->. destruct (np_take_indices a (seq 0 (length a))) as [-> _].
  - intros i Hi%elem_of_seq. lia.
  - f_equal. exact (omap_lookup_seq [] a).
Qed.

Section SortedNodeBlock.
Context {float : Type}.

(** X20.  When the node ids are given in strictly ascending order,
    together with as many positions and, if any, as many angles,
    [write_nblock] changes nothing in the order of the rows: row [i] of
    the table handed to [np.savetxt] holds id [i], position [i] and angles
    [i] of the input. *)
Theorem write_nblock_keeps_ascending_input (node_id : list Z)
    (pos : list (@point float)) (angles : option (list (@point float))) :
  strictly_ascending node_id ->
  length pos = length node_id ->
  (forall a, angles = Some a -> length a = length node_id) ->
  exists rows,
    nblock_table node_id pos angles = Ok rows /\
    length rows = length node_id /\
    forall i id p, node_id !! i = Some id -> pos !! i = Some p ->
      match angles with
      | None => rows !! i = Some (id, coords p)
      | Some a => exists r, a !! i = Some r /\
                            rows !! i = Some (id, coords p ++ coords r)
      end.
Proof.
  intros Hasc Hpos Hang. unfold nblock_table.
  rewrite np_argsort_pairs, (argsort_pairs_ascending _ Hasc).
  rewrite snd_zip by (by rewrite length_seq).
  rewrite (np_take_identity node_id) by done. cbn [mbind result_bind].
  rewrite (np_take_identity pos) by done. cbn [mbind result_bind].
  destruct angles as [a|].
  - specialize (Hang a eq_refl). unfold broadcast_rows.
    rewrite decide_True by done. cbn [mbind result_bind].
    eexists. split; [done|]. split.
    + rewrite length_zip_with, length_zip. lia.
    + intros i id p Hid Hp.
      destruct (lookup_lt_is_Some_2 a i) as [r Hr];
        [apply lookup_lt_Some in Hid; lia|].
      exists r. split; [done|].
      rewrite lookup_zip_with.
      assert (zip node_id pos !! i = Some (id, p)) as ->
        by (by apply lookup_zip_Some).
      cbn [mbind option_bind]. by rewrite Hr.
  - eexists. split; [done|]. split.
    + rewrite length_zip_with. lia.
    + intros i id p Hid Hp. rewrite lookup_zip_with, Hid.
      cbn [mbind option_bind]. by rewrite Hp.
Qed.

End SortedNodeBlock.

(** ** The properties at concrete inputs *)

(** Ten tokens in chunks of eight. *)
Lemma chunks_partition_witness :
  concat (chunks [1; -3; 5; 7; -9; 11; 13; 15; 17; 19] 8)
  = [1; -3; 5; 7; -9; 11; 13; 15; 17; 19] /\
  length (chunks [1; -3; 5; 7; -9; 11; 13; 15; 17; 19] 8) = 2%nat.
Proof.
  destruct (chunks_partition [1; -3; 5; 7; -9; 11; 13; 15; 17; 19] 8)
    as (H1 & H2 & _); [lia|].
  split; [exact H1|exact H2].
Defined.

(** The ids 1, 2, 3, 5, 7, 8, 9 are written with five tokens. *)
Lemma cmblock_tokens_compact_witness :
  exists toks,
    cmblock_encode 64 [1; 2; 3; 5; 7; 8; 9] = Ok toks /\
    (0 < length toks <= length [1; 2; 3; 5; 7; 8; 9])%nat /\
    head toks = head [1; 2; 3; 5; 7; 8; 9] /\
    Forall (fun t => Z.abs t ∈ [1; 2; 3; 5; 7; 8; 9]) toks.
Proof.
  apply (cmblock_tokens_compact 64 [1; 2; 3; 5; 7; 8; 9]).
  - lia.
  - discriminate.
  - unfold strictly_ascending. repeat (constructor; try lia).
  - repeat constructor; lia.
Defined.

(** The ids 3, 1, 2, 1 and the ids 1, 2, 3 are the same component. *)
Lemma write_cmblock_depends_on_id_set_witness :
  write_cmblock 64 [3; 1; 2; 1] "comp" "node" 10
  = write_cmblock 64 [1; 2; 3] "comp" "node" 10.
Proof.
  apply (write_cmblock_depends_on_id_set 64 [3; 1; 2; 1] [1; 2; 3]).
  intros x. rewrite !elem_of_cons, !elem_of_nil. tauto.
Defined.

(** Two nodes given in descending order of id. *)
Lemma write_nblock_rows_ascending_witness :
  exists mx rows,
    write_nblock id [2; 1] [("x2", "y2", "z2"); ("x1", "y1", "z1")] None
    = Ok (("/PREP7 " +:+ nl +:+
           "NBLOCK,6,SOLID," +:+ fmt_d 10 mx +:+ "," +:+ fmt_d 10 2
           +:+ nl +:+ "(3i8,6e20.13)")
          +:+ nl +:+ str_concat ((fun r => nblock_row id r +:+ nl) <$> rows)
          +:+ ("N,R5.3,LOC,       -1, " +:+ nl) +:+ nl) /\
    Sorted Z.le rows.*1.
Proof.
  destruct (write_nblock_rows_ascending id [2; 1]
              [("x2", "y2", "z2"); ("x1", "y1", "z1")])
    as (mx & rows & Htext & _ & _ & Hsorted & _).
  - discriminate.
  - reflexivity.
  - exists mx, rows. split; [exact Htext|exact Hsorted].
Defined.

Lemma int32_ids_fit :
  renumber_fits 32 [4; -1; 2; -1] 1 /\ renumber_fits 32 [-1; 7] 1.
Proof.
  split; (split; [lia|]); (split; [repeat constructor; vm_compute; done|]);
    vm_compute; done.
Qed.

(** The node numbers of [tet_and_unknown], an [int32] array. *)
Lemma renumbering_assigns_fresh_ids_witness :
  exists num',
    renumber_missing 32 [4; -1; 2; -1] 1 = Ok num' /\ NoDup num'.
Proof.
  destruct (renumbering_assigns_fresh_ids 32 [4; -1; 2; -1] 1)
    as (mx & num' & _ & Hre & _ & _ & _ & _ & Hnd).
  - apply (list_elem_of_lookup_2 _ 1%nat). reflexivity.
  - exact (proj1 int32_ids_fit).
  - exists num'. split; [exact Hre|]. apply Hnd.
    intros i j x Hx Hi Hj.
    destruct i as [|[|[|[|i]]]], j as [|[|[|[|j]]]]; simpl in Hi, Hj;
      try done; congruence.
Defined.

Lemma prepared_ids_are_assigned_witness :
  exists p,
    prepare stale_memory tet_and_unknown default_options = Ok p /\
    (-1 ∉ nodenum p) /\ (-1 ∉ enum p).
Proof.
  eexists. split; [vm_compute; reflexivity|].
  apply (prepared_ids_are_assigned stale_memory tet_and_unknown default_options).
  - intros a Ha. vm_compute in Ha. injection Ha as <-.
    exact (proj1 int32_ids_fit).
  - intros a Ha. vm_compute in Ha. injection Ha as <-.
    exact (proj2 int32_ids_fit).
  - vm_compute. reflexivity.
Defined.

(** [one_tet] has no ["ansys_etype"] array. *)
Lemma strict_mode_rejects_missing_data_witness :
  exists e, save_as_archive id stale_memory one_tet strict_options = NotOpened e.
Proof.
  apply (strict_mode_rejects_missing_data id stale_memory one_tet strict_options).
  - reflexivity.
  - right. right. right. left. reflexivity.
Defined.

Lemma unusable_etypes_are_replaced_by_shape_witness :
  exists p,
    prepare stale_memory one_tet default_options = Ok p /\
    etype p !! 0%nat = Some 3 /\ typenum p !! 0%nat = Some 185 /\
    elem_nnodes p !! 0%nat = Some 8.
Proof.
  eexists. split; [vm_compute; reflexivity|].
  destruct (unusable_etypes_are_replaced_by_shape stale_memory one_tet
              default_options _ ltac:(unfold in_range; simpl; lia)
              ltac:(unfold in_range; simpl; lia)
              (or_introl eq_refl) eq_refl)
    as (_ & _ & Htab).
  destruct (Htab 0%nat VTK_TETRA eq_refl) as (Hlin & _ & _).
  apply Hlin. left.
Defined.

(** A wedge on the nodes 1 to 6. *)
Lemma degenerate_slots_lose_no_node_witness :
  exists w,
    to_archive_slots wedge_slots [1; 2; 3; 4; 5; 6] = Ok w /\
    forall x, x ∈ w <-> x ∈ [1; 2; 3; 4; 5; 6].
Proof.
  destruct (degenerate_slots_lose_no_node wedge_slots 6 [1; 2; 3; 4; 5; 6])
    as (w & Hw & _ & Hmem & _).
  - unfold degenerate_templates. do 2 right. left.
  - reflexivity.
  - exists w. split; [exact Hw|exact Hmem].
Defined.

(** [tet_and_unknown] aborts at its second cell. *)
Lemma aborted_archive_holds_a_prefix_witness :
  exists written e p,
    save_as_archive id stale_memory tet_and_unknown default_options
    = Aborted written e /\
    prepare stale_memory tet_and_unknown default_options = Ok p.
Proof.
  eexists _, _.
  assert (save_as_archive id stale_memory tet_and_unknown default_options
          = Aborted _ _) as Hrun by (vm_compute; reflexivity).
  destruct (aborted_archive_holds_a_prefix id stale_memory tet_and_unknown
              default_options _ _ Hrun) as (p & Hp & _).
  exists p. split; [exact Hrun|exact Hp].
Defined.

(** [one_tet] is written completely, and has points. *)
Lemma completed_archive_is_not_empty_witness :
  exists written,
    save_as_archive id stale_memory one_tet default_options = Completed written /\
    points one_tet <> [].
Proof.
  eexists.
  assert (save_as_archive id stale_memory one_tet default_options
          = Completed _) as Hrun by (vm_compute; reflexivity).
  split; [exact Hrun|].
  exact (proj1 (completed_archive_is_not_empty id stale_memory one_tet
                  default_options _ Hrun)).
Defined.

(** The shared edge of [shared_edge_parsed]. *)
Lemma raw_to_grid_keeps_raw_nodes_witness :
  exists mesh extra,
    raw_to_grid triple_le 0 shared_edge_reset shared_edge_raw
      shared_edge_parsed false = Ok mesh /\
    mesh_nodes mesh = [(0, 0, 0); (2, 0, 0)] ++ extra /\
    mesh_nnum mesh = [10; 20] ++ replicate (length extra) (-1).
Proof.
  eexists.
  assert (raw_to_grid triple_le 0 shared_edge_reset shared_edge_raw
            shared_edge_parsed false = Ok _) as Hgrid
    by (vm_compute; reflexivity).
  destruct (raw_to_grid_keeps_raw_nodes triple_le 0 shared_edge_reset
              shared_edge_raw shared_edge_parsed false _ Hgrid)
    as (extra & Hnodes & _ & _ & Hnnum & _).
  exists extra. split; [exact Hgrid|]. split; [exact Hnodes|exact Hnnum].
Defined.

Lemma raw_to_grid_raises_iff_witness :
  raises (raw_to_grid triple_le 0 shared_edge_reset shared_edge_raw
            shared_edge_parsed false) <->
  false = false /\ -1 ∈ parsed_cells shared_edge_parsed /\
  parsed_numref shared_edge_parsed = [].
Proof.
  apply (raw_to_grid_raises_iff triple_le 0 shared_edge_reset
           shared_edge_reset_shape shared_edge_raw shared_edge_parsed false).
Defined.

(** [plain_tet] is written completely. *)
Lemma plain_grid_is_saved_witness :
  exists written,
    save_as_archive id stale_memory plain_tet default_options
    = Completed written.
Proof.
  destruct (plain_grid_is_saved id stale_memory plain_tet default_options)
    as (p & written & _ & _ & _ & _ & _ & Hsave).
  - reflexivity.
  - reflexivity.
  - reflexivity.
  - discriminate.
  - discriminate.
  - intros [|i] Hi; [|simpl in Hi; lia].
    exists 0, 4, VTK_TETRA.
    split; [reflexivity|]. split; [lia|]. split; [reflexivity|].
    split; [reflexivity|]. split.
    + repeat constructor; unfold number_of_points, len; simpl; lia.
    + unfold enough_nodes. simpl. lia.
  - exists written. exact Hsave.
Defined.

(** [unnumbered_tet] carries the element type 1 with the type number 185. *)
Lemma usable_etypes_are_kept_witness :
  exists lines,
    element_types stale_memory unnumbered_tet strict_options ("/PREP7" +:+ nl)
    = Ok ([1], [185], ("/PREP7" +:+ nl) +:+ str_concat lines).
Proof.
  destruct (usable_etypes_are_kept stale_memory unnumbered_tet strict_options
              ("/PREP7" +:+ nl) [1] [185]) as (lines & _ & Het).
  - reflexivity.
  - reflexivity.
  - rewrite list_elem_of_singleton. lia.
  - reflexivity.
  - reflexivity.
  - simpl. lia.
  - intros [|i] c; simpl; intros _ _; [intros [=]|done].
  - exists lines. exact Het.
Defined.

(** Two nodes given in ascending order of id, with angles. *)
Lemma write_nblock_keeps_ascending_input_witness :
  exists rows,
    nblock_table [1; 2] [("x1", "y1", "z1"); ("x2", "y2", "z2")]
      (Some [("a1", "b1", "c1"); ("a2", "b2", "c2")]) = Ok rows /\
    length rows = 2%nat.
Proof.
  destruct (write_nblock_keeps_ascending_input [1; 2]
              [("x1", "y1", "z1"); ("x2", "y2", "z2")]
              (Some [("a1", "b1", "c1"); ("a2", "b2", "c2")]))
    as (rows & Hrows & Hlen & _).
  - unfold strictly_ascending. repeat (constructor; try lia).
  - reflexivity.
  - intros a [= <-]. reflexivity.
  - exists rows. split; [exact Hrows|exact Hlen].
Defined.

(** [unnumbered_tet] is written the same way with and without
    [allow_missing]. *)
Lemma options_are_read_for_missing_data_only_witness :
  save_as_archive id stale_memory unnumbered_tet strict_options
  = save_as_archive id stale_memory unnumbered_tet default_options.
Proof.
  apply (options_are_read_for_missing_data_only stale_memory id unnumbered_tet
           strict_options default_options [1] [1] [185]).
  - intros a Ha. vm_compute in Ha. discriminate.
  - reflexivity.
  - rewrite list_elem_of_singleton. lia.
  - intros a Ha. vm_compute in Ha. discriminate.
  - intros a Ha. vm_compute in Ha. discriminate.
  - reflexivity.
  - rewrite list_elem_of_singleton. lia.
  - reflexivity.
  - reflexivity.
  - intros [|i] c; simpl; intros _ _; [intros [=]|done].
  - reflexivity.
  - reflexivity.
  - reflexivity.
Defined.
